(** * snntorch.backprop: the windowed training scheduler

    A shallow embedding of [snntorch/backprop.py] (TBPTT, BPTT, RTRL, BPTF)
    and the properties of its temporal credit-assignment schedule.

    Modelling conventions.
    - Python integers are [Z]; [%] is [Z.modulo] (sign of the divisor, as in
      Python) with the division by zero written out as [ZeroDivisionError].
    - Tensors are an abstract type [T]; the torch operations used by the
      scheduler ([torch.stack], indexing, slicing, [.to(device)]) are the
      fields of a record.  Scalar losses are exact rationals [Q]: the
      arithmetic of the scheduler is followed, rounding is not.
    - The mutable objects the scheduler only drives (network parameters and
      hidden state, optimizer state, autograd graph) are one abstract world
      [W], threaded through every collaborator call.  Each such call is also
      appended to a trace of events, so that "how often" and "before any"
      can be stated.
    - Collaborators are total: an exception raised inside the network, the
      criterion or the optimizer is outside this model.  The exceptions of
      [backprop.py] itself (including unbound local variables) are modelled. *)

From Stdlib Require Import ZArith QArith List String Bool Lia.
Import ListNotations.
Local Open Scope Z_scope.

(** ** Exceptions, values *)

Inductive exn : Type :=
| ValueError_K            (* "K must be less than or equal to num_steps." *)
| TypeError_criterion     (* "``criterion`` must be one of the loss functions ..." *)
| UnboundLocalError (name : string)
| ZeroDivisionError
| ValueError_unpack       (* tuple unpacking of the network outputs *)
| RuntimeError_stack      (* torch.stack of an empty list *)
| NotImplementedError.    (* raised nowhere in backprop.py *)

Inductive result (A : Type) : Type :=
| Ok (a : A)
| Raise (e : exn).
Arguments Ok {A} a.
Arguments Raise {A} e.

(** What a Python call hands back: [None] or a number. *)
Inductive value : Type :=
| VNone
| VNum (q : Q).

(** The neuron classes named in [neurons_dict]. *)
Inductive neuron_class : Type := Lapicque | Leaky | Synaptic | Alpha | Stein.

(** ** Python dictionaries as insertion-ordered association lists *)

(** [d[k] = v]: an existing key keeps its position and takes the new value. *)
Fixpoint dict_set {V : Type} (k : bool) (v : V) (d : list (bool * V)) : list (bool * V) :=
  match d with
  | [] => [(k, v)]
  | (k', v') :: r => if Bool.eqb k k' then (k, v) :: r else (k', v') :: dict_set k v r
  end.

Definition criterion_dict : list (string * (bool * bool)) :=
  [ ("mse_membrane_loss"%string, (false, true));
    ("ce_max_membrane_loss"%string, (false, false));
    ("ce_rate_loss"%string, (true, false));
    ("ce_count_loss"%string, (true, false));
    ("mse_count_loss"%string, (true, false)) ].

Definition reg_dict : list (string * bool) := [ ("l1_rate_sparsity"%string, true) ].

(** [range(n)] *)
Definition range (n : Z) : list Z := map Z.of_nat (seq 0 (Z.to_nat n)).

Section Backprop.

Variables T W : Type.

(** ** Collaborators *)

Inductive event : Type :=
| EvReset                              (* utils.reset(net) *)
| EvNetTo (device : string)            (* net.to(device) *)
| EvIter                               (* iter(dataloader) *)
| EvTrain                              (* net.train() *)
| EvForward (x : T)                    (* net(x) *)
| EvCriterion (signal target : T)      (* criterion(signal, target) *)
| EvRegularization (signal : T)        (* regularization(signal) *)
| EvZeroGrad                           (* optimizer.zero_grad() *)
| EvBackward (loss : Q)                (* loss_trunc.backward() *)
| EvOptStep                            (* optimizer.step() *)
| EvDetach (c : neuron_class).         (* snn.<c>.detach_hidden() *)

Record Torch : Type := {
  stack : list T -> T;                 (* torch.stack(xs, dim=0), xs non-empty *)
  index : T -> Z -> T;                 (* x[i] *)
  slice : T -> Z -> Z -> T;            (* x[lo:hi] *)
  to : string -> T -> T;               (* x.to(device) *)
  backward : Q -> W -> W               (* loss.backward() *)
}.

Record Network : Type := {
  net_forward : W -> T -> list T * W;
  net_to : string -> W -> W;
  net_train : W -> W;
  utils_reset : W -> W;                (* utils.reset(net) *)
  utils_is : W -> neuron_class -> bool;(* utils.is_lapicque, utils.is_leaky, ... *)
  final_layer_check : W -> Z;          (* utils._final_layer_check(net) *)
  detach_hidden : neuron_class -> W -> W
}.

Record Optimizer : Type := {
  zero_grad : W -> W;
  opt_step : W -> W
}.

Record Criterion : Type := {
  crit_name : string;                  (* criterion.__name__ *)
  crit_time_var_targets : bool;        (* criterion.time_var_targets *)
  crit_call : T -> T -> Q
}.

Record Regularizer : Type := {
  reg_name : string;                   (* regularization.__name__ *)
  reg_call : T -> Q
}.

(** ** The frame of a call of TBPTT *)

(** Variables bound once, before the batch loop (lines 99-147). *)
Record env : Type := mkEnv {
  neurons_dict : list (bool * neuron_class);
  loss_spk : option bool;              (* None: never assigned *)
  time_var_targets : bool;
  reg_spk : option bool;               (* None: never assigned *)
  num_return : Z
}.

(** Variables rebound by the loops, the world and the trace. *)
Record frame : Type := mkFrame {
  step : option Z;                     (* None: never assigned *)
  step_trunc : Z;
  K_count : Z;
  loss_trunc : Q;
  loss_avg : Q;
  mem_rec_trunc : list T;
  spk_rec_trunc : list T;
  world : W;
  trace : list event
}.

Definition set_step (v : option Z) (s : frame) : frame :=
  mkFrame v (step_trunc s) (K_count s) (loss_trunc s) (loss_avg s)
          (mem_rec_trunc s) (spk_rec_trunc s) (world s) (trace s).
Definition set_step_trunc (v : Z) (s : frame) : frame :=
  mkFrame (step s) v (K_count s) (loss_trunc s) (loss_avg s)
          (mem_rec_trunc s) (spk_rec_trunc s) (world s) (trace s).
Definition set_K_count (v : Z) (s : frame) : frame :=
  mkFrame (step s) (step_trunc s) v (loss_trunc s) (loss_avg s)
          (mem_rec_trunc s) (spk_rec_trunc s) (world s) (trace s).
Definition set_loss_trunc (v : Q) (s : frame) : frame :=
  mkFrame (step s) (step_trunc s) (K_count s) v (loss_avg s)
          (mem_rec_trunc s) (spk_rec_trunc s) (world s) (trace s).
Definition set_loss_avg (v : Q) (s : frame) : frame :=
  mkFrame (step s) (step_trunc s) (K_count s) (loss_trunc s) v
          (mem_rec_trunc s) (spk_rec_trunc s) (world s) (trace s).
Definition set_mem_rec_trunc (v : list T) (s : frame) : frame :=
  mkFrame (step s) (step_trunc s) (K_count s) (loss_trunc s) (loss_avg s)
          v (spk_rec_trunc s) (world s) (trace s).
Definition set_spk_rec_trunc (v : list T) (s : frame) : frame :=
  mkFrame (step s) (step_trunc s) (K_count s) (loss_trunc s) (loss_avg s)
          (mem_rec_trunc s) v (world s) (trace s).

(** A collaborator call: the world moves and the call is recorded. *)
Definition effect (ev : event) (f : W -> W) (s : frame) : frame :=
  mkFrame (step s) (step_trunc s) (K_count s) (loss_trunc s) (loss_avg s)
          (mem_rec_trunc s) (spk_rec_trunc s) (f (world s)) (trace s ++ [ev]).

(** ** A state monad whose state survives an exception *)

Definition M (A : Type) : Type := frame -> result A * frame.

Definition ret {A : Type} (a : A) : M A := fun s => (Ok a, s).
Definition raise {A : Type} (e : exn) : M A := fun s => (Raise e, s).
Definition bind {A B : Type} (m : M A) (k : A -> M B) : M B :=
  fun s => match m s with
           | (Ok a, s') => k a s'
           | (Raise e, s') => (Raise e, s')
           end.
Definition gets {A : Type} (f : frame -> A) : M A := fun s => (Ok (f s), s).
Definition modify (f : frame -> frame) : M unit := fun s => (Ok tt, f s).

Notation "x <- m ;; k" := (bind m (fun x => k))
  (at level 61, m at next level, right associativity).
Notation "m ;; k" := (bind m (fun _ => k))
  (at level 61, right associativity).

(** Reading a local variable that may never have been assigned. *)
Definition local {A : Type} (name : string) (v : option A) : M A :=
  match v with
  | Some a => ret a
  | None => raise (UnboundLocalError name)
  end.

(** [for x in xs: body(x)] *)
Fixpoint for_each {A : Type} (xs : list A) (body : A -> M unit) : M unit :=
  match xs with
  | [] => ret tt
  | x :: r => body x ;; for_each r body
  end.

Section TBPTT.

Variable torch : Torch.
Variable net : Network.
Variable num_steps : Z.
Variable optimizer : Optimizer.
Variable criterion : Criterion.
Variable time_var : bool.
Variable regularization : option Regularizer.   (* None: the default False *)
Variable device : string.
Variable K : Z.

(** *** Lines 99-105: neurons_dict, a dict literal keyed by the five flags *)
Definition make_neurons_dict (w : W) : list (bool * neuron_class) :=
  fold_left (fun d c => dict_set (utils_is net w c) c d)
            [Lapicque; Leaky; Synaptic; Alpha; Stein] [].

(** *** Lines 127-136: the loop over criterion_dict.
    The state is (loss_spk, time_var_targets, counter). *)
Definition criterion_loop_body (st : option bool * bool * Z)
    (item : string * (bool * bool)) : option bool * bool * Z :=
  let '(ls, tvt, counter) := st in
  let '(criterion_key, (spk_flag, tv_flag)) := item in
  let '(ls', tvt') :=
    if String.eqb criterion_key (crit_name criterion)
    then (Some spk_flag,
          if tv_flag then crit_time_var_targets criterion else tv_flag)
    else (ls, tvt) in
  (ls', tvt', counter - 1).

Definition criterion_loop : option bool * bool * Z :=
  fold_left criterion_loop_body criterion_dict
            (None, false, Z.of_nat (List.length criterion_dict)).

(** *** Lines 142-145: the loop over reg_dict *)
Definition regularization_loop : option bool :=
  match regularization with
  | Some reg =>
      fold_left (fun rs item =>
                   if String.eqb (fst item) (reg_name reg) then Some (snd item) else rs)
                reg_dict None
  | None => None
  end.

Section Loops.

Variable e : env.

(** *** Lines 170-186: the forward pass, dispatched on num_return *)
Definition forward (x : T) : M (list T) :=
  fun s => let (outs, w') := net_forward net (world s) x in
           (Ok outs, effect (EvForward x) (fun _ => w') s).

Definition net_call (data : T) (i : Z) : M (T * T) :=
  let x := if time_var then index torch data i else data in
  if num_return e =? 2 then
    outs <- forward x ;;
    match outs with
    | [spk; mem] => ret (spk, mem)
    | _ => raise ValueError_unpack
    end
  else if num_return e =? 3 then
    outs <- forward x ;;
    match outs with
    | [spk; _; mem] => ret (spk, mem)
    | _ => raise ValueError_unpack
    end
  else if num_return e =? 4 then
    outs <- forward x ;;
    match outs with
    | [spk; _; _; mem] => ret (spk, mem)
    | _ => raise ValueError_unpack
    end
  else raise (UnboundLocalError "spk").

(** *** Lines 203-231 and 256-280: stack the buffers, criterion, regularizer.
    [hi] is the upper bound of the target slice, the one place where the two
    copies differ.  Python rebinds [spk_rec_trunc] and [mem_rec_trunc] to the
    stacked tensors here; the frame keeps the lists, which are rebound to []
    before anything reads them again. *)
Definition torch_stack (buf : list T) : M T :=
  match buf with
  | [] => raise RuntimeError_stack
  | _ => ret (stack torch buf)
  end.

Definition call_criterion (signal target : T) : M Q :=
  modify (effect (EvCriterion signal target) (fun w => w)) ;;
  ret (crit_call criterion signal target).

Definition call_regularization (reg : Regularizer) (signal : T) : M Q :=
  modify (effect (EvRegularization signal) (fun w => w)) ;;
  ret (reg_call reg signal).

Definition window_loss (targets : T) (hi : Z) : M Q :=
  spk_buf <- gets spk_rec_trunc ;;
  spk <- torch_stack spk_buf ;;
  mem_buf <- gets mem_rec_trunc ;;
  mem <- torch_stack mem_buf ;;
  kc <- gets K_count ;;
  loss <- (if time_var_targets e then
             ls <- local "loss_spk" (loss_spk e) ;;
             call_criterion (if ls then spk else mem) (slice torch targets (kc * K) hi)
           else
             ls <- local "loss_spk" (loss_spk e) ;;
             call_criterion (if ls then spk else mem) targets) ;;
  match regularization with
  | Some reg =>
      rs <- local "reg_spk" (reg_spk e) ;;
      pen <- call_regularization reg (if rs then spk else mem) ;;
      ret (loss + pen)%Q
  | None => ret loss
  end.

(** *** Lines 240-244 and 295-297: detach_hidden over neurons_dict *)
Definition detach_all : M unit :=
  for_each (neurons_dict e)
    (fun item => if fst item
                 then modify (effect (EvDetach (snd item)) (detach_hidden net (snd item)))
                 else ret tt).

(** *** Lines 236-238 and 285-287 *)
Definition update : M unit :=
  modify (effect EvZeroGrad (zero_grad optimizer)) ;;
  lt <- gets loss_trunc ;;
  modify (effect (EvBackward lt) (backward torch lt)) ;;
  modify (effect EvOptStep (opt_step optimizer)).

(** *** Lines 200-250: the window closed every K steps *)
Definition close_window (targets : T) : M unit :=
  kc <- gets K_count ;;
  loss <- window_loss targets ((kc + 1) * K) ;;
  lt <- gets loss_trunc ;;
  modify (set_loss_trunc (lt + loss)%Q) ;;
  (if K =? 0 then raise ZeroDivisionError else ret tt) ;;
  la <- gets loss_avg ;;
  modify (set_loss_avg (la + loss / (inject_Z num_steps / inject_Z K))%Q) ;;
  update ;;
  detach_all ;;
  kc <- gets K_count ;;
  modify (set_K_count (kc + 1)) ;;
  modify (set_step_trunc 0) ;;
  modify (set_loss_trunc 0%Q) ;;
  modify (set_spk_rec_trunc []) ;;
  modify (set_mem_rec_trunc []).

(** *** Lines 253-297: the remainder window, closed after the step loop *)
Definition close_remainder (targets : T) : M unit :=
  kc <- gets K_count ;;
  loss <- window_loss targets (kc * K + num_steps mod K) ;;
  lt <- gets loss_trunc ;;
  modify (set_loss_trunc (lt + loss)%Q) ;;
  la <- gets loss_avg ;;
  modify (set_loss_avg (la + loss / inject_Z (num_steps mod K))%Q) ;;
  update ;;
  modify (set_K_count 0) ;;
  modify (set_step_trunc 0) ;;
  modify (set_loss_trunc 0%Q) ;;
  modify (set_spk_rec_trunc []) ;;
  modify (set_mem_rec_trunc []) ;;
  detach_all.

(** *** Lines 169-250: one iteration of [for step in range(num_steps)] *)
Definition step_body (data targets : T) (i : Z) : M unit :=
  modify (set_step (Some i)) ;;
  out <- net_call data i ;;
  sb <- gets spk_rec_trunc ;;
  modify (set_spk_rec_trunc (sb ++ [fst out])) ;;
  mb <- gets mem_rec_trunc ;;
  modify (set_mem_rec_trunc (mb ++ [snd out])) ;;
  st <- gets step_trunc ;;
  modify (set_step_trunc (st + 1)) ;;
  st <- gets step_trunc ;;
  if st =? K then close_window targets else ret tt.

Definition step_loop (data targets : T) (n : Z) : M unit :=
  for_each (range n) (step_body data targets).

(** *** Line 252: [if (step == num_steps - 1) and (num_steps % K):] *)
Definition after_steps (targets : T) : M unit :=
  sv <- gets step ;;
  i <- local "step" sv ;;
  if i =? num_steps - 1 then
    if K =? 0 then raise ZeroDivisionError
    else if num_steps mod K =? 0 then ret tt
    else close_remainder targets
  else ret tt.

(** *** Lines 163-250: the head of a batch and the first [n] iterations of
    its step loop; the loop of the source is [n = num_steps]. *)
Definition batch_steps (batch : T * T) (n : Z) : M unit :=
  modify (effect EvTrain (net_train net)) ;;
  let data := to torch device (fst batch) in
  let targets := to torch device (snd batch) in
  modify (effect EvReset (utils_reset net)) ;;
  step_loop data targets n.

(** *** Lines 163-297: one iteration of [for data, targets in data_iterator] *)
Definition batch_body (batch : T * T) : M unit :=
  batch_steps batch num_steps ;;
  after_steps (to torch device (snd batch)).

Definition batch_loop (batches : list (T * T)) : M unit :=
  for_each batches batch_body.

End Loops.

(** *** The frame on entry: nothing assigned, nothing recorded.
    Lines 149-157 bind the counters and buffers to these same values. *)
Definition entry (w : W) : frame :=
  mkFrame None 0 0 0%Q 0%Q [] [] w [].

(** *** Lines 92-159: everything before the batch loop *)
Definition preamble : M env :=
  (if K >? num_steps then raise ValueError_K else ret tt) ;;
  modify (effect EvReset (utils_reset net)) ;;
  w <- gets world ;;
  let nd := make_neurons_dict w in
  let '(ls, tvt, counter) := criterion_loop in
  (if counter =? 0 then ret tt else raise TypeError_criterion) ;;
  let rs := regularization_loop in
  w <- gets world ;;
  let nr := final_layer_check net w in
  modify (effect (EvNetTo device) (net_to net device)) ;;
  ret (mkEnv nd ls tvt rs nr).

Definition TBPTT_body (dataloader : list (T * T)) : M value :=
  e <- preamble ;;
  modify (effect EvIter (fun w => w)) ;;
  batch_loop e dataloader ;;
  la <- gets loss_avg ;;
  ret (VNum la).

(** The run of TBPTT up to the start of its batch number [b] (from 0): the
    frame it leaves is the one that batch is entered with. *)
Definition batch_start (dataloader : list (T * T)) (b : nat) (w : W)
    : result env * frame :=
  (e <- preamble ;;
   modify (effect EvIter (fun w => w)) ;;
   batch_loop e (firstn b dataloader) ;;
   ret e) (entry w).

Definition TBPTT_K (dataloader : list (T * T)) (w : W) : result value * frame :=
  TBPTT_body dataloader (entry w).

End TBPTT.

(** ** The four entry points, with the argument order of the source *)

Definition TBPTT (torch : Torch) (net : Network) (dataloader : list (T * T))
    (num_steps : Z) (optimizer : Optimizer) (criterion : Criterion)
    (time_var : bool) (regularization : option Regularizer)
    (device : string) (K : Z) (w : W) : result value * frame :=
  TBPTT_K torch net num_steps optimizer criterion time_var regularization
          device K dataloader w.

Definition BPTT (torch : Torch) (net : Network) (dataloader : list (T * T))
    (num_steps : Z) (optimizer : Optimizer) (criterion : Criterion)
    (time_var : bool) (regularization : option Regularizer)
    (device : string) (w : W) : result value * frame :=
  TBPTT torch net dataloader num_steps optimizer criterion time_var
        regularization device num_steps w.

Definition RTRL (torch : Torch) (net : Network) (dataloader : list (T * T))
    (num_steps : Z) (optimizer : Optimizer) (criterion : Criterion)
    (time_var : bool) (regularization : option Regularizer)
    (device : string) (w : W) : result value * frame :=
  TBPTT torch net dataloader num_steps optimizer criterion time_var
        regularization device 1 w.

(** The body of BPTF is its docstring: the call falls off the end. *)
Definition BPTF (torch : Torch) (net : Network) (dataloader : list (T * T))
    (num_steps : Z) (optimizer : Optimizer) (criterion : Criterion)
    (time_var : bool) (regularization : option Regularizer)
    (device : string) (K : Z) (w : W) : result value * frame :=
  ret VNone (entry w).

End Backprop.

Arguments EvReset {T}.
Arguments EvNetTo {T} device.
Arguments EvIter {T}.
Arguments EvTrain {T}.
Arguments EvForward {T} x.
Arguments EvCriterion {T} signal target.
Arguments EvRegularization {T} signal.
Arguments EvZeroGrad {T}.
Arguments EvBackward {T} loss.
Arguments EvOptStep {T}.
Arguments EvDetach {T} c.
Arguments stack {T W}.
Arguments index {T W}.
Arguments slice {T W}.
Arguments to {T W}.
Arguments backward {T W}.
Arguments net_forward {T W}.
Arguments net_to {T W}.
Arguments net_train {T W}.
Arguments utils_reset {T W}.
Arguments utils_is {T W}.
Arguments final_layer_check {T W}.
Arguments detach_hidden {T W}.
Arguments zero_grad {W}.
Arguments opt_step {W}.
Arguments crit_name {T}.
Arguments crit_time_var_targets {T}.
Arguments crit_call {T}.
Arguments reg_name {T}.
Arguments reg_call {T}.
Arguments mkFrame {T W}.
Arguments step {T W}.
Arguments step_trunc {T W}.
Arguments K_count {T W}.
Arguments loss_trunc {T W}.
Arguments loss_avg {T W}.
Arguments mem_rec_trunc {T W}.
Arguments spk_rec_trunc {T W}.
Arguments world {T W}.
Arguments trace {T W}.
Arguments effect {T W}.
Arguments entry {T W}.
Arguments ret {T W A}.
Arguments raise {T W A}.
Arguments bind {T W A B}.
Arguments gets {T W A}.
Arguments modify {T W}.
Arguments local {T W A}.
Arguments for_each {T W A}.
Arguments make_neurons_dict {T W}.
Arguments criterion_loop_body {T}.
Arguments criterion_loop {T}.
Arguments regularization_loop {T}.
Arguments forward {T W}.
Arguments net_call {T W}.
Arguments torch_stack {T W}.
Arguments call_criterion {T W}.
Arguments call_regularization {T W}.
Arguments window_loss {T W}.
Arguments detach_all {T W}.
Arguments update {T W}.
Arguments close_window {T W}.
Arguments close_remainder {T W}.
Arguments step_body {T W}.
Arguments step_loop {T W}.
Arguments after_steps {T W}.
Arguments batch_steps {T W}.
Arguments batch_body {T W}.
Arguments batch_loop {T W}.
Arguments preamble {T W}.
Arguments TBPTT_body {T W}.
Arguments batch_start {T W}.
Arguments TBPTT_K {T W}.
Arguments TBPTT {T W}.
Arguments BPTT {T W}.
Arguments RTRL {T W}.
Arguments BPTF {T W}.

(** ** What is read off a trace *)

(** The number of calls of [optimizer.step()]. *)
Definition optimizer_steps {T : Type} (evs : list (event T)) : Z :=
  Z.of_nat (List.length
    (filter (fun ev => match ev with EvOptStep => true | _ => false end) evs)).

(** The number of forward passes. *)
Definition forward_passes {T : Type} (evs : list (event T)) : Z :=
  Z.of_nat (List.length
    (filter (fun ev => match ev with EvForward _ => true | _ => false end) evs)).

(** The second argument of each criterion call, in call order. *)
Definition criterion_targets {T : Type} (evs : list (event T)) : list T :=
  flat_map (fun ev => match ev with EvCriterion _ t => [t] | _ => [] end) evs.

(** The value of each criterion call, in call order. *)
Definition criterion_values {T : Type} (criterion : Criterion T)
    (evs : list (event T)) : list Q :=
  flat_map (fun ev => match ev with
                      | EvCriterion s t => [crit_call criterion s t]
                      | _ => []
                      end) evs.

(** The value of each regularizer call, in call order. *)
Definition penalty_values {T : Type} (regularization : option (Regularizer T))
    (evs : list (event T)) : list Q :=
  flat_map (fun ev => match ev, regularization with
                      | EvRegularization s, Some reg => [reg_call reg s]
                      | _, _ => []
                      end) evs.

(** The loss each backward pass starts from, in call order. *)
Definition backward_losses {T : Type} (evs : list (event T)) : list Q :=
  flat_map (fun ev => match ev with EvBackward l => [l] | _ => [] end) evs.

Definition Qsum (l : list Q) : Q := fold_right Qplus 0%Q l.

(** ** The schedule in the words of the specification *)

(** ceil(a / b), for b > 0 *)
Definition ceil_div (a b : Z) : Z := (a + b - 1) / b.

(** The windows of a batch, in order: num_steps / K full windows of K steps,
    then the remainder window of num_steps mod K steps if that is not 0. *)
Definition windows_per_batch (num_steps K : Z) : Z :=
  num_steps / K + (if num_steps mod K =? 0 then 0 else 1).

Definition window_length (num_steps K : Z) (j : nat) : Z :=
  if Z.of_nat j <? num_steps / K then K else num_steps mod K.

(** The weight of the window number [i] of the epoch (from 0, counted
    through the batches): 1/(num_steps/K) for a full window and
    1/(num_steps mod K) for a remainder window. *)
Definition window_weight (num_steps K : Z) (i : nat) : Q :=
  if Z.of_nat i mod windows_per_batch num_steps K <? num_steps / K
  then (1 / (inject_Z num_steps / inject_Z K))%Q
  else (1 / inject_Z (num_steps mod K))%Q.

Fixpoint weighted_sum (num_steps K : Z) (i : nat) (ls : list Q) : Q :=
  match ls with
  | [] => 0%Q
  | l :: r => (l * window_weight num_steps K i + weighted_sum num_steps K (S i) r)%Q
  end.

(** The inputs on which the scheduler is meant to run: a criterion of
    [criterion_dict], no regularizer or the one of [reg_dict], and a network
    whose forward pass returns as many outputs (2, 3 or 4) as
    [_final_layer_check] announces. *)
Definition well_formed {T W : Type} (net : Network T W) (criterion : Criterion T)
    (regularization : option (Regularizer T)) : Prop :=
  In (crit_name criterion) (map fst criterion_dict) /\
  (forall reg, regularization = Some reg -> In (reg_name reg) (map fst reg_dict)) /\
  (forall w, 2 <= final_layer_check net w <= 4) /\
  (forall w w' x, List.length (fst (net_forward net w' x)) =
                  Z.to_nat (final_layer_check net w)).

(** ** The frames of a run that raises nothing

    Closed forms of the frame each block of the scheduler leaves when none of
    its exceptions is raised.  The theorems relate them to the monadic code
    above; no statement about the scheduler is made on them alone. *)

Section Denotation.

Context {T W : Type}.
Variable torch : Torch T W.
Variable net : Network T W.
Variable num_steps : Z.
Variable optimizer : Optimizer W.
Variable criterion : Criterion T.
Variable time_var : bool.
Variable regularization : option (Regularizer T).
Variable K : Z.
Variable e : env.

(** The environment lets every window close. *)
Definition good_env : Prop :=
  (exists b, loss_spk e = Some b) /\
  (forall reg, regularization = Some reg -> exists b, reg_spk e = Some b) /\
  2 <= num_return e <= 4 /\
  (forall w x, List.length (fst (net_forward net w x)) = Z.to_nat (num_return e)).

Definition signal_of (flag : option bool) (spk mem : T) : T :=
  match flag with
  | Some true => spk
  | _ => mem
  end.

Definition window_target (targets : T) (hi : Z) (s : frame T W) : T :=
  if time_var_targets e then slice torch targets (K_count s * K) hi else targets.

Definition criterion_signal (s : frame T W) : T :=
  signal_of (loss_spk e) (stack torch (spk_rec_trunc s)) (stack torch (mem_rec_trunc s)).

Definition regularization_signal (s : frame T W) : T :=
  signal_of (reg_spk e) (stack torch (spk_rec_trunc s)) (stack torch (mem_rec_trunc s)).

Definition window_value (targets : T) (hi : Z) (s : frame T W) : Q :=
  let c := crit_call criterion (criterion_signal s) (window_target targets hi s) in
  match regularization with
  | Some reg => (c + reg_call reg (regularization_signal s))%Q
  | None => c
  end.

Definition window_events (targets : T) (hi : Z) (s : frame T W) : list (event T) :=
  EvCriterion (criterion_signal s) (window_target targets hi s) ::
  match regularization with
  | Some reg => [EvRegularization (regularization_signal s)]
  | None => []
  end.

Definition update_events (lt : Q) : list (event T) :=
  [EvZeroGrad; EvBackward lt; EvOptStep].

Definition update_world (lt : Q) (w : W) : W :=
  opt_step optimizer (backward torch lt (zero_grad optimizer w)).

Definition detach_events : list (event T) :=
  flat_map (fun item : bool * neuron_class =>
              if fst item then [EvDetach (snd item)] else [])
           (neurons_dict e).

Definition detach_world (w : W) : W :=
  fold_left (fun w (item : bool * neuron_class) =>
               if fst item then detach_hidden net (snd item) w else w)
            (neurons_dict e) w.

Definition closed_window (targets : T) (s : frame T W) : frame T W :=
  let hi := (K_count s + 1) * K in
  let loss := window_value targets hi s in
  let lt := (loss_trunc s + loss)%Q in
  mkFrame (step s) 0 (K_count s + 1) 0%Q
          (loss_avg s + loss / (inject_Z num_steps / inject_Z K))%Q [] []
          (detach_world (update_world lt (world s)))
          (trace s ++ window_events targets hi s ++ update_events lt ++ detach_events).

Definition closed_remainder (targets : T) (s : frame T W) : frame T W :=
  let hi := K_count s * K + num_steps mod K in
  let loss := window_value targets hi s in
  let lt := (loss_trunc s + loss)%Q in
  mkFrame (step s) 0 0 0%Q
          (loss_avg s + loss / inject_Z (num_steps mod K))%Q [] []
          (detach_world (update_world lt (world s)))
          (trace s ++ window_events targets hi s ++ update_events lt ++ detach_events).

(** The step before its window test: forward pass, both appends, counter. *)
Definition stepped (data : T) (i : Z) (s : frame T W) : frame T W :=
  let x := if time_var then index torch data i else data in
  match net_forward net (world s) x with
  | (spk :: r, w') =>
      mkFrame (Some i) (step_trunc s + 1) (K_count s) (loss_trunc s) (loss_avg s)
              (mem_rec_trunc s ++ [last r spk]) (spk_rec_trunc s ++ [spk])
              w' (trace s ++ [EvForward x])
  | ([], _) => s
  end.

Definition step_pure (data targets : T) (s : frame T W) (i : Z) : frame T W :=
  let s1 := stepped data i s in
  if step_trunc s1 =? K then closed_window targets s1 else s1.

Definition steps_pure (data targets : T) (n : Z) (s : frame T W) : frame T W :=
  fold_left (step_pure data targets) (range n) s.

(** The target handed to the criterion by the window number [j] (from 0)
    of a batch that is entered with [K_count = kc0]; [len] is the length of
    the window. *)
Definition nth_target (targets : T) (kc0 : Z) (len : Z) (j : nat) : T :=
  if time_var_targets e
  then slice torch targets ((kc0 + Z.of_nat j) * K) ((kc0 + Z.of_nat j) * K + len)
  else targets.

(** What the frame [s] reached [m] steps after the batch head [s0] has to
    satisfy; [evs] are the events recorded since [s0]. *)
Definition steps_inv (targets : T) (s0 : frame T W) (m : Z) (s : frame T W) : Prop :=
  step_trunc s = m mod K /\
  Z.of_nat (List.length (spk_rec_trunc s)) = m mod K /\
  Z.of_nat (List.length (mem_rec_trunc s)) = m mod K /\
  K_count s = K_count s0 + m / K /\
  loss_trunc s = 0%Q /\
  (0 < m -> step s = Some (m - 1)) /\
  exists evs,
    trace s = trace s0 ++ evs /\
    optimizer_steps evs = m / K /\
    forward_passes evs = m /\
    criterion_targets evs =
      map (nth_target targets (K_count s0) K) (seq 0 (Z.to_nat (m / K))) /\
    Z.of_nat (List.length (backward_losses evs)) = m / K /\
    Z.of_nat (List.length (criterion_values criterion evs)) = m / K /\
    Z.of_nat (List.length (penalty_values regularization evs)) =
      match regularization with Some _ => m / K | None => 0 end /\
    (Qsum (backward_losses evs) ==
     Qsum (criterion_values criterion evs) + Qsum (penalty_values regularization evs))%Q /\
    (loss_avg s ==
     loss_avg s0 + Qsum (backward_losses evs) * (1 / (inject_Z num_steps / inject_Z K)))%Q.

(** Lines 163-167: the head of a batch. *)
Definition batch_head (s : frame T W) : frame T W :=
  effect EvReset (utils_reset net) (effect EvTrain (net_train net) s).

Definition batch_pure (device : string) (batch : T * T) (s : frame T W) : frame T W :=
  let data := to torch device (fst batch) in
  let targets := to torch device (snd batch) in
  let s1 := steps_pure data targets num_steps (batch_head s) in
  if num_steps mod K =? 0 then s1 else closed_remainder targets s1.

(** The frame between two batches. *)
Definition between_batches (s : frame T W) : Prop :=
  step_trunc s = 0 /\ spk_rec_trunc s = [] /\ mem_rec_trunc s = [] /\
  loss_trunc s = 0%Q.

(** What the frame [s'] left by a batch entered with [s] has to satisfy;
    [targets] are the targets of the batch on the device. *)
Definition batch_inv (targets : T) (s s' : frame T W) : Prop :=
  between_batches s' /\
  K_count s' = (if num_steps mod K =? 0 then K_count s + num_steps / K else 0) /\
  exists evs,
    trace s' = trace s ++ evs /\
    optimizer_steps evs = windows_per_batch num_steps K /\
    forward_passes evs = num_steps /\
    criterion_targets evs =
      map (fun j => nth_target targets (K_count s) (window_length num_steps K j) j)
          (seq 0 (Z.to_nat (windows_per_batch num_steps K))) /\
    Z.of_nat (List.length (backward_losses evs)) = windows_per_batch num_steps K /\
    Z.of_nat (List.length (criterion_values criterion evs)) =
      windows_per_batch num_steps K /\
    Z.of_nat (List.length (penalty_values regularization evs)) =
      match regularization with
      | Some _ => windows_per_batch num_steps K
      | None => 0
      end /\
    forall i0 : nat,
      Z.of_nat i0 mod windows_per_batch num_steps K = 0 ->
      (weighted_sum num_steps K i0 (backward_losses evs) ==
       weighted_sum num_steps K i0 (criterion_values criterion evs) +
       weighted_sum num_steps K i0 (penalty_values regularization evs))%Q /\
      (loss_avg s' ==
       loss_avg s + weighted_sum num_steps K i0 (backward_losses evs))%Q.

End Denotation.

(** ** The run between its batches *)

Section Run.

Context {T W : Type}.
Variable torch : Torch T W.
Variable net : Network T W.
Variable num_steps : Z.
Variable optimizer : Optimizer W.
Variable criterion : Criterion T.
Variable time_var : bool.
Variable regularization : option (Regularizer T).
Variable device : string.
Variable K : Z.

(** The environment bound by lines 99-147 when the call starts in [w]. *)
Definition the_env (w : W) : env :=
  let w1 := utils_reset net w in
  mkEnv (make_neurons_dict net w1)
        (fst (fst (criterion_loop criterion)))
        (snd (fst (criterion_loop criterion)))
        (regularization_loop regularization)
        (final_layer_check net w1).

(** The frame in which the batch loop is entered. *)
Definition started (w : W) : frame T W :=
  effect EvIter (fun w => w)
    (effect (EvNetTo device) (net_to net device)
       (effect EvReset (utils_reset net) (entry w))).

Definition batches_pure (e : env) (batches : list (T * T)) (s : frame T W) : frame T W :=
  fold_left (fun s batch =>
               batch_pure torch net num_steps optimizer criterion time_var
                          regularization K e device batch s)
            batches s.

(** What the frame reached after [b] batches has to satisfy. *)
Definition run_inv (b : Z) (s : frame T W) : Prop :=
  between_batches s /\
  K_count s = (if num_steps mod K =? 0 then b * (num_steps / K) else 0) /\
  optimizer_steps (trace s) = b * windows_per_batch num_steps K /\
  forward_passes (trace s) = b * num_steps /\
  Z.of_nat (List.length (backward_losses (trace s))) = b * windows_per_batch num_steps K /\
  Z.of_nat (List.length (criterion_values criterion (trace s))) =
    b * windows_per_batch num_steps K /\
  Z.of_nat (List.length (penalty_values regularization (trace s))) =
    match regularization with
    | Some _ => b * windows_per_batch num_steps K
    | None => 0
    end /\
  (weighted_sum num_steps K 0 (backward_losses (trace s)) ==
   weighted_sum num_steps K 0 (criterion_values criterion (trace s)) +
   weighted_sum num_steps K 0 (penalty_values regularization (trace s)))%Q /\
  (loss_avg s == weighted_sum num_steps K 0 (backward_losses (trace s)))%Q.

End Run.

(** ** Which exceptions the loops can raise *)

(** The exceptions of the batch loop: those of lines 161-297. *)
Definition loop_exn (e : exn) : Prop :=
  match e with
  | UnboundLocalError _ | ZeroDivisionError | ValueError_unpack | RuntimeError_stack => True
  | ValueError_K | TypeError_criterion | NotImplementedError => False
  end.

Definition raises_only {T W A : Type} (P : exn -> Prop) (m : M T W A) : Prop :=
  forall s e s', m s = (Raise e, s') -> P e.

(** Both buffers empty and the step counter back at 0. *)
Definition window_reset {T W : Type} (s : frame T W) : Prop :=
  spk_rec_trunc s = [] /\ mem_rec_trunc s = [] /\ step_trunc s = 0.

Definition ensures {T W A : Type} (Q : frame T W -> Prop) (m : M T W A) : Prop :=
  forall s a s', m s = (Ok a, s') -> Q s'.

(** ** A concrete instance: one leaky neuron on one-dimensional tensors *)

Module Leaky1.

Definition tensor : Type := list Z.

(** Python's [x[lo:hi]] on a list. *)
Definition clamp (len i : Z) : Z :=
  if i <? 0 then Z.max (i + len) 0 else Z.min i len.
Definition py_slice (x : tensor) (lo hi : Z) : tensor :=
  let len := Z.of_nat (List.length x) in
  let lo' := clamp len lo in
  let hi' := clamp len hi in
  firstn (Z.to_nat (hi' - lo')) (skipn (Z.to_nat lo') x).

Definition torch : Torch tensor Z := {|
  stack := @List.concat Z;
  index := fun x i => match nth_error x (Z.to_nat i) with
                      | Some v => [v]
                      | None => []
                      end;
  slice := py_slice;
  to := fun _ x => x;
  backward := fun _ w => w
|}.

(** The world is the membrane potential; a spike is emitted from 2 on. *)
Definition net : Network tensor Z := {|
  net_forward := fun w x =>
    let m := w + fold_right Z.add 0 x in
    ([[if 2 <=? m then 1 else 0]; [m]], m);
  net_to := fun _ w => w;
  net_train := fun w => w;
  utils_reset := fun _ => 0;
  utils_is := fun _ c => match c with Leaky => true | _ => false end;
  final_layer_check := fun _ => 2;
  detach_hidden := fun _ w => w
|}.

Definition sgd : Optimizer Z := {|
  zero_grad := fun w => w;
  opt_step := fun w => w
|}.

(** A criterion of the given name whose value is always [L]. *)
Definition const_loss (name : string) (tv : bool) (L : Q) : Criterion tensor := {|
  crit_name := name;
  crit_time_var_targets := tv;
  crit_call := fun _ _ => L
|}.

Definition const_reg (name : string) (P : Q) : Regularizer tensor := {|
  reg_name := name;
  reg_call := fun _ => P
|}.

Definition ten : tensor := [0; 1; 2; 3; 4; 5; 6; 7; 8; 9].

(** One batch of ten time steps: input 1 at every step, targets 0..9. *)
Definition batch : tensor * tensor := ([1; 1; 1; 1; 1; 1; 1; 1; 1; 1], ten).

(** Two time steps. *)
Definition short_batch : tensor * tensor := ([1; 1], [0; 1]).

Definition rate : Criterion tensor := const_loss "ce_rate_loss" false (1 # 2).
Definition membrane : Criterion tensor := const_loss "mse_membrane_loss" true (1 # 2).
Definition unknown_loss : Criterion tensor := const_loss "unknown_loss" false (1 # 2).
Definition unknown_reg : Regularizer tensor := const_reg "unknown_reg" 1.

End Leaky1.

(** ** [_rec_trunc] (lines 578-601)

    The helper appends to the two lists it is handed.  The lists are mutated
    in place, so they are the state of the call; an argument left at its
    default [False] has no [append], and the call stops with an
    AttributeError at the first append to it, keeping what was appended
    before. *)

Section RecTrunc.

Variable T : Type.

(** A buffer argument: a list, or the default [False]. *)
Definition buffer : Type := option (list T).

Record buffers : Type := mkBuffers {
  spk_buffer : buffer;                 (* spk_rec_trunc *)
  mem_buffer : buffer                  (* mem_rec_trunc *)
}.

Inductive outcome : Type :=
| ReturnsNone
| AttributeError.         (* 'bool' object has no attribute 'append' *)

Definition R : Type := buffers -> outcome * buffers.

Definition pass : R := fun b => (ReturnsNone, b).

Definition and_then (m k : R) : R :=
  fun b => match m b with
           | (ReturnsNone, b') => k b'
           | (AttributeError, b') => (AttributeError, b')
           end.

(** [spk_rec_trunc.append(spk)] *)
Definition spk_append (spk : T) : R :=
  fun b => match spk_buffer b with
           | Some l => (ReturnsNone, mkBuffers (Some (l ++ [spk])) (mem_buffer b))
           | None => (AttributeError, b)
           end.

(** [mem_rec_trunc.append(mem)] *)
Definition mem_append (mem : T) : R :=
  fun b => match mem_buffer b with
           | Some l => (ReturnsNone, mkBuffers (spk_buffer b) (Some (l ++ [mem])))
           | None => (AttributeError, b)
           end.

Definition _rec_trunc (spk mem : T) (regularization : option (Regularizer T))
    (loss_spk reg_spk : bool) : R :=
  match regularization with
  | Some _ =>
      and_then (if loss_spk && reg_spk then spk_append spk else pass)
               (if negb (Bool.eqb loss_spk reg_spk)
                then and_then (spk_append spk) (mem_append mem)
                else mem_append mem)
  | None =>
      if loss_spk then spk_append spk else mem_append mem
  end.

(** Which outputs a call of [_rec_trunc] is to record. *)
Definition records_spk (regularization : option (Regularizer T))
    (loss_spk reg_spk : bool) : bool :=
  match regularization with
  | Some _ => loss_spk || reg_spk
  | None => loss_spk
  end.

Definition records_mem (regularization : option (Regularizer T)) (loss_spk : bool) : bool :=
  match regularization with
  | Some _ => true
  | None => negb loss_spk
  end.

End RecTrunc.

Arguments mkBuffers {T}.
Arguments spk_buffer {T}.
Arguments mem_buffer {T}.
Arguments pass {T}.
Arguments and_then {T}.
Arguments spk_append {T}.
Arguments mem_append {T}.
Arguments _rec_trunc {T}.
Arguments records_spk {T}.
Arguments records_mem {T}.

(** ** More that is read off a trace *)

(** The input of each forward pass, in call order. *)
Definition forward_inputs {T : Type} (evs : list (event T)) : list T :=
  flat_map (fun ev => match ev with EvForward x => [x] | _ => [] end) evs.

(** The resets of the hidden state and the forward passes, in call order. *)
Definition resets_and_forwards {T : Type} (evs : list (event T)) : list (event T) :=
  flat_map (fun ev => match ev with
                      | EvReset => [ev]
                      | EvForward _ => [ev]
                      | _ => []
                      end) evs.

(** The optimizer is only ever driven by the triple
    [zero_grad(); backward(); step()], the three calls next to each other. *)
Fixpoint updates_bracketed {T : Type} (evs : list (event T)) : bool :=
  match evs with
  | [] => true
  | EvZeroGrad :: EvBackward _ :: EvOptStep :: r => updates_bracketed r
  | EvZeroGrad :: _ => false
  | EvBackward _ :: _ => false
  | EvOptStep :: _ => false
  | _ :: r => updates_bracketed r
  end.

(** An observer that is blind to what a window close records. *)
Definition blind_to_close {T X : Type} (f : event T -> list X) : Prop :=
  (forall s t, f (EvCriterion s t) = []) /\
  (forall s, f (EvRegularization s) = []) /\
  f EvZeroGrad = [] /\
  (forall l, f (EvBackward l) = []) /\
  f EvOptStep = [] /\
  (forall c, f (EvDetach c) = []).

(** The loss of each window, in order: the criterion value, plus the penalty
    when a regularizer is configured. *)
Definition window_losses {T : Type} (criterion : Criterion T)
    (regularization : option (Regularizer T)) (evs : list (event T)) : list Q :=
  match regularization with
  | Some _ => map (fun p => (fst p + snd p)%Q)
                  (combine (criterion_values criterion evs)
                           (penalty_values regularization evs))
  | None => criterion_values criterion evs
  end.

(** Every backward pass starts from the loss of one window, and the
    regularizer is called as often as the criterion. *)
Definition one_window_each {T : Type} (criterion : Criterion T)
    (regularization : option (Regularizer T)) (evs : list (event T)) : Prop :=
  List.length (penalty_values regularization evs) =
    match regularization with
    | Some _ => List.length (criterion_values criterion evs)
    | None => 0%nat
    end /\
  Forall2 Qeq (backward_losses evs) (window_losses criterion regularization evs).

(** The criteria of [criterion_dict] that are handed the spikes. *)
Definition spike_loss (name : string) : bool :=
  existsb (String.eqb name) ["ce_rate_loss"; "ce_count_loss"; "mse_count_loss"]%string.

(** ** The flags of [neurons_dict] *)

(** The last class, in the order of the dict literal, whose flag is set. *)
Definition last_flagged (flag : neuron_class -> bool) : option neuron_class :=
  fold_left (fun acc c => if flag c then Some c else acc)
            [Lapicque; Leaky; Synaptic; Alpha; Stein] None.

(** ** Runs outside 1 <= K <= num_steps, and runs that stop *)

Section Open.

Context {T W : Type}.
Variable torch : Torch T W.
Variable net : Network T W.
Variable time_var : bool.

(** The network returns as many outputs (2, 3 or 4) as
    [_final_layer_check] announces. *)
Definition network_ok : Prop :=
  (forall w, 2 <= final_layer_check net w <= 4) /\
  (forall w w' x, List.length (fst (net_forward net w' x)) =
                  Z.to_nat (final_layer_check net w)).

(** The input of time step [i]. *)
Definition step_input (data : T) (i : Z) : T :=
  if time_var then index torch data i else data.

(** [n] steps none of which closes a window. *)
Definition open_steps (data : T) (n : Z) (s : frame T W) : frame T W :=
  fold_left (fun s i => stepped torch net time_var data i s) (range n) s.

End Open.

(** What a block of the scheduler keeps, whether it returns or raises. *)
Definition keeps {T W A : Type} (P : frame T W -> Prop) (m : M T W A) : Prop :=
  forall s r s', m s = (r, s') -> P s -> P s'.

(** ** More instances *)

Module Cases.

(** A network whose final layer is announced to return one value. *)
Definition single_output : Network Leaky1.tensor Z := {|
  net_forward := fun w x => ([[w]], w);
  net_to := fun _ w => w;
  net_train := fun w => w;
  utils_reset := fun _ => 0;
  utils_is := fun _ c => match c with Leaky => true | _ => false end;
  final_layer_check := fun _ => 1;
  detach_hidden := fun _ w => w
|}.

(** One batch of four time steps: input 1 at every step, targets 0..3. *)
Definition four_steps : Leaky1.tensor * Leaky1.tensor := ([1; 1; 1; 1], [0; 1; 2; 3]).

End Cases.

(** * Lemmas *)

Lemma for_each_app {T W A : Type} (xs ys : list A) (body : A -> M T W unit) (s : frame T W) :
  for_each (xs ++ ys) body s = bind (for_each xs body) (fun _ => for_each ys body) s.
Proof.
  revert s. induction xs as [|x xs IH]; intros s; simpl.
  - reflexivity.
  - unfold bind in *. destruct (body x s) as [[[]|e] s1]; [|reflexivity].
    apply IH.
Qed.

Lemma range_succ (n : Z) : 0 <= n -> range (n + 1) = range n ++ [n].
Proof.
  intros Hn. unfold range.
  replace (Z.to_nat (n + 1)) with (S (Z.to_nat n)) by lia.
  rewrite seq_S, map_app. simpl. rewrite Z2Nat.id by lia. reflexivity.
Qed.

(** ** Reading a trace piece by piece *)

Lemma optimizer_steps_app {T : Type} (a b : list (event T)) :
  optimizer_steps (a ++ b) = optimizer_steps a + optimizer_steps b.
Proof. unfold optimizer_steps. rewrite filter_app, length_app. lia. Qed.

Lemma forward_passes_app {T : Type} (a b : list (event T)) :
  forward_passes (a ++ b) = forward_passes a + forward_passes b.
Proof. unfold forward_passes. rewrite filter_app, length_app. lia. Qed.

Lemma criterion_targets_app {T : Type} (a b : list (event T)) :
  criterion_targets (a ++ b) = criterion_targets a ++ criterion_targets b.
Proof. apply flat_map_app. Qed.

Lemma criterion_values_app {T : Type} (c : Criterion T) (a b : list (event T)) :
  criterion_values c (a ++ b) = criterion_values c a ++ criterion_values c b.
Proof. apply flat_map_app. Qed.

Lemma penalty_values_app {T : Type} (r : option (Regularizer T)) (a b : list (event T)) :
  penalty_values r (a ++ b) = penalty_values r a ++ penalty_values r b.
Proof. apply flat_map_app. Qed.

Lemma backward_losses_app {T : Type} (a b : list (event T)) :
  backward_losses (a ++ b) = backward_losses a ++ backward_losses b.
Proof. apply flat_map_app. Qed.

Lemma Qsum_app (a b : list Q) : (Qsum (a ++ b) == Qsum a + Qsum b)%Q.
Proof.
  induction a as [|x a IH]; simpl.
  - ring.
  - rewrite IH. ring.
Qed.

(** ** Counting steps in windows of [K] *)

Lemma window_boundary (K n : Z) :
  1 <= K -> 0 <= n -> n mod K + 1 = K ->
  (n + 1) mod K = 0 /\ (n + 1) / K = n / K + 1.
Proof.
  intros HK Hn Hb.
  assert (E : n + 1 = K * (n / K + 1) + 0).
  { pose proof (Z.div_mod n K ltac:(lia)). lia. }
  split.
  - symmetry. apply (Z.mod_unique _ _ (n / K + 1)); [lia | exact E].
  - symmetry. apply (Z.div_unique _ _ _ 0); [lia | exact E].
Qed.

Lemma window_inside (K n : Z) :
  1 <= K -> 0 <= n -> n mod K + 1 <> K ->
  (n + 1) mod K = n mod K + 1 /\ (n + 1) / K = n / K.
Proof.
  intros HK Hn Hb.
  pose proof (Z.mod_pos_bound n K ltac:(lia)) as Hm.
  assert (E : n + 1 = K * (n / K) + (n mod K + 1)).
  { pose proof (Z.div_mod n K ltac:(lia)). lia. }
  split.
  - symmetry. apply (Z.mod_unique _ _ (n / K)); [lia | exact E].
  - symmetry. apply (Z.div_unique _ _ _ (n mod K + 1)); [lia | exact E].
Qed.

Lemma ceil_div_windows (num_steps K : Z) :
  1 <= K -> ceil_div num_steps K = windows_per_batch num_steps K.
Proof.
  intros HK. unfold ceil_div, windows_per_batch.
  pose proof (Z.div_mod num_steps K ltac:(lia)) as E.
  pose proof (Z.mod_pos_bound num_steps K ltac:(lia)) as Hm.
  destruct (num_steps mod K =? 0) eqn:Ez.
  - apply Z.eqb_eq in Ez. symmetry.
    apply (Z.div_unique _ _ _ (K - 1)); lia.
  - apply Z.eqb_neq in Ez. symmetry.
    apply (Z.div_unique _ _ _ (num_steps mod K - 1)); lia.
Qed.

(** ** Weighted sums over the windows of an epoch *)

Lemma weighted_sum_app (N K : Z) (a b : list Q) (i : nat) :
  (weighted_sum N K i (a ++ b) ==
   weighted_sum N K i a + weighted_sum N K (i + List.length a) b)%Q.
Proof.
  revert i. induction a as [|x a IH]; intros i; cbn [app weighted_sum List.length].
  - rewrite Nat.add_0_r. unfold Qdiv; ring.
  - rewrite IH. rewrite Nat.add_succ_r. cbn [Nat.add]. unfold Qdiv; ring.
Qed.

Lemma weighted_sum_full (N K : Z) (l : list Q) (i : nat) :
  1 <= K -> 0 <= N ->
  Z.of_nat i mod windows_per_batch N K + Z.of_nat (List.length l) <= N / K ->
  (weighted_sum N K i l == Qsum l * (1 / (inject_Z N / inject_Z K)))%Q.
Proof.
  intros HK HN. revert i. induction l as [|x l IH]; intros i Hi.
  - cbn [weighted_sum Qsum fold_right]. unfold Qdiv; ring.
  - cbn [weighted_sum Qsum fold_right List.length] in *.
    assert (Hq : 0 <= N / K) by (apply Z.div_pos; lia).
    assert (Hc : N / K <= windows_per_batch N K).
    { unfold windows_per_batch. destruct (N mod K =? 0); lia. }
    assert (Hc1 : 1 <= windows_per_batch N K).
    { pose proof (Z.mod_pos_bound (Z.of_nat i) (windows_per_batch N K)).
      destruct (Z.eq_dec (windows_per_batch N K) 0) as [E0|]; [|lia].
      rewrite E0 in Hi. rewrite Z.mod_0_r in Hi. lia. }
    pose proof (Z.mod_pos_bound (Z.of_nat i) (windows_per_batch N K) ltac:(lia)) as Hm.
    assert (Ew : window_weight N K i = (1 / (inject_Z N / inject_Z K))%Q).
    { unfold window_weight.
      destruct (Z.of_nat i mod windows_per_batch N K <? N / K) eqn:E; [reflexivity|].
      apply Z.ltb_ge in E. lia. }
    rewrite Ew.
    destruct l as [|y l].
    + cbn [weighted_sum Qsum fold_right]. unfold Qdiv; ring.
    + rewrite IH; [unfold Qsum, Qdiv; cbn [fold_right]; ring|].
      cbn [List.length] in *.
      destruct (window_inside (windows_per_batch N K) (Z.of_nat i) Hc1 ltac:(lia) ltac:(lia))
        as (E1 & _).
      replace (Z.of_nat (S i)) with (Z.of_nat i + 1) by lia. rewrite E1. lia.
Qed.

Lemma weighted_sum_rem (N K : Z) (x : Q) (i : nat) :
  Z.of_nat i mod windows_per_batch N K = N / K ->
  (weighted_sum N K i [x] == x * (1 / inject_Z (N mod K)))%Q.
Proof.
  intros Hi. cbn [weighted_sum]. unfold window_weight. rewrite Hi, Z.ltb_irrefl. unfold Qdiv; ring.
Qed.

Lemma weighted_sum_batch (N K : Z) (lf lr : list Q) (i0 : nat) :
  1 <= K <= N ->
  Z.of_nat i0 mod windows_per_batch N K = 0 ->
  (lf = [] /\ lr = []) \/
  (Z.of_nat (List.length lf) = N / K /\
   ((N mod K = 0 /\ lr = []) \/ (N mod K <> 0 /\ exists x, lr = [x]))) ->
  (weighted_sum N K i0 (lf ++ lr) ==
   Qsum lf * (1 / (inject_Z N / inject_Z K)) + Qsum lr * (1 / inject_Z (N mod K)))%Q.
Proof.
  intros HK Hi0 [[-> ->] | [Hlf Hlr]].
  - cbn [app weighted_sum Qsum fold_right]. unfold Qdiv; ring.
  - rewrite weighted_sum_app, (weighted_sum_full N K lf i0) by lia.
    destruct Hlr as [[Hr ->] | [Hr [x ->]]].
    + cbn [weighted_sum Qsum fold_right]. unfold Qdiv; ring.
    + rewrite weighted_sum_rem.
      * cbn [Qsum fold_right]. unfold Qdiv; ring.
      * assert (Hq : 0 <= N / K) by (apply Z.div_pos; lia).
        assert (Ec : windows_per_batch N K = N / K + 1).
        { unfold windows_per_batch. apply Z.eqb_neq in Hr. rewrite Hr. reflexivity. }
        rewrite Ec in *. rewrite Nat2Z.inj_add, Hlf.
        pose proof (Z.div_mod (Z.of_nat i0) (N / K + 1) ltac:(lia)) as E.
        rewrite Hi0 in E.
        symmetry. apply (Z.mod_unique _ _ (Z.of_nat i0 / (N / K + 1))); lia.
Qed.

(** ** Which exceptions can be raised *)

Lemma raises_only_ret {T W A : Type} (P : exn -> Prop) (a : A) :
  raises_only P (@ret T W A a).
Proof. intros s e s' H. discriminate H. Qed.

Lemma raises_only_gets {T W A : Type} (P : exn -> Prop) (f : frame T W -> A) :
  raises_only P (gets f).
Proof. intros s e s' H. discriminate H. Qed.

Lemma raises_only_modify {T W : Type} (P : exn -> Prop) (f : frame T W -> frame T W) :
  raises_only P (modify f).
Proof. intros s e s' H. discriminate H. Qed.

Lemma raises_only_raise {T W A : Type} (P : exn -> Prop) (x : exn) :
  P x -> raises_only P (@raise T W A x).
Proof. intros Hx s e s' H. injection H as <- _. exact Hx. Qed.

Lemma raises_only_bind {T W A B : Type} (P : exn -> Prop) (m : M T W A) (k : A -> M T W B) :
  raises_only P m -> (forall a, raises_only P (k a)) -> raises_only P (bind m k).
Proof.
  intros Hm Hk s e s' H. unfold bind in H.
  destruct (m s) as [[a|x] s1] eqn:E.
  - exact (Hk a s1 e s' H).
  - injection H as <- <-. exact (Hm s x s1 E).
Qed.

Lemma raises_only_for_each {T W A : Type} (P : exn -> Prop) (xs : list A)
    (body : A -> M T W unit) :
  (forall x, raises_only P (body x)) -> raises_only P (for_each xs body).
Proof.
  intros Hb. induction xs as [|x xs IH]; cbn [for_each].
  - apply raises_only_ret.
  - apply raises_only_bind; [apply Hb | intros _; exact IH].
Qed.

Lemma raises_only_local {T W A : Type} (P : exn -> Prop) (name : string) (v : option A) :
  P (UnboundLocalError name) -> raises_only P (@local T W A name v).
Proof.
  intros HP. destruct v; [apply raises_only_ret | apply raises_only_raise; exact HP].
Qed.

Ltac raises_only_tac :=
  repeat first
    [ apply raises_only_ret
    | apply raises_only_gets
    | apply raises_only_modify
    | apply raises_only_raise; exact I
    | apply raises_only_local; exact I
    | apply raises_only_bind; [|intro]
    | match goal with
      | |- raises_only _ (if ?c then _ else _) => destruct c
      | |- raises_only _ (match ?x with _ => _ end) => destruct x
      end ].

Lemma ensures_bind_r {T W A B : Type} (Q : frame T W -> Prop) (m : M T W A)
    (k : A -> M T W B) :
  (forall a, ensures Q (k a)) -> ensures Q (bind m k).
Proof.
  intros Hk s b s' H. unfold bind in H.
  destruct (m s) as [[a|x] s1]; [exact (Hk a s1 b s' H) | discriminate H].
Qed.

Section Scheduler.

Context {T W : Type}.
Variable torch : Torch T W.
Variable net : Network T W.
Variable num_steps : Z.
Variable optimizer : Optimizer W.
Variable criterion : Criterion T.
Variable time_var : bool.
Variable regularization : option (Regularizer T).
Variable device : string.
Variable K : Z.

Local Abbreviation net_call := (net_call torch net time_var).
Local Abbreviation window_loss := (window_loss torch criterion regularization K).
Local Abbreviation detach_all := (detach_all net).
Local Abbreviation update := (update torch optimizer).
Local Abbreviation close_window :=
  (close_window torch net num_steps optimizer criterion regularization K).
Local Abbreviation close_remainder :=
  (close_remainder torch net num_steps optimizer criterion regularization K).
Local Abbreviation step_body :=
  (step_body torch net num_steps optimizer criterion time_var regularization K).
Local Abbreviation step_loop :=
  (step_loop torch net num_steps optimizer criterion time_var regularization K).
Local Abbreviation after_steps :=
  (after_steps torch net num_steps optimizer criterion regularization K).
Local Abbreviation batch_steps :=
  (batch_steps torch net num_steps optimizer criterion time_var regularization device
   K).
Local Abbreviation batch_body :=
  (batch_body torch net num_steps optimizer criterion time_var regularization device
   K).
Local Abbreviation batch_loop :=
  (batch_loop torch net num_steps optimizer criterion time_var regularization device
   K).
Local Abbreviation preamble := (preamble net num_steps criterion regularization device K).
Local Abbreviation batch_start :=
  (batch_start torch net num_steps optimizer criterion time_var regularization device
   K).
Local Abbreviation good_env := (good_env net regularization).
Local Abbreviation window_value := (window_value torch criterion regularization K).
Local Abbreviation window_events := (window_events torch regularization K).
Local Abbreviation closed_window :=
  (closed_window torch net num_steps optimizer criterion regularization K).
Local Abbreviation closed_remainder :=
  (closed_remainder torch net num_steps optimizer criterion regularization K).
Local Abbreviation stepped := (stepped torch net time_var).
Local Abbreviation step_pure :=
  (step_pure torch net num_steps optimizer criterion time_var regularization K).
Local Abbreviation steps_pure :=
  (steps_pure torch net num_steps optimizer criterion time_var regularization K).

Local Abbreviation nth_target := (nth_target torch K).
Local Abbreviation steps_inv := (steps_inv torch num_steps criterion regularization K).

(** ** What a window close adds to the trace *)

Lemma detach_events_silent (e : env) :
  optimizer_steps (@detach_events T e) = 0 /\
  forward_passes (@detach_events T e) = 0 /\
  criterion_targets (@detach_events T e) = [] /\
  criterion_values criterion (@detach_events T e) = [] /\
  penalty_values regularization (@detach_events T e) = [] /\
  backward_losses (@detach_events T e) = [].
Proof.
  unfold detach_events. induction (neurons_dict e) as [|[k c] d IH]; simpl.
  - repeat split; reflexivity.
  - destruct IH as (H1 & H2 & H3 & H4 & H5 & H6).
    destruct k; simpl; repeat split; assumption.
Qed.

Lemma close_events_read (e : env) (targets : T) (hi : Z) (s : frame T W) (lt : Q) :
  let evs := window_events e targets hi s ++ update_events lt ++ detach_events e in
  optimizer_steps evs = 1 /\
  forward_passes evs = 0 /\
  criterion_targets evs = [window_target torch K e targets hi s] /\
  backward_losses evs = [lt] /\
  criterion_values criterion evs =
    [crit_call criterion (criterion_signal torch e s) (window_target torch K e targets hi s)] /\
  penalty_values regularization evs =
    match regularization with
    | Some reg => [reg_call reg (regularization_signal torch e s)]
    | None => []
    end.
Proof.
  destruct (detach_events_silent e) as (H1 & H2 & H3 & H4 & H5 & H6).
  cbv zeta. unfold window_events, update_events.
  rewrite !optimizer_steps_app, !forward_passes_app, !criterion_targets_app,
    !backward_losses_app, !criterion_values_app, !penalty_values_app.
  rewrite H1, H2, H3, H4, H5, H6.
  destruct regularization; simpl; repeat split; reflexivity.
Qed.

Lemma detach_all_ok (e : env) (s : frame T W) :
  detach_all e s =
  (Ok tt, mkFrame (step s) (step_trunc s) (K_count s) (loss_trunc s) (loss_avg s)
                  (mem_rec_trunc s) (spk_rec_trunc s)
                  (detach_world net e (world s)) (trace s ++ detach_events e)).
Proof.
  unfold detach_all, detach_world, detach_events.
  generalize (neurons_dict e) as d. intros d. revert s.
  induction d as [|[k c] d IH]; intros s; simpl.
  - rewrite app_nil_r. destruct s; reflexivity.
  - unfold bind. destruct k; simpl.
    + rewrite IH. simpl. rewrite <- app_assoc. reflexivity.
    + rewrite IH. reflexivity.
Qed.

Ltac frame_simpl :=
  cbn [step step_trunc K_count loss_trunc loss_avg mem_rec_trunc spk_rec_trunc
       world trace set_step set_step_trunc set_K_count set_loss_trunc set_loss_avg
       set_mem_rec_trunc set_spk_rec_trunc effect app fst snd].

Ltac frame_simpl_in H :=
  cbn [step step_trunc K_count loss_trunc loss_avg mem_rec_trunc spk_rec_trunc
       world trace set_step set_step_trunc set_K_count set_loss_trunc set_loss_avg
       set_mem_rec_trunc set_spk_rec_trunc effect app fst snd] in H.

Lemma close_window_ok (e : env) (targets : T) (s : frame T W) :
  good_env e -> K <> 0 -> spk_rec_trunc s <> [] -> mem_rec_trunc s <> [] ->
  close_window e targets s = (Ok tt, closed_window e targets s).
Proof.
  intros (Hls & Hrs & _) HK Hspk Hmem.
  destruct Hls as [ls Hls]. apply Z.eqb_neq in HK.
  unfold close_window, window_loss, closed_window,
    window_value, window_events, criterion_signal,
    regularization_signal, window_target, torch_stack, update, update_events,
    update_world, call_criterion, call_regularization, signal_of.
  unfold bind, gets, modify, ret, local, raise.
  destruct (spk_rec_trunc s) as [|a sb] eqn:Es; [congruence|].
  destruct (mem_rec_trunc s) as [|b mb] eqn:Em; [congruence|].
  rewrite Hls.
  destruct regularization as [reg|] eqn:Er.
  - destruct (Hrs reg eq_refl) as [rs Hr]. rewrite Hr. unfold ret.
    destruct (time_var_targets e); frame_simpl; rewrite HK; frame_simpl;
      rewrite detach_all_ok; frame_simpl; rewrite <- !app_assoc;
      destruct ls, rs; reflexivity.
  - unfold ret.
    destruct (time_var_targets e); frame_simpl; rewrite HK; frame_simpl;
      rewrite detach_all_ok; frame_simpl; rewrite <- !app_assoc;
      destruct ls; reflexivity.
Qed.

Lemma close_remainder_ok (e : env) (targets : T) (s : frame T W) :
  good_env e -> spk_rec_trunc s <> [] -> mem_rec_trunc s <> [] ->
  close_remainder e targets s = (Ok tt, closed_remainder e targets s).
Proof.
  intros (Hls & Hrs & _) Hspk Hmem.
  destruct Hls as [ls Hls].
  unfold close_remainder, window_loss, closed_remainder,
    window_value, window_events, criterion_signal,
    regularization_signal, window_target, torch_stack, update, update_events,
    update_world, call_criterion, call_regularization, signal_of.
  unfold bind, gets, modify, ret, local, raise.
  destruct (spk_rec_trunc s) as [|a sb] eqn:Es; [congruence|].
  destruct (mem_rec_trunc s) as [|b mb] eqn:Em; [congruence|].
  rewrite Hls.
  destruct regularization as [reg|] eqn:Er.
  - destruct (Hrs reg eq_refl) as [rs Hr]. rewrite Hr. unfold ret.
    destruct (time_var_targets e); frame_simpl;
      rewrite detach_all_ok; frame_simpl; rewrite <- !app_assoc;
      destruct ls, rs; reflexivity.
  - unfold ret.
    destruct (time_var_targets e); frame_simpl;
      rewrite detach_all_ok; frame_simpl; rewrite <- !app_assoc;
      destruct ls; reflexivity.
Qed.

Lemma snoc_not_nil {A : Type} (l : list A) (x : A) : l ++ [x] <> [].
Proof. destruct l; discriminate. Qed.

Lemma forward_outputs (e : env) (w : W) (x : T) :
  good_env e ->
  exists spk r w', net_forward net w x = (spk :: r, w') /\
    ((num_return e = 2 /\ exists mem, r = [mem]) \/
     (num_return e = 3 /\ exists a mem, r = [a; mem]) \/
     (num_return e = 4 /\ exists a b mem, r = [a; b; mem])).
Proof.
  intros (_ & _ & Hnr & Har).
  specialize (Har w x). destruct (net_forward net w x) as [outs w'] eqn:E. simpl in Har.
  assert (H : num_return e = 2 \/ num_return e = 3 \/ num_return e = 4) by lia.
  destruct H as [H | [H | H]]; rewrite H in Har.
  - destruct outs as [|a [|b [|c l]]]; try discriminate Har.
    exists a, [b], w'. split; [reflexivity|]. left. split; [assumption|]. now exists b.
  - destruct outs as [|a [|b [|c [|d l]]]]; try discriminate Har.
    exists a, [b; c], w'. split; [reflexivity|]. right; left. split; [assumption|].
    now exists b, c.
  - destruct outs as [|a [|b [|c [|d [|f l]]]]]; try discriminate Har.
    exists a, [b; c; d], w'. split; [reflexivity|]. right; right. split; [assumption|].
    now exists b, c, d.
Qed.

Lemma step_body_ok (e : env) (data targets : T) (i : Z) (s : frame T W) :
  good_env e -> K <> 0 ->
  step_body e data targets i s = (Ok tt, step_pure e data targets s i).
Proof.
  intros Hg HK.
  unfold step_body, step_pure, stepped, net_call, forward.
  set (x := if time_var then index torch data i else data).
  destruct (forward_outputs e (world s) x Hg) as (spk & r & w' & Hf & Hr).
  unfold bind, gets, modify, ret, raise; frame_simpl. rewrite !Hf.
  destruct Hr as [[Hn (m & ->)] | [[Hn (a & m & ->)] | [Hn (a & b & m & ->)]]];
    rewrite Hn; cbn [Z.eqb Pos.eqb last]; frame_simpl; rewrite ?Hf; frame_simpl;
    (destruct (step_trunc s + 1 =? K) eqn:EK;
     [ rewrite close_window_ok;
       [ reflexivity | assumption | assumption | apply snoc_not_nil | apply snoc_not_nil ]
     | reflexivity ]).
Qed.

Lemma step_loop_ok (e : env) (data targets : T) (n : Z) (s : frame T W) :
  good_env e -> K <> 0 ->
  step_loop e data targets n s = (Ok tt, steps_pure e data targets n s).
Proof.
  intros Hg HK. unfold step_loop, steps_pure.
  generalize (range n) as l. intros l. revert s.
  induction l as [|i l IH]; intros s; simpl.
  - reflexivity.
  - unfold bind. rewrite step_body_ok by assumption. apply IH.
Qed.

(** ** The step loop, step by step *)

Lemma stepped_spec (e : env) (data : T) (i : Z) (s : frame T W) :
  good_env e ->
  exists spk r w',
    net_forward net (world s) (if time_var then index torch data i else data)
      = (spk :: r, w') /\
    stepped data i s =
      mkFrame (Some i) (step_trunc s + 1) (K_count s) (loss_trunc s) (loss_avg s)
              (mem_rec_trunc s ++ [last r spk]) (spk_rec_trunc s ++ [spk]) w'
              (trace s ++ [EvForward (if time_var then index torch data i else data)]).
Proof.
  intros Hg.
  destruct (forward_outputs e (world s) (if time_var then index torch data i else data) Hg)
    as (spk & r & w' & Hf & _).
  exists spk, r, w'. split; [exact Hf|].
  unfold stepped. rewrite Hf. reflexivity.
Qed.

Lemma steps_pure_succ (e : env) (data targets : T) (n : Z) (s : frame T W) :
  0 <= n ->
  steps_pure e data targets (n + 1) s =
  step_pure e data targets (steps_pure e data targets n s) n.
Proof.
  intros Hn. unfold steps_pure. rewrite range_succ by assumption.
  rewrite fold_left_app. reflexivity.
Qed.

Lemma steps_inv_start (e : env) (targets : T) (s0 : frame T W) :
  1 <= K -> step_trunc s0 = 0 -> spk_rec_trunc s0 = [] -> mem_rec_trunc s0 = [] ->
  loss_trunc s0 = 0%Q ->
  steps_inv e targets s0 0 s0.
Proof.
  intros HK Hst Hspk Hmem Hlt. unfold steps_inv.
  rewrite Z.mod_0_l, Z.div_0_l by lia. rewrite Hspk, Hmem, Hst.
  split; [reflexivity|]. split; [reflexivity|]. split; [reflexivity|].
  split; [lia|]. split; [assumption|]. split; [lia|].
  exists []. rewrite app_nil_r.
  split; [reflexivity|]. split; [reflexivity|]. split; [reflexivity|].
  split; [reflexivity|]. split; [reflexivity|]. split; [reflexivity|].
  split; [destruct regularization; reflexivity|].
  split; simpl; ring.
Qed.

Lemma forward_event_read (x : T) :
  optimizer_steps [EvForward x] = 0 /\
  forward_passes [EvForward x] = 1 /\
  criterion_targets [EvForward x] = [] /\
  backward_losses [EvForward x] = [] /\
  criterion_values criterion [EvForward x] = [] /\
  penalty_values regularization [EvForward x] = [].
Proof. repeat split; reflexivity. Qed.

Lemma steps_inv_step (e : env) (data targets : T) (s0 s : frame T W) (m : Z) :
  good_env e -> 1 <= K -> 0 <= m ->
  steps_inv e targets s0 m s ->
  steps_inv e targets s0 (m + 1) (step_pure e data targets s m).
Proof.
  intros Hg HK Hm (Hst & Hspk & Hmem & Hkc & Hlt & Hstep & evs & Htr & Hopt & Hfw & Htg
                   & HlB & HlC & HlP & HB & Hla).
  destruct (stepped_spec e data m s Hg) as (spk & r & w' & Hf & Hs1).
  unfold step_pure. rewrite Hs1. cbn [step_trunc].
  set (x := if time_var then index torch data m else data) in *.
  destruct (forward_event_read x) as (F1 & F2 & F3 & F4 & F5 & F6).
  assert (Hq : 0 <= m / K) by (apply Z.div_pos; lia).
  destruct (step_trunc s + 1 =? K) eqn:EK.
  - apply Z.eqb_eq in EK.
    assert (Hb : m mod K + 1 = K) by (rewrite <- Hst; exact EK).
    destruct (window_boundary K m HK Hm Hb) as (Emod & Ediv).
    unfold steps_inv, closed_window. frame_simpl. rewrite Emod, Ediv.
    set (s1 := mkFrame (Some m) (step_trunc s + 1) (K_count s) (loss_trunc s) (loss_avg s)
                       (mem_rec_trunc s ++ [last r spk]) (spk_rec_trunc s ++ [spk]) w'
                       (trace s ++ [EvForward x])).
    set (hi := (K_count s + 1) * K).
    set (lt := (loss_trunc s + window_value e targets hi s1)%Q).
    destruct (close_events_read e targets hi s1 lt) as (C1 & C2 & C3 & C4 & C5 & C6).
    cbv zeta in C1, C2, C3, C4, C5, C6.
    set (block := window_events e targets hi s1 ++ update_events lt ++ detach_events e) in *.
    split; [reflexivity|]. split; [reflexivity|]. split; [reflexivity|].
    split; [lia|]. split; [reflexivity|]. split; [intros _; f_equal; lia|].
    exists (evs ++ [EvForward x] ++ block).
    split; [rewrite Htr, <- !app_assoc; reflexivity|].
    rewrite !optimizer_steps_app, !forward_passes_app, !criterion_targets_app,
      !backward_losses_app, !criterion_values_app, !penalty_values_app.
    rewrite F1, F2, F3, F4, F5, F6, C1, C2, C3, C4, C5, C6.
    cbn [app]. rewrite !length_app. cbn [List.length].
    split; [lia|]. split; [lia|].
    split.
    { replace (Z.to_nat (m / K + 1)) with (S (Z.to_nat (m / K))) by lia.
      rewrite seq_S, map_app, Htg. cbn [map Nat.add]. f_equal. f_equal.
      unfold window_target, nth_target. destruct (time_var_targets e); [|reflexivity].
      subst s1 hi. frame_simpl. rewrite Z2Nat.id by lia. f_equal; lia. }
    split; [lia|]. split; [lia|].
    split; [destruct regularization; cbn [List.length]; lia|].
    assert (Elt : (lt == window_value e targets hi s1)%Q).
    { subst lt. rewrite Hlt. ring. }
    assert (Ewv : (window_value e targets hi s1 ==
                   Qsum [crit_call criterion (criterion_signal torch e s1)
                           (window_target torch K e targets hi s1)] +
                   Qsum match regularization with
                        | Some reg => [reg_call reg (regularization_signal torch e s1)]
                        | None => []
                        end)%Q).
    { unfold window_value. destruct regularization; cbn [Qsum fold_right]; ring. }
    assert (E1 : (Qsum [lt] == window_value e targets hi s1)%Q).
    { cbn [Qsum fold_right]. rewrite Elt. ring. }
    split.
    + rewrite !Qsum_app, HB, E1, Ewv. ring.
    + rewrite Hla, Qsum_app, E1. unfold Qdiv. ring.
  - apply Z.eqb_neq in EK.
    assert (Hb : m mod K + 1 <> K) by (rewrite <- Hst; exact EK).
    destruct (window_inside K m HK Hm Hb) as (Emod & Ediv).
    unfold steps_inv. frame_simpl. rewrite Emod, Ediv, !length_app. cbn [List.length].
    split; [lia|]. split; [lia|]. split; [lia|].
    split; [assumption|]. split; [assumption|]. split; [intros _; f_equal; lia|].
    exists (evs ++ [EvForward x]).
    split; [rewrite Htr, <- !app_assoc; reflexivity|].
    rewrite !optimizer_steps_app, !forward_passes_app, !criterion_targets_app,
      !backward_losses_app, !criterion_values_app, !penalty_values_app.
    rewrite F1, F2, F3, F4, F5, F6, !app_nil_r.
    split; [lia|]. split; [lia|]. split; [assumption|].
    split; [assumption|]. split; [assumption|]. split; [assumption|].
    split; assumption.
Qed.

Local Abbreviation batch_head := (batch_head net).
Local Abbreviation batch_pure :=
  (batch_pure torch net num_steps optimizer criterion time_var regularization K).
Local Abbreviation batch_inv := (batch_inv torch num_steps criterion regularization K).

Lemma steps_pure_inv (e : env) (data targets : T) (s0 : frame T W) (n : Z) :
  good_env e -> 1 <= K -> between_batches s0 -> 0 <= n ->
  steps_inv e targets s0 n (steps_pure e data targets n s0).
Proof.
  intros Hg HK (Hst & Hspk & Hmem & Hlt) Hn.
  rewrite <- (Z2Nat.id n Hn). induction (Z.to_nat n) as [|m IH].
  - apply steps_inv_start; assumption.
  - rewrite Nat2Z.inj_succ, <- Z.add_1_r.
    rewrite steps_pure_succ by lia.
    apply steps_inv_step; [assumption | assumption | lia | exact IH].
Qed.

(** ** A whole batch *)

Lemma batch_steps_ok (e : env) (batch : T * T) (n : Z) (s : frame T W) :
  good_env e -> K <> 0 ->
  batch_steps e batch n s =
  (Ok tt, steps_pure e (to torch device (fst batch)) (to torch device (snd batch)) n
                     (batch_head s)).
Proof.
  intros Hg HK. unfold batch_steps, bind, modify.
  rewrite step_loop_ok by assumption. reflexivity.
Qed.

Lemma after_steps_ok (e : env) (targets : T) (s : frame T W) :
  good_env e -> K <> 0 -> step s = Some (num_steps - 1) ->
  (num_steps mod K <> 0 -> spk_rec_trunc s <> [] /\ mem_rec_trunc s <> []) ->
  after_steps e targets s =
  (Ok tt, if num_steps mod K =? 0 then s else closed_remainder e targets s).
Proof.
  intros Hg HK Hstep Hbuf. unfold after_steps, bind, gets, local.
  rewrite Hstep. unfold ret. rewrite Z.eqb_refl.
  apply Z.eqb_neq in HK. rewrite HK.
  destruct (num_steps mod K =? 0) eqn:Er; [reflexivity|].
  apply Z.eqb_neq in Er. destruct (Hbuf Er) as [Hs Hm].
  apply close_remainder_ok; assumption.
Qed.

Lemma between_batches_head (s : frame T W) :
  between_batches s -> between_batches (batch_head s).
Proof. intros H. exact H. Qed.

Lemma nonempty_of_length {A : Type} (l : list A) (n : Z) :
  Z.of_nat (List.length l) = n -> n <> 0 -> l <> [].
Proof. intros H Hn ->. cbn in H. lia. Qed.

Lemma batch_body_ok (e : env) (batch : T * T) (s : frame T W) :
  good_env e -> 1 <= K <= num_steps -> between_batches s ->
  batch_body e batch s = (Ok tt, batch_pure e device batch s).
Proof.
  intros Hg HK Hb. unfold batch_body, bind.
  rewrite batch_steps_ok by (assumption || lia).
  pose proof (steps_pure_inv e (to torch device (fst batch)) (to torch device (snd batch))
                (batch_head s) num_steps Hg ltac:(lia) (between_batches_head s Hb)
                ltac:(lia)) as (_ & Hspk & Hmem & _ & _ & Hstep & _).
  rewrite after_steps_ok; [reflexivity | assumption | lia | apply Hstep; lia |].
  intros Hr. split; eapply nonempty_of_length; eassumption.
Qed.

Lemma nil_of_length {A : Type} (l : list A) :
  Z.of_nat (List.length l) = 0 -> l = [].
Proof. destruct l; [reflexivity | cbn; lia]. Qed.

Lemma head_events_read :
  optimizer_steps [@EvTrain T; EvReset] = 0 /\
  forward_passes [@EvTrain T; EvReset] = 0 /\
  criterion_targets [@EvTrain T; EvReset] = [] /\
  backward_losses [@EvTrain T; EvReset] = [] /\
  criterion_values criterion [@EvTrain T; EvReset] = [] /\
  penalty_values regularization [@EvTrain T; EvReset] = [].
Proof. repeat split; reflexivity. Qed.

Lemma full_targets (e : env) (targets : T) (kc : Z) (n : nat) :
  Z.of_nat n <= num_steps / K ->
  map (nth_target e targets kc K) (seq 0 n) =
  map (fun j => nth_target e targets kc (window_length num_steps K j) j) (seq 0 n).
Proof.
  intros Hn. apply map_ext_in. intros j Hj. apply in_seq in Hj.
  unfold window_length.
  destruct (Z.of_nat j <? num_steps / K) eqn:E; [reflexivity|].
  apply Z.ltb_ge in E. lia.
Qed.

Lemma batch_pure_inv (e : env) (batch : T * T) (s : frame T W) :
  good_env e -> 1 <= K <= num_steps -> between_batches s ->
  batch_inv e (to torch device (snd batch)) s (batch_pure e device batch s).
Proof.
  intros Hg HK Hb.
  set (data := to torch device (fst batch)). set (targets := to torch device (snd batch)).
  pose proof (steps_pure_inv e data targets (batch_head s) num_steps Hg ltac:(lia)
                (between_batches_head s Hb) ltac:(lia))
    as (Hst & Hspk & Hmem & Hkc & Hlt & Hstep & evs & Htr & Hopt & Hfw & Htg
        & HlB & HlC & HlP & HB & Hla).
  unfold batch_pure. fold data targets.
  set (s1 := steps_pure e data targets num_steps (batch_head s)) in *.
  unfold batch_head in Hkc, Htr, Hla, Htg. frame_simpl_in Hkc. frame_simpl_in Htr.
  frame_simpl_in Hla. frame_simpl_in Htg.
  destruct head_events_read as (T1 & T2 & T3 & T4 & T5 & T6).
  assert (Hq : 0 <= num_steps / K) by (apply Z.div_pos; lia).
  pose proof (Z.mod_pos_bound num_steps K ltac:(lia)) as Hrb.
  unfold batch_inv, windows_per_batch.
  destruct (num_steps mod K =? 0) eqn:Er.
  - apply Z.eqb_eq in Er. rewrite Er in *. rewrite Z.add_0_r.
    split.
    { repeat split; [assumption | apply nil_of_length | apply nil_of_length | ]; assumption. }
    split; [assumption|].
    exists ([EvTrain; EvReset] ++ evs).
    split; [rewrite Htr, <- !app_assoc; reflexivity|].
    rewrite !optimizer_steps_app, !forward_passes_app, !criterion_targets_app,
      !backward_losses_app, !criterion_values_app, !penalty_values_app.
    rewrite T1, T2, T3, T4, T5, T6. cbn [app].
    split; [lia|]. split; [lia|].
    split; [rewrite Htg; apply full_targets; lia|].
    split; [assumption|]. split; [assumption|]. split; [assumption|].
    intros i0 Hi0.
    assert (WB := weighted_sum_batch num_steps K (backward_losses evs) [] i0 HK).
    assert (WC := weighted_sum_batch num_steps K (criterion_values criterion evs) [] i0 HK).
    assert (WP := weighted_sum_batch num_steps K (penalty_values regularization evs) [] i0 HK).
    unfold windows_per_batch in WB, WC, WP. rewrite Er in WB, WC, WP.
    cbn [Z.eqb] in WB, WC, WP. rewrite Z.add_0_r, app_nil_r in WB, WC, WP.
    rewrite WB, WC, WP; try assumption; try (right; split; [assumption|left; split; reflexivity]).
    + cbn [Qsum fold_right]. split.
      * rewrite HB. unfold Qdiv. ring.
      * rewrite Hla. unfold Qdiv. ring.
    + destruct regularization.
      * right; split; [assumption|left; split; reflexivity].
      * left. split; [apply nil_of_length; assumption | reflexivity].
  - apply Z.eqb_neq in Er.
    unfold closed_remainder. frame_simpl.
    set (hi := K_count s1 * K + num_steps mod K).
    set (lt := (loss_trunc s1 + window_value e targets hi s1)%Q).
    destruct (close_events_read e targets hi s1 lt) as (C1 & C2 & C3 & C4 & C5 & C6).
    cbv zeta in C1, C2, C3, C4, C5, C6.
    set (block := window_events e targets hi s1 ++ update_events lt ++ detach_events e) in *.
    split; [repeat split; reflexivity|].
    split; [reflexivity|].
    exists ([EvTrain; EvReset] ++ evs ++ block).
    split; [rewrite Htr, <- !app_assoc; reflexivity|].
    rewrite !optimizer_steps_app, !forward_passes_app, !criterion_targets_app,
      !backward_losses_app, !criterion_values_app, !penalty_values_app.
    rewrite T1, T2, T3, T4, T5, T6, C1, C2, C3, C4, C5, C6. cbn [app].
    rewrite !length_app. cbn [List.length].
    split; [lia|]. split; [lia|].
    split.
    { replace (Z.to_nat (num_steps / K + 1)) with (S (Z.to_nat (num_steps / K))) by lia.
      rewrite seq_S, map_app, Htg. cbn [map Nat.add]. f_equal.
      - apply full_targets. lia.
      - f_equal. unfold window_target, nth_target, window_length.
        rewrite Z2Nat.id by lia. rewrite Z.ltb_irrefl.
        destruct (time_var_targets e); [|reflexivity].
        subst hi. rewrite Hkc. reflexivity. }
    split; [lia|]. split; [lia|].
    split; [destruct regularization; cbn [List.length]; lia|].
    intros i0 Hi0.
    assert (Elt : (Qsum [lt] == window_value e targets hi s1)%Q).
    { subst lt. cbn [Qsum fold_right]. rewrite Hlt. ring. }
    assert (Ewv : (window_value e targets hi s1 ==
                   Qsum [crit_call criterion (criterion_signal torch e s1)
                           (window_target torch K e targets hi s1)] +
                   Qsum match regularization with
                        | Some reg => [reg_call reg (regularization_signal torch e s1)]
                        | None => []
                        end)%Q).
    { unfold window_value. destruct regularization; cbn [Qsum fold_right]; ring. }
    assert (Hi0' : Z.of_nat i0 mod windows_per_batch num_steps K = 0).
    { unfold windows_per_batch. apply Z.eqb_neq in Er. rewrite Er. exact Hi0. }
    rewrite !(weighted_sum_batch num_steps K _ _ i0 HK Hi0').
    + split.
      * rewrite HB, Elt, Ewv. unfold Qdiv. ring.
      * rewrite Hla, Elt. unfold Qdiv. ring.
    + destruct regularization.
      * right. split; [assumption|]. right. split; [assumption|]. eexists; reflexivity.
      * left. split; [apply nil_of_length; assumption | reflexivity].
    + right. split; [assumption|]. right. split; [assumption|]. eexists; reflexivity.
    + right. split; [assumption|]. right. split; [assumption|]. eexists; reflexivity.
Qed.

Local Abbreviation the_env := (the_env net criterion regularization).
Local Abbreviation started := (started net device).
Local Abbreviation batches_pure :=
  (batches_pure torch net num_steps optimizer criterion time_var regularization device K).
Local Abbreviation run_inv := (run_inv num_steps criterion regularization K).
Local Abbreviation TBPTT_body :=
  (TBPTT_body torch net num_steps optimizer criterion time_var regularization device K).

(** ** Before the batch loop *)

Lemma criterion_fold_counter (l : list (string * (bool * bool)))
    (st : option bool * bool * Z) :
  snd (fold_left (criterion_loop_body criterion) l st) = snd st - Z.of_nat (List.length l).
Proof.
  revert st. induction l as [|[k [a b]] l IH]; intros [[ls tvt] c].
  - cbn. lia.
  - cbn [fold_left]. rewrite IH. unfold criterion_loop_body.
    destruct (String.eqb k (crit_name criterion)); cbn [snd List.length]; lia.
Qed.

Lemma criterion_loop_counter : snd (criterion_loop criterion) = 0.
Proof. unfold criterion_loop. rewrite criterion_fold_counter. cbn [snd]. lia. Qed.

Lemma criterion_loop_known :
  In (crit_name criterion) (map fst criterion_dict) ->
  exists b, fst (fst (criterion_loop criterion)) = Some b.
Proof.
  intros H. cbn in H. unfold criterion_loop, criterion_loop_body, criterion_dict.
  destruct H as [H | [H | [H | [H | [H | []]]]]]; rewrite <- H; cbn; eexists; reflexivity.
Qed.

Lemma criterion_loop_unknown :
  ~ In (crit_name criterion) (map fst criterion_dict) ->
  fst (fst (criterion_loop criterion)) = None /\ snd (fst (criterion_loop criterion)) = false.
Proof.
  intros H. cbn in H. unfold criterion_loop, criterion_loop_body, criterion_dict.
  cbn [fold_left].
  repeat match goal with
         | |- context [String.eqb ?k (crit_name criterion)] =>
             let E := fresh "E" in
             destruct (String.eqb k (crit_name criterion)) eqn:E;
             [apply String.eqb_eq in E; exfalso; apply H; rewrite <- E; tauto|]
         end.
  split; reflexivity.
Qed.

Lemma regularization_loop_known (reg : Regularizer T) :
  regularization = Some reg -> In (reg_name reg) (map fst reg_dict) ->
  regularization_loop regularization = Some true.
Proof.
  intros -> H. cbn in H. destruct H as [H | []].
  unfold regularization_loop, reg_dict. cbn [fold_left fst snd].
  rewrite <- H. reflexivity.
Qed.

Lemma preamble_ok (w : W) :
  K <= num_steps ->
  preamble (entry w) =
  (Ok (the_env w),
   effect (EvNetTo device) (net_to net device) (effect EvReset (utils_reset net) (entry w))).
Proof.
  intros HK. unfold preamble, the_env.
  pose proof criterion_loop_counter as Hc.
  destruct (criterion_loop criterion) as [[ls tvt] c]. cbn [fst snd] in *. subst c.
  unfold bind, modify, gets, ret, raise.
  assert (E : (K >? num_steps) = false) by lia. rewrite E.
  reflexivity.
Qed.

Lemma preamble_raises (w : W) :
  K > num_steps -> preamble (entry w) = (Raise ValueError_K, entry w).
Proof.
  intros HK. unfold preamble, bind, raise.
  assert (E : (K >? num_steps) = true) by lia. rewrite E. reflexivity.
Qed.

Lemma well_formed_good_env (w : W) :
  well_formed net criterion regularization -> good_env (the_env w).
Proof.
  intros (Hc & Hr & Hn & Ha). unfold good_env, the_env. cbn [loss_spk reg_spk num_return].
  split; [apply criterion_loop_known; assumption|].
  split.
  - intros reg Ereg. exists true. apply (regularization_loop_known reg Ereg).
    apply Hr. assumption.
  - split; [apply Hn | apply Ha].
Qed.

Lemma started_between (w : W) : between_batches (started w).
Proof. repeat split; reflexivity. Qed.

(** ** The batch loop *)

Lemma batch_pure_between (e : env) (batch : T * T) (s : frame T W) :
  good_env e -> 1 <= K <= num_steps -> between_batches s ->
  between_batches (batch_pure e device batch s).
Proof. intros Hg HK Hb. apply (batch_pure_inv e batch s Hg HK Hb). Qed.

Lemma batches_pure_between (e : env) (dl : list (T * T)) (s : frame T W) :
  good_env e -> 1 <= K <= num_steps -> between_batches s ->
  between_batches (batches_pure e dl s).
Proof.
  intros Hg HK. revert s. induction dl as [|batch dl IH]; intros s Hb.
  - exact Hb.
  - cbn [batches_pure fold_left]. apply IH. apply batch_pure_between; assumption.
Qed.

Lemma batch_loop_ok (e : env) (dl : list (T * T)) (s : frame T W) :
  good_env e -> 1 <= K <= num_steps -> between_batches s ->
  batch_loop e dl s = (Ok tt, batches_pure e dl s).
Proof.
  intros Hg HK. unfold batch_loop. revert s.
  induction dl as [|batch dl IH]; intros s Hb.
  - reflexivity.
  - cbn [for_each batches_pure fold_left]. unfold bind.
    rewrite batch_body_ok by assumption.
    apply IH. apply batch_pure_between; assumption.
Qed.

Lemma batches_pure_snoc (e : env) (dl : list (T * T)) (batch : T * T) (s : frame T W) :
  batches_pure e (dl ++ [batch]) s = batch_pure e device batch (batches_pure e dl s).
Proof. unfold batches_pure. rewrite fold_left_app. reflexivity. Qed.

Lemma run_inv_started (w : W) : run_inv 0 (started w).
Proof.
  unfold run_inv. split; [apply started_between|].
  unfold started. frame_simpl. unfold entry. frame_simpl.
  split; [destruct (num_steps mod K =? 0); lia|].
  cbn. repeat split; try reflexivity.
  destruct regularization; reflexivity.
Qed.

Lemma weighted_sum_nil_index (i j : nat) (l : list Q) :
  l = [] -> (weighted_sum num_steps K i l == weighted_sum num_steps K j l)%Q.
Proof. intros ->. reflexivity. Qed.

Lemma run_inv_batch (e : env) (batch : T * T) (s : frame T W) (b : Z) :
  good_env e -> 1 <= K <= num_steps -> 0 <= b ->
  run_inv b s -> run_inv (b + 1) (batch_pure e device batch s).
Proof.
  intros Hg HK Hb0 (Hb & Hkc & Hopt & Hfw & HlB & HlC & HlP & HB & Hla).
  destruct (batch_pure_inv e batch s Hg HK Hb)
    as (Hb' & Hkc' & evs & Htr & Eopt & Efw & _ & ElB & ElC & ElP & Hsum).
  set (c := windows_per_batch num_steps K) in *.
  set (i0 := List.length (backward_losses (trace s))).
  assert (Hi0 : Z.of_nat i0 mod c = 0).
  { subst i0. fold c in HlB. rewrite HlB. apply Z_mod_mult. }
  destruct (Hsum i0 Hi0) as (HsB & Hsla).
  unfold run_inv. fold c. rewrite Htr.
  rewrite optimizer_steps_app, forward_passes_app, backward_losses_app,
    criterion_values_app, penalty_values_app, !length_app.
  split; [assumption|].
  split.
  { rewrite Hkc', Hkc. destruct (num_steps mod K =? 0); lia. }
  split; [lia|]. split; [lia|]. split; [lia|]. split; [lia|].
  split; [destruct regularization; lia|].
  assert (EC : List.length (criterion_values criterion (trace s)) = i0).
  { subst i0. apply Nat2Z.inj. lia. }
  assert (EP : (weighted_sum num_steps K
                  (0 + List.length (penalty_values regularization (trace s)))
                  (penalty_values regularization evs) ==
                weighted_sum num_steps K i0 (penalty_values regularization evs))%Q).
  { destruct regularization.
    - replace (List.length (penalty_values (Some r) (trace s))) with i0; [reflexivity|].
      subst i0. apply Nat2Z.inj. lia.
    - apply weighted_sum_nil_index. apply nil_of_length. assumption. }
  split.
  - rewrite !weighted_sum_app, EP, EC. cbn [Nat.add]. fold i0.
    rewrite HB, HsB. ring.
  - rewrite Hsla, weighted_sum_app, Hla. cbn [Nat.add]. fold i0. reflexivity.
Qed.

Lemma run_inv_batches (e : env) (dl : list (T * T)) (w : W) :
  good_env e -> 1 <= K <= num_steps ->
  run_inv (Z.of_nat (List.length dl)) (batches_pure e dl (started w)).
Proof.
  intros Hg HK. induction dl as [|batch dl IH] using rev_ind.
  - apply run_inv_started.
  - rewrite batches_pure_snoc, length_app. cbn [List.length].
    replace (Z.of_nat (List.length dl + 1)) with (Z.of_nat (List.length dl) + 1) by lia.
    apply run_inv_batch; [assumption | assumption | lia | exact IH].
Qed.

(** ** The whole call *)

Lemma batch_start_ok (dl : list (T * T)) (b : nat) (w : W) :
  well_formed net criterion regularization -> 1 <= K <= num_steps ->
  batch_start dl b w =
  (Ok (the_env w), batches_pure (the_env w) (firstn b dl) (started w)).
Proof.
  intros Hwf HK. unfold batch_start, bind.
  rewrite preamble_ok by lia. unfold modify.
  rewrite batch_loop_ok;
    [reflexivity | apply well_formed_good_env; assumption | assumption
    | apply started_between].
Qed.

Lemma TBPTT_ok (dl : list (T * T)) (w : W) :
  well_formed net criterion regularization -> 1 <= K <= num_steps ->
  TBPTT torch net dl num_steps optimizer criterion time_var regularization device K w =
  (Ok (VNum (loss_avg (batches_pure (the_env w) dl (started w)))),
   batches_pure (the_env w) dl (started w)).
Proof.
  intros Hwf HK. unfold TBPTT, TBPTT_K, TBPTT_body, bind.
  rewrite preamble_ok by lia. unfold modify.
  rewrite batch_loop_ok;
    [reflexivity | apply well_formed_good_env; assumption | assumption
    | apply started_between].
Qed.

(** ** The exceptions of the batch loop *)

Lemma detach_all_raises (e : env) : raises_only loop_exn (detach_all e).
Proof.
  unfold detach_all. apply raises_only_for_each. intros x. raises_only_tac.
Qed.

Lemma torch_stack_raises (buf : list T) :
  raises_only loop_exn (torch_stack torch buf).
Proof. unfold torch_stack. raises_only_tac. Qed.

Lemma window_loss_raises (e : env) (targets : T) (hi : Z) :
  raises_only loop_exn (window_loss e targets hi).
Proof.
  unfold window_loss, call_criterion, call_regularization.
  raises_only_tac; apply torch_stack_raises.
Qed.

Lemma close_window_raises (e : env) (targets : T) :
  raises_only loop_exn (close_window e targets).
Proof.
  unfold close_window, update.
  raises_only_tac; try apply torch_stack_raises; try apply detach_all_raises.
Qed.

Lemma close_remainder_raises (e : env) (targets : T) :
  raises_only loop_exn (close_remainder e targets).
Proof.
  unfold close_remainder, update.
  raises_only_tac; try apply torch_stack_raises; try apply detach_all_raises.
Qed.

Lemma forward_raises (x : T) : raises_only loop_exn (forward net x).
Proof.
  intros s e s' H. unfold forward in H.
  destruct (net_forward net (world s) x). discriminate H.
Qed.

Lemma step_body_raises (e : env) (data targets : T) (i : Z) :
  raises_only loop_exn (step_body e data targets i).
Proof.
  unfold step_body, net_call.
  raises_only_tac; try apply forward_raises; try apply torch_stack_raises;
    try apply detach_all_raises.
Qed.

Lemma batch_body_raises (e : env) (batch : T * T) :
  raises_only loop_exn (batch_body e batch).
Proof.
  unfold batch_body, batch_steps, step_loop, after_steps.
  raises_only_tac; try apply torch_stack_raises; try apply detach_all_raises.
  apply raises_only_for_each. intros i. apply step_body_raises.
Qed.

Lemma batch_loop_raises (e : env) (dl : list (T * T)) :
  raises_only loop_exn (batch_loop e dl).
Proof.
  unfold batch_loop. apply raises_only_for_each. intros b. apply batch_body_raises.
Qed.

Lemma TBPTT_raises (dl : list (T * T)) (w : W) (x : exn) :
  K <= num_steps ->
  fst (TBPTT torch net dl num_steps optimizer criterion time_var regularization device K w)
    = Raise x ->
  loop_exn x.
Proof.
  intros HK. unfold TBPTT, TBPTT_K, TBPTT_body, bind.
  rewrite preamble_ok by assumption. unfold modify.
  destruct (batch_loop _ dl _) as [[[]|x'] s'] eqn:E; cbn [fst].
  - unfold gets, ret. discriminate.
  - intros H. injection H as <-. exact (batch_loop_raises _ dl _ _ _ E).
Qed.

Lemma TBPTT_returns_number (dl : list (T * T)) (w : W) :
  fst (TBPTT torch net dl num_steps optimizer criterion time_var regularization device K w)
    <> Ok VNone.
Proof.
  unfold TBPTT, TBPTT_K, TBPTT_body, bind.
  destruct (preamble (entry w)) as [[e|x] s0]; [|discriminate].
  unfold modify.
  destruct (batch_loop e dl _) as [[[]|x'] s']; [|discriminate].
  unfold gets, ret. cbn [fst]. discriminate.
Qed.

(** ** After a window close *)

Lemma close_window_resets (e : env) (targets : T) :
  ensures window_reset (close_window e targets).
Proof.
  unfold close_window.
  do 11 (apply ensures_bind_r; intro).
  intros s r s' H. unfold bind, modify in H. injection H as H. subst s'.
  repeat split.
Qed.

Lemma close_remainder_resets (e : env) (targets : T) :
  ensures window_reset (close_remainder e targets).
Proof.
  unfold close_remainder.
  do 8 (apply ensures_bind_r; intro).
  intros s r s' H. unfold bind, modify in H. rewrite detach_all_ok in H.
  injection H as H. subst s'. repeat split.
Qed.

(** * The claims *)

(** C1. In every batch of a call of TBPTT with 1 <= K <= num_steps,
    [optimizer.step()] is called exactly ceil(num_steps / K) times: after
    the first [n] time steps of the batch it has been called n / K times
    (once at every K-th step), the block after the step loop adds one call
    exactly when num_steps mod K is not 0; K = num_steps gives one call per
    batch and K = 1 gives num_steps calls. *)
Theorem TBPTT_updates_per_batch (dl : list (T * T)) (w : W) (b : nat) (batch : T * T) :
  1 <= K <= num_steps -> well_formed net criterion regularization ->
  nth_error dl b = Some batch ->
  exists e s s' evs,
    batch_start dl b w = (Ok e, s) /\
    batch_body e batch s = (Ok tt, s') /\
    trace s' = trace s ++ evs /\
    optimizer_steps evs = ceil_div num_steps K /\
    optimizer_steps evs = num_steps / K + (if num_steps mod K =? 0 then 0 else 1) /\
    (forall n, 0 <= n <= num_steps ->
       exists s_n evs_n,
         batch_steps e batch n s = (Ok tt, s_n) /\
         trace s_n = trace s ++ evs_n /\
         optimizer_steps evs_n = n / K) /\
    (K = num_steps -> optimizer_steps evs = 1) /\
    (K = 1 -> optimizer_steps evs = num_steps).
Proof.
  intros HK Hwf Hb.
  pose proof (well_formed_good_env w Hwf) as Hg.
  set (e := the_env w) in *.
  set (s := batches_pure e (firstn b dl) (started w)).
  assert (Hs : between_batches s).
  { apply batches_pure_between; [assumption | assumption | apply started_between]. }
  destruct (batch_pure_inv e batch s Hg HK Hs)
    as (_ & _ & evs & Htr & Hopt & _).
  exists e, s, (batch_pure e device batch s), evs.
  split; [apply batch_start_ok; assumption|].
  split; [apply batch_body_ok; assumption|].
  split; [exact Htr|].
  split; [rewrite ceil_div_windows by lia; exact Hopt|].
  split; [exact Hopt|].
  split.
  - intros n Hn.
    destruct (steps_pure_inv e (to torch device (fst batch)) (to torch device (snd batch))
                (batch_head s) n Hg ltac:(lia) (between_batches_head s Hs) ltac:(lia))
      as (_ & _ & _ & _ & _ & _ & evs_n & Htr_n & Hopt_n & _).
    eexists. exists ([EvTrain; EvReset] ++ evs_n).
    split; [apply batch_steps_ok; [assumption | lia]|].
    split.
    + rewrite Htr_n. unfold batch_head. frame_simpl. rewrite <- !app_assoc. reflexivity.
    + rewrite optimizer_steps_app, Hopt_n. reflexivity.
  - rewrite Hopt. unfold windows_per_batch. split.
    + intros <-. rewrite Z.mod_same, Z.div_same by lia. reflexivity.
    + intros ->. rewrite Z.mod_1_r, Z.div_1_r. cbn. lia.
Qed.

(** C2. The value returned by TBPTT is the sum, over all windows of all
    batches, of the window's loss weighted by 1/(num_steps/K) (true division)
    for a full window and by 1/(num_steps mod K) for a remainder window; the
    window's loss is the criterion value plus the regularization penalty when
    a regularizer is configured.  With one batch, num_steps = 10, K = 3 and
    every window loss equal to L it returns 3 * (L * 0.3) + L * 1 = 1.9 L. *)
Theorem TBPTT_epoch_loss (dl : list (T * T)) (w : W) :
  1 <= K <= num_steps -> well_formed net criterion regularization ->
  exists v sf,
    TBPTT torch net dl num_steps optimizer criterion time_var regularization device K w
      = (Ok (VNum v), sf) /\
    (v == weighted_sum num_steps K 0 (backward_losses (trace sf)))%Q /\
    (weighted_sum num_steps K 0 (backward_losses (trace sf)) ==
     weighted_sum num_steps K 0 (criterion_values criterion (trace sf)) +
     weighted_sum num_steps K 0 (penalty_values regularization (trace sf)))%Q /\
    Z.of_nat (List.length (backward_losses (trace sf))) =
      Z.of_nat (List.length dl) * windows_per_batch num_steps K /\
    Z.of_nat (List.length (criterion_values criterion (trace sf))) =
      Z.of_nat (List.length dl) * windows_per_batch num_steps K /\
    (regularization <> None ->
     Z.of_nat (List.length (penalty_values regularization (trace sf))) =
       Z.of_nat (List.length dl) * windows_per_batch num_steps K) /\
    (forall L : Q,
       num_steps = 10 -> K = 3 -> List.length dl = 1%nat ->
       Forall (fun l => l == L)%Q (backward_losses (trace sf)) ->
       (v == 3 * (L * (3 # 10)) + L * 1)%Q /\ (v == (19 # 10) * L)%Q).
Proof.
  intros HK Hwf.
  pose proof (well_formed_good_env w Hwf) as Hg.
  destruct (run_inv_batches (the_env w) dl w Hg HK)
    as (_ & _ & _ & _ & HlB & HlC & HlP & HB & Hla).
  eexists. eexists.
  split; [apply TBPTT_ok; assumption|].
  split; [exact Hla|]. split; [exact HB|].
  split; [exact HlB|]. split; [exact HlC|].
  split; [destruct regularization; [intros _; exact HlP | intros H; contradiction]|].
  intros L HN HK3 Hlen HL.
  assert (E : (loss_avg (batches_pure (the_env w) dl (started w)) == (19 # 10) * L)%Q).
  { rewrite Hla. clear Hla HB HlC HlP.
    revert HlB HL.
    generalize (backward_losses (trace (batches_pure (the_env w) dl (started w)))).
    rewrite Hlen, HN, HK3. intros l Hl HL.
    change (Z.of_nat 1 * windows_per_batch 10 3) with 4 in Hl.
    destruct l as [|a [|b [|c [|d [|f l]]]]]; cbn [List.length] in Hl; try lia.
    inversion HL as [|? ? Ha HL1]; subst. inversion HL1 as [|? ? Hb0 HL2]; subst.
    inversion HL2 as [|? ? Hc HL3]; subst. inversion HL3 as [|? ? Hd _]; subst.
    cbn [weighted_sum].
    change (window_weight 10 3 0) with (1 / (inject_Z 10 / inject_Z 3))%Q.
    change (window_weight 10 3 1) with (1 / (inject_Z 10 / inject_Z 3))%Q.
    change (window_weight 10 3 2) with (1 / (inject_Z 10 / inject_Z 3))%Q.
    change (window_weight 10 3 3) with (1 / inject_Z (10 mod 3))%Q.
    rewrite Ha, Hb0, Hc, Hd.
    change (1 / (inject_Z 10 / inject_Z 3))%Q with (3 # 10)%Q.
    change (1 / inject_Z (10 mod 3))%Q with 1%Q. ring. }
  split; [rewrite E; ring | exact E].
Qed.

Lemma batch_entry_frame (dl : list (T * T)) (w : W) (b : nat) :
  1 <= K <= num_steps -> well_formed net criterion regularization ->
  (b <= List.length dl)%nat ->
  exists s,
    batch_start dl b w = (Ok (the_env w), s) /\
    between_batches s /\
    K_count s = (if num_steps mod K =? 0 then Z.of_nat b * (num_steps / K) else 0).
Proof.
  intros HK Hwf Hb.
  pose proof (well_formed_good_env w Hwf) as Hg.
  exists (batches_pure (the_env w) (firstn b dl) (started w)).
  split; [apply batch_start_ok; assumption|].
  destruct (run_inv_batches (the_env w) (firstn b dl) w Hg HK) as (Hbb & Hkc & _).
  split; [exact Hbb|].
  rewrite Hkc, firstn_length_le by assumption. reflexivity.
Qed.

Lemma time_varying_targets_resolved (w : W) :
  crit_name criterion = "mse_membrane_loss"%string ->
  crit_time_var_targets criterion = true ->
  time_var_targets (the_env w) = true.
Proof.
  intros Hn Htv. unfold the_env, criterion_loop, criterion_loop_body, criterion_dict.
  cbn [time_var_targets]. rewrite Hn. cbn. exact Htv.
Qed.

(** The target slices by the scheduler's own counter.  With time-varying
    targets, the window closed with [K_count = w] and length L is handed the
    slice targets[w*K : w*K + L]: in a batch entered with [K_count = k0] the
    window number j (from 0) is closed with w = k0 + j and has length K (a
    full window, j < num_steps / K) or num_steps mod K (the remainder
    window), and [k0] is 0 in the first batch and whenever num_steps mod K is
    not 0.  For num_steps = 10 and K = 3 the second window of such a batch is
    handed targets[3:6]. *)
Theorem window_target_slices (dl : list (T * T)) (w : W) (b : nat) (batch : T * T) :
  1 <= K <= num_steps -> well_formed net criterion regularization ->
  crit_name criterion = "mse_membrane_loss"%string ->
  crit_time_var_targets criterion = true ->
  nth_error dl b = Some batch ->
  exists e s s' evs,
    batch_start dl b w = (Ok e, s) /\
    batch_body e batch s = (Ok tt, s') /\
    trace s' = trace s ++ evs /\
    criterion_targets evs =
      map (fun j => slice torch (to torch device (snd batch))
                      ((K_count s + Z.of_nat j) * K)
                      ((K_count s + Z.of_nat j) * K + window_length num_steps K j))
          (seq 0 (Z.to_nat (windows_per_batch num_steps K))) /\
    (forall j, window_length num_steps K j =
               if Z.of_nat j <? num_steps / K then K else num_steps mod K) /\
    (b = 0%nat \/ num_steps mod K <> 0 -> K_count s = 0) /\
    (num_steps = 10 -> K = 3 ->
     nth_error (criterion_targets evs) 1 =
       Some (slice torch (to torch device (snd batch)) 3 6)).
Proof.
  intros HK Hwf Hn Htv Hb.
  pose proof (well_formed_good_env w Hwf) as Hg.
  assert (Hlen : (b <= List.length dl)%nat).
  { apply Nat.lt_le_incl. apply nth_error_Some. congruence. }
  destruct (batch_entry_frame dl w b HK Hwf Hlen) as (s & Hstart & Hs & Hkc).
  destruct (batch_pure_inv (the_env w) batch s Hg HK Hs)
    as (_ & _ & evs & Htr & _ & _ & Htg & _).
  assert (Htg' : criterion_targets evs =
      map (fun j => slice torch (to torch device (snd batch))
                      ((K_count s + Z.of_nat j) * K)
                      ((K_count s + Z.of_nat j) * K + window_length num_steps K j))
          (seq 0 (Z.to_nat (windows_per_batch num_steps K)))).
  { rewrite Htg. apply map_ext. intros j. unfold nth_target.
    rewrite (time_varying_targets_resolved w Hn Htv). reflexivity. }
  assert (Hk0 : b = 0%nat \/ num_steps mod K <> 0 -> K_count s = 0).
  { intros [-> | Hr]; rewrite Hkc.
    - destruct (num_steps mod K =? 0); reflexivity.
    - apply Z.eqb_neq in Hr. rewrite Hr. reflexivity. }
  exists (the_env w), s, (batch_pure (the_env w) device batch s), evs.
  split; [exact Hstart|].
  split; [apply batch_body_ok; assumption|].
  split; [exact Htr|]. split; [exact Htg'|].
  split; [intros j; reflexivity|].
  split; [exact Hk0|].
  intros HN HK3. rewrite Htg', Hk0.
  - rewrite HN, HK3. reflexivity.
  - right. rewrite HN, HK3. discriminate.
Qed.

(** C7. Through the step loop of every batch both truncation buffers hold
    exactly [step_trunc] elements, with [step_trunc = n mod K] after [n]
    steps; a step appends its own spike and membrane output at the end of
    the buffers and raises [step_trunc] by 1, unless that closes the window;
    after a window close, every K steps or for the remainder, both buffers
    are empty and [step_trunc] is 0. *)
Theorem truncation_buffers_track_window (dl : list (T * T)) (w : W) (b : nat)
    (batch : T * T) :
  1 <= K <= num_steps -> well_formed net criterion regularization ->
  nth_error dl b = Some batch ->
  exists e s,
    batch_start dl b w = (Ok e, s) /\
    (forall n, 0 <= n <= num_steps ->
       exists s_n,
         batch_steps e batch n s = (Ok tt, s_n) /\
         step_trunc s_n = n mod K /\
         Z.of_nat (List.length (spk_rec_trunc s_n)) = step_trunc s_n /\
         Z.of_nat (List.length (mem_rec_trunc s_n)) = step_trunc s_n) /\
    (forall n, 0 <= n < num_steps ->
       exists s_n s_n1 spk rest w',
         batch_steps e batch n s = (Ok tt, s_n) /\
         batch_steps e batch (n + 1) s = (Ok tt, s_n1) /\
         net_forward net (world s_n)
           (if time_var then index torch (to torch device (fst batch)) n
            else to torch device (fst batch)) = (spk :: rest, w') /\
         if step_trunc s_n + 1 =? K
         then window_reset s_n1
         else spk_rec_trunc s_n1 = spk_rec_trunc s_n ++ [spk] /\
              mem_rec_trunc s_n1 = mem_rec_trunc s_n ++ [last rest spk] /\
              step_trunc s_n1 = step_trunc s_n + 1) /\
    (exists s', batch_body e batch s = (Ok tt, s') /\ window_reset s') /\
    (forall targets, ensures window_reset (close_window e targets)) /\
    (forall targets, ensures window_reset (close_remainder e targets)).
Proof.
  intros HK Hwf Hb.
  pose proof (well_formed_good_env w Hwf) as Hg.
  assert (Hlen : (b <= List.length dl)%nat).
  { apply Nat.lt_le_incl. apply nth_error_Some. congruence. }
  destruct (batch_entry_frame dl w b HK Hwf Hlen) as (s & Hstart & Hs & _).
  set (data := to torch device (fst batch)). set (targets := to torch device (snd batch)).
  exists (the_env w), s.
  split; [exact Hstart|].
  split.
  { intros n Hn.
    destruct (steps_pure_inv (the_env w) data targets (batch_head s) n Hg ltac:(lia)
                (between_batches_head s Hs) ltac:(lia))
      as (Hst & Hspk & Hmem & _).
    eexists. split; [apply batch_steps_ok; [assumption | lia]|].
    fold data targets. rewrite Hst. repeat split; assumption. }
  split.
  { intros n Hn.
    set (s_n := steps_pure (the_env w) data targets n (batch_head s)).
    destruct (stepped_spec (the_env w) data n s_n Hg) as (spk & r & w' & Hf & Hs1).
    exists s_n, (step_pure (the_env w) data targets s_n n), spk, r, w'.
    split; [apply batch_steps_ok; [assumption | lia]|].
    split.
    { rewrite batch_steps_ok by (assumption || lia). fold data targets.
      rewrite steps_pure_succ by lia. reflexivity. }
    split; [exact Hf|].
    unfold step_pure. rewrite Hs1. cbn [step_trunc].
    destruct (step_trunc s_n + 1 =? K).
    - repeat split.
    - repeat split. }
  split.
  { exists (batch_pure (the_env w) device batch s).
    split; [apply batch_body_ok; assumption|].
    destruct (batch_pure_between (the_env w) batch s Hg HK Hs) as (H1 & H2 & H3 & _).
    repeat split; assumption. }
  split; intros tg; [apply close_window_resets | apply close_remainder_resets].
Qed.

Lemma TBPTT_never_TypeError (dl : list (T * T)) (w : W) :
  fst (TBPTT torch net dl num_steps optimizer criterion time_var regularization device K w)
    <> Raise TypeError_criterion.
Proof.
  destruct (Z_le_gt_dec K num_steps) as [HK | HK].
  - intros H. exact (TBPTT_raises dl w _ HK H).
  - unfold TBPTT, TBPTT_K, TBPTT_body, bind. rewrite preamble_raises by assumption.
    discriminate.
Qed.

(** C8, as amended.  TBPTT raises the ValueError of line 93 exactly when
    K > num_steps, and then nothing has been done: the frame is the one the
    call was entered with, its trace is empty and the world is untouched. *)
Theorem TBPTT_rejects_large_K (dl : list (T * T)) (w : W) :
  (fst (TBPTT torch net dl num_steps optimizer criterion time_var regularization
              device K w) = Raise ValueError_K <-> K > num_steps) /\
  (K > num_steps ->
   TBPTT torch net dl num_steps optimizer criterion time_var regularization device K w
     = (Raise ValueError_K, entry w)) /\
  trace (@entry T W w) = [] /\ world (@entry T W w) = w.
Proof.
  assert (Hraise : K > num_steps ->
    TBPTT torch net dl num_steps optimizer criterion time_var regularization device K w
      = (Raise ValueError_K, entry w)).
  { intros HK. unfold TBPTT, TBPTT_K, TBPTT_body, bind.
    rewrite preamble_raises by assumption. reflexivity. }
  split; [|split; [exact Hraise | split; reflexivity]].
  split.
  - intros H. destruct (Z_le_gt_dec K num_steps) as [HK | HK]; [|exact HK].
    exfalso. exact (TBPTT_raises dl w _ HK H).
  - intros HK. rewrite (Hraise HK). reflexivity.
Qed.

End Scheduler.

(** C9. BPTT is TBPTT with K = num_steps, and with that K the block after
    the step loop never closes a remainder window: it leaves the frame as it
    found it.  RTRL is TBPTT with K = 1. *)
Theorem BPTT_RTRL_are_TBPTT {T W : Type} (torch : Torch T W) (net : Network T W)
    (dataloader : list (T * T)) (num_steps : Z) (optimizer : Optimizer W)
    (criterion : Criterion T) (time_var : bool) (regularization : option (Regularizer T))
    (device : string) (w : W) :
  BPTT torch net dataloader num_steps optimizer criterion time_var regularization device w
    = TBPTT torch net dataloader num_steps optimizer criterion time_var regularization
            device num_steps w /\
  RTRL torch net dataloader num_steps optimizer criterion time_var regularization device w
    = TBPTT torch net dataloader num_steps optimizer criterion time_var regularization
            device 1 w /\
  (forall (e : env) (targets : T) (s : frame T W),
     snd (after_steps torch net num_steps optimizer criterion regularization num_steps
                      e targets s) = s).
Proof.
  split; [reflexivity|]. split; [reflexivity|].
  intros e targets s. unfold after_steps, bind, gets, local.
  destruct (step s) as [i|]; [|reflexivity].
  unfold ret. destruct (i =? num_steps - 1); [|reflexivity].
  destruct (num_steps =? 0) eqn:E0; [reflexivity|].
  apply Z.eqb_neq in E0. rewrite Z.mod_same by assumption. reflexivity.
Qed.

(** C10, as amended.  On every input BPTF returns None without raising: it
    does nothing (the frame is the one of entry, with an empty trace and the
    world untouched), and its outcome is never that of TBPTT, which returns
    a number or raises. *)
Theorem BPTF_is_a_stub {T W : Type} (torch : Torch T W) (net : Network T W)
    (dataloader : list (T * T)) (num_steps : Z) (optimizer : Optimizer W)
    (criterion : Criterion T) (time_var : bool) (regularization : option (Regularizer T))
    (device : string) (K : Z) (w : W) :
  BPTF torch net dataloader num_steps optimizer criterion time_var regularization device K w
    = (Ok VNone, entry w) /\
  trace (@entry T W w) = [] /\ world (@entry T W w) = w /\
  BPTF torch net dataloader num_steps optimizer criterion time_var regularization device K w
    <> TBPTT torch net dataloader num_steps optimizer criterion time_var regularization
             device K w.
Proof.
  split; [reflexivity|]. split; [reflexivity|]. split; [reflexivity|].
  intros H.
  apply (TBPTT_returns_number torch net num_steps optimizer criterion time_var
           regularization device K dataloader w).
  rewrite <- H. reflexivity.
Qed.

(** * The claims on the one-neuron instance *)

Ltac leaky_well_formed :=
  repeat split;
  [ cbn; tauto
  | intros reg H; try discriminate H; injection H as <-; cbn; tauto
  | cbn; lia
  | cbn; lia ].

(** C1 at num_steps = 10, K = 3: four updates in the batch. *)
Lemma TBPTT_updates_per_batch_witness :
  1 <= 3 <= 10 /\
  well_formed Leaky1.net Leaky1.rate None /\
  nth_error [Leaky1.batch] 0 = Some Leaky1.batch /\
  exists e s s' evs,
    batch_start Leaky1.torch Leaky1.net 10 Leaky1.sgd Leaky1.rate true None "cpu" 3
                [Leaky1.batch] 0 0 = (Ok e, s) /\
    batch_body Leaky1.torch Leaky1.net 10 Leaky1.sgd Leaky1.rate true None "cpu" 3
               e Leaky1.batch s = (Ok tt, s') /\
    trace s' = trace s ++ evs /\
    optimizer_steps evs = 4.
Proof.
  assert (H1 : 1 <= 3 <= 10) by lia.
  assert (H2 : well_formed Leaky1.net Leaky1.rate None) by leaky_well_formed.
  assert (H3 : nth_error [Leaky1.batch] 0 = Some Leaky1.batch) by reflexivity.
  split; [exact H1|]. split; [exact H2|]. split; [exact H3|].
  destruct (TBPTT_updates_per_batch Leaky1.torch Leaky1.net 10 Leaky1.sgd Leaky1.rate true
              None "cpu" 3 [Leaky1.batch] 0 0%nat Leaky1.batch H1 H2 H3)
    as (e & s & s' & evs & A & B & C & D & _).
  exists e, s, s', evs. repeat split; assumption.
Defined.

(** C2 at num_steps = 10, K = 3, every window loss 1/2: the call returns
    1.9 * 1/2. *)
Lemma TBPTT_epoch_loss_witness :
  1 <= 3 <= 10 /\
  well_formed Leaky1.net Leaky1.rate None /\
  exists v sf,
    TBPTT Leaky1.torch Leaky1.net [Leaky1.batch] 10 Leaky1.sgd Leaky1.rate true None
          "cpu" 3 0 = (Ok (VNum v), sf) /\
    backward_losses (trace sf) = [1 # 2; 1 # 2; 1 # 2; 1 # 2]%Q /\
    (v == (19 # 10) * (1 # 2))%Q.
Proof.
  assert (H1 : 1 <= 3 <= 10) by lia.
  assert (H2 : well_formed Leaky1.net Leaky1.rate None) by leaky_well_formed.
  split; [exact H1|]. split; [exact H2|].
  destruct (TBPTT_epoch_loss Leaky1.torch Leaky1.net 10 Leaky1.sgd Leaky1.rate true
              None "cpu" 3 [Leaky1.batch] 0 H1 H2)
    as (v & sf & A & _ & _ & _ & _ & _ & Hex).
  exists v, sf.
  assert (B : backward_losses (trace sf) = [1 # 2; 1 # 2; 1 # 2; 1 # 2]%Q).
  { vm_compute in A. injection A as _ <-. reflexivity. }
  split; [exact A|]. split; [exact B|].
  apply (Hex (1 # 2)%Q); try reflexivity.
  rewrite B. repeat constructor.
Defined.

(** At num_steps = 10, K = 3, targets 0..9: the second window of the first
    batch is handed [3; 4; 5]. *)
Lemma window_target_slices_witness :
  1 <= 3 <= 10 /\
  well_formed Leaky1.net Leaky1.membrane None /\
  crit_name Leaky1.membrane = "mse_membrane_loss"%string /\
  crit_time_var_targets Leaky1.membrane = true /\
  nth_error [Leaky1.batch] 0 = Some Leaky1.batch /\
  exists e s s' evs,
    batch_start Leaky1.torch Leaky1.net 10 Leaky1.sgd Leaky1.membrane true None "cpu" 3
                [Leaky1.batch] 0 0 = (Ok e, s) /\
    batch_body Leaky1.torch Leaky1.net 10 Leaky1.sgd Leaky1.membrane true None "cpu" 3
               e Leaky1.batch s = (Ok tt, s') /\
    trace s' = trace s ++ evs /\
    nth_error (criterion_targets evs) 1 = Some [3; 4; 5].
Proof.
  assert (H1 : 1 <= 3 <= 10) by lia.
  assert (H2 : well_formed Leaky1.net Leaky1.membrane None) by leaky_well_formed.
  assert (H3 : crit_name Leaky1.membrane = "mse_membrane_loss"%string) by reflexivity.
  assert (H4 : crit_time_var_targets Leaky1.membrane = true) by reflexivity.
  assert (H5 : nth_error [Leaky1.batch] 0 = Some Leaky1.batch) by reflexivity.
  split; [exact H1|]. split; [exact H2|]. split; [exact H3|]. split; [exact H4|].
  split; [exact H5|].
  destruct (window_target_slices Leaky1.torch Leaky1.net 10 Leaky1.sgd Leaky1.membrane
              true None "cpu" 3 [Leaky1.batch] 0 0%nat Leaky1.batch H1 H2 H3 H4 H5)
    as (e & s & s' & evs & A & B & C & _ & _ & _ & D).
  exists e, s, s', evs.
  split; [exact A|]. split; [exact B|]. split; [exact C|].
  exact (D eq_refl eq_refl).
Defined.

(** C7 at num_steps = 10, K = 3: after 5 steps both buffers hold 2 elements. *)
Lemma truncation_buffers_track_window_witness :
  1 <= 3 <= 10 /\
  well_formed Leaky1.net Leaky1.rate None /\
  nth_error [Leaky1.batch] 0 = Some Leaky1.batch /\
  exists e s s_n,
    batch_start Leaky1.torch Leaky1.net 10 Leaky1.sgd Leaky1.rate true None "cpu" 3
                [Leaky1.batch] 0 0 = (Ok e, s) /\
    batch_steps Leaky1.torch Leaky1.net 10 Leaky1.sgd Leaky1.rate true None "cpu" 3
                e Leaky1.batch 5 s = (Ok tt, s_n) /\
    step_trunc s_n = 2 /\
    Z.of_nat (List.length (spk_rec_trunc s_n)) = 2 /\
    Z.of_nat (List.length (mem_rec_trunc s_n)) = 2.
Proof.
  assert (H1 : 1 <= 3 <= 10) by lia.
  assert (H2 : well_formed Leaky1.net Leaky1.rate None) by leaky_well_formed.
  assert (H3 : nth_error [Leaky1.batch] 0 = Some Leaky1.batch) by reflexivity.
  split; [exact H1|]. split; [exact H2|]. split; [exact H3|].
  destruct (truncation_buffers_track_window Leaky1.torch Leaky1.net 10 Leaky1.sgd
              Leaky1.rate true None "cpu" 3 [Leaky1.batch] 0 0%nat Leaky1.batch H1 H2 H3)
    as (e & s & A & B & _).
  destruct (B 5 ltac:(lia)) as (s_n & B1 & B2 & B3 & B4).
  exists e, s, s_n.
  split; [exact A|]. split; [exact B1|].
  change (5 mod 3) with 2 in B2. rewrite B2 in B3, B4.
  repeat split; assumption.
Defined.

(** C8, as amended, at K = 11, num_steps = 10. *)
Lemma TBPTT_rejects_large_K_witness :
  11 > 10 /\
  TBPTT Leaky1.torch Leaky1.net [Leaky1.batch] 10 Leaky1.sgd Leaky1.rate true None
        "cpu" 11 0 = (Raise ValueError_K, entry 0).
Proof.
  assert (H : 11 > 10) by lia.
  split; [exact H|].
  exact (proj1 (proj2 (TBPTT_rejects_large_K Leaky1.torch Leaky1.net 10 Leaky1.sgd
                         Leaky1.rate true None "cpu" 11 [Leaky1.batch] 0)) H).
Defined.

(** C8 as stated fails: K = 0 breaks 1 <= K <= num_steps, yet the error that
    is raised is the ZeroDivisionError of [num_steps % K], after a forward
    pass. *)
Lemma K_zero_is_not_rejected :
  ~ (fst (TBPTT Leaky1.torch Leaky1.net [Leaky1.short_batch] 1 Leaky1.sgd Leaky1.rate
               true None "cpu" 0 0) = Raise ValueError_K <-> ~ (1 <= 0 <= 1)).
Proof.
  intros [_ H]. assert (H0 : ~ (1 <= 0 <= 1)) by lia.
  specialize (H H0). vm_compute in H. discriminate H.
Qed.

(** C10 as stated fails: BPTF raises nothing. *)
Lemma BPTF_raises_nothing :
  ~ (fst (BPTF Leaky1.torch Leaky1.net [Leaky1.batch] 10 Leaky1.sgd Leaky1.rate true None
               "cpu" 3 0) = Raise NotImplementedError).
Proof. intros H. vm_compute in H. discriminate H. Qed.

(** C3 on the code.  A criterion named "unknown_loss" is not rejected: the
    counter of lines 128-137 is decremented once per key whatever the name,
    so it is 0 after the loop and the TypeError of line 138 is never raised.
    The call goes on to the forward passes of the first window and stops at
    its close, on the unbound [loss_spk]. *)
Theorem unknown_criterion_is_not_rejected :
  fst (TBPTT Leaky1.torch Leaky1.net [Leaky1.short_batch] 2 Leaky1.sgd Leaky1.unknown_loss
             true None "cpu" 2 0) = Raise (UnboundLocalError "loss_spk") /\
  forward_passes (trace (snd (TBPTT Leaky1.torch Leaky1.net [Leaky1.short_batch] 2
                                    Leaky1.sgd Leaky1.unknown_loss true None "cpu" 2 0)))
    = 2 /\
  snd (criterion_loop Leaky1.unknown_loss) = 0.
Proof. repeat split; vm_compute; reflexivity. Qed.

(** C6 on the code.  With K dividing num_steps the window counter is not
    back at 0 when the second batch starts: here num_steps = K = 2, and the
    second batch is entered with K_count = 1, so that its only window is
    handed targets[2:4], which is empty, where the first batch was handed
    targets[0:2]. *)
Theorem K_count_is_carried_into_the_next_batch :
  K_count (snd (batch_start Leaky1.torch Leaky1.net 2 Leaky1.sgd Leaky1.membrane true None
                            "cpu" 2 [Leaky1.short_batch; Leaky1.short_batch] 1 0)) = 1 /\
  criterion_targets
    (trace (snd (TBPTT Leaky1.torch Leaky1.net [Leaky1.short_batch; Leaky1.short_batch] 2
                       Leaky1.sgd Leaky1.membrane true None "cpu" 2 0)))
    = [[0; 1]; []].
Proof. split; vm_compute; reflexivity. Qed.

(** C4 on the code.  A regularizer named "unknown_reg" is not ignored.  Its
    name is looked up without an error and [reg_spk] stays unbound (lines
    142-145), but lines 227 and 276 test the regularizer itself, not whether
    its name was found: at the first window close the criterion is called,
    then [reg_spk] is read and the call stops with an UnboundLocalError.
    No optimizer step has been made and the regularizer has not been called.
    The same run with no regularizer returns its epoch loss, 1/2. *)
Theorem unknown_regularizer_is_not_ignored :
  regularization_loop (Some Leaky1.unknown_reg) = None /\
  fst (TBPTT Leaky1.torch Leaky1.net [Leaky1.short_batch] 2 Leaky1.sgd Leaky1.rate true
             (Some Leaky1.unknown_reg) "cpu" 2 0) = Raise (UnboundLocalError "reg_spk") /\
  trace (snd (TBPTT Leaky1.torch Leaky1.net [Leaky1.short_batch] 2 Leaky1.sgd Leaky1.rate
                    true (Some Leaky1.unknown_reg) "cpu" 2 0))
    = [EvReset; EvNetTo "cpu"; EvIter; EvTrain; EvReset; EvForward [1]; EvForward [1];
       EvCriterion [0; 1] [0; 1]] /\
  (exists v,
     fst (TBPTT Leaky1.torch Leaky1.net [Leaky1.short_batch] 2 Leaky1.sgd Leaky1.rate true
                None "cpu" 2 0) = Ok (VNum v) /\
     (v == 1 # 2)%Q).
Proof.
  split; [reflexivity|]. split; [vm_compute; reflexivity|].
  split; [vm_compute; reflexivity|].
  eexists. split; vm_compute; reflexivity.
Qed.

(** C5 on the code.  With time-varying targets, num_steps = 4, K = 2 and two
    batches with targets [0; 1; 2; 3], the windows of the first batch are
    handed targets[0:2] and targets[2:4], as claimed.  The second batch is
    entered with K_count = 2, not 0 (K divides num_steps, so the counter is
    never put back): its windows with index 0 and 1 are handed targets[4:6]
    and targets[6:8], both empty, where the claim gives targets[0:2] and
    targets[2:4]. *)
Theorem later_batches_are_sliced_from_the_wrong_offset :
  criterion_targets
    (trace (snd (TBPTT Leaky1.torch Leaky1.net [Cases.four_steps; Cases.four_steps] 4
                       Leaky1.sgd Leaky1.membrane true None "cpu" 2 0)))
    = [[0; 1]; [2; 3]; []; []] /\
  K_count (snd (batch_start Leaky1.torch Leaky1.net 4 Leaky1.sgd Leaky1.membrane true None
                            "cpu" 2 [Cases.four_steps; Cases.four_steps] 1 0)) = 2 /\
  slice Leaky1.torch (snd Cases.four_steps) (0 * 2) (0 * 2 + 2) = [0; 1] /\
  slice Leaky1.torch (snd Cases.four_steps) (1 * 2) (1 * 2 + 2) = [2; 3] /\
  slice Leaky1.torch (snd Cases.four_steps) (2 * 2) (2 * 2 + 2) = [] /\
  slice Leaky1.torch (snd Cases.four_steps) (3 * 2) (3 * 2 + 2) = [].
Proof. repeat split; vm_compute; reflexivity. Qed.

(** * Further properties of the scheduler *)

(** ** [_rec_trunc] *)

(** Handed two lists, [_rec_trunc] returns None and appends each output at
    most once, at the end of its own list: the spike output when the
    criterion reads spikes or, with a regularizer, the regularizer does; the
    membrane output whenever there is a regularizer, and otherwise when the
    criterion does not read spikes. *)
Theorem rec_trunc_appends {T : Type} (spk mem : T)
    (regularization : option (Regularizer T)) (loss_spk reg_spk : bool)
    (sb mb : list T) :
  _rec_trunc spk mem regularization loss_spk reg_spk (mkBuffers (Some sb) (Some mb)) =
  (ReturnsNone,
   mkBuffers
     (Some (sb ++ if records_spk regularization loss_spk reg_spk then [spk] else []))
     (Some (mb ++ if records_mem regularization loss_spk then [mem] else []))).
Proof.
  unfold _rec_trunc, records_spk, records_mem, and_then, spk_append, mem_append, pass.
  destruct regularization as [reg|], loss_spk, reg_spk;
    cbn [andb orb negb Bool.eqb spk_buffer mem_buffer];
    rewrite ?app_nil_r; reflexivity.
Qed.

(** [_rec_trunc] returns None exactly when every buffer it is to append to
    is a list; a buffer left at its default makes it raise, and with both
    buffers at their default every call raises and leaves them as they were.
    The failure is not atomic: with a regularizer, a list for the spikes and
    the default for the membrane, the spike that was due is appended before
    the call raises. *)
Theorem rec_trunc_raises_on_default_buffer {T : Type} (spk mem : T)
    (regularization : option (Regularizer T)) (loss_spk reg_spk : bool) :
  (forall b : buffers T,
     fst (_rec_trunc spk mem regularization loss_spk reg_spk b) = ReturnsNone <->
     (records_spk regularization loss_spk reg_spk = true -> spk_buffer b <> None) /\
     (records_mem regularization loss_spk = true -> mem_buffer b <> None)) /\
  _rec_trunc spk mem regularization loss_spk reg_spk (mkBuffers None None) =
    (AttributeError, mkBuffers None None) /\
  (forall (reg : Regularizer T) (sb : list T),
     _rec_trunc spk mem (Some reg) loss_spk reg_spk (mkBuffers (Some sb) None) =
     (AttributeError,
      mkBuffers (Some (sb ++ if loss_spk || reg_spk then [spk] else [])) None)).
Proof.
  split; [|split].
  - intros [[sb|] [mb|]];
      unfold _rec_trunc, records_spk, records_mem, and_then, spk_append, mem_append, pass;
      destruct regularization as [reg|], loss_spk, reg_spk;
      cbn [andb orb negb Bool.eqb spk_buffer mem_buffer fst];
      (split; [intros H; split; intros H1; congruence
              | intros [H1 H2]; try reflexivity;
                try (exfalso; apply H1; reflexivity);
                try (exfalso; apply H2; reflexivity)]).
  - unfold _rec_trunc, and_then, spk_append, mem_append, pass.
    destruct regularization as [reg|], loss_spk, reg_spk; reflexivity.
  - intros reg sb. unfold _rec_trunc, and_then, spk_append, mem_append, pass.
    destruct loss_spk, reg_spk;
      cbn [andb orb negb Bool.eqb spk_buffer mem_buffer];
      rewrite ?app_nil_r; reflexivity.
Qed.

(** ** [neurons_dict] *)

(** The five flags are the keys of [neurons_dict], so the dict has one entry
    per truth value and a later class replaces an earlier one under the same
    flag: at a window close [detach_hidden] is called for one class at most,
    the last of Lapicque, Leaky, Synaptic, Alpha, Stein whose flag is set
    after the reset of line 97.  The environment is the one lines 92-159
    bind. *)
Theorem detach_only_last_flagged {T W : Type} (net : Network T W) (num_steps : Z)
    (criterion : Criterion T) (regularization : option (Regularizer T))
    (device : string) (K : Z) (w : W) (s : frame T W) :
  (forall e s0,
     preamble net num_steps criterion regularization device K (entry w) = (Ok e, s0) ->
     e = the_env net criterion regularization w) /\
  detach_all net (the_env net criterion regularization w) s =
  (Ok tt,
   match last_flagged (utils_is net (utils_reset net w)) with
   | Some c => effect (EvDetach c) (detach_hidden net c) s
   | None => s
   end).
Proof.
  split.
  - intros e s0 H. destruct (Z_le_gt_dec K num_steps) as [HK | HK].
    + rewrite preamble_ok in H by assumption. injection H as <- _. reflexivity.
    + rewrite preamble_raises in H by assumption. discriminate H.
  - unfold detach_all, the_env, make_neurons_dict, last_flagged.
    cbn [neurons_dict fold_left].
    destruct (utils_is net (utils_reset net w) Lapicque),
             (utils_is net (utils_reset net w) Leaky),
             (utils_is net (utils_reset net w) Synaptic),
             (utils_is net (utils_reset net w) Alpha),
             (utils_is net (utils_reset net w) Stein);
      cbn [dict_set Bool.eqb for_each fst snd];
      unfold bind, modify, ret; destruct s; reflexivity.
Qed.

(** ** Runs that do not reach a window *)

Lemma range_nonpos (n : Z) : n <= 0 -> range n = [].
Proof.
  intros H. unfold range. replace (Z.to_nat n) with 0%nat by lia. reflexivity.
Qed.

Lemma range_split (k n : Z) : 0 <= k < n -> exists r, range n = range k ++ k :: r.
Proof.
  intros H. unfold range.
  replace (Z.to_nat n) with (Z.to_nat k + S (Z.to_nat (n - k - 1)))%nat by lia.
  rewrite seq_app, map_app. cbn [seq map Nat.add].
  rewrite Z2Nat.id by lia. eexists. reflexivity.
Qed.

Ltac frame_cbn :=
  cbn [step step_trunc K_count loss_trunc loss_avg mem_rec_trunc spk_rec_trunc
       world trace set_step set_step_trunc set_K_count set_loss_trunc set_loss_avg
       set_mem_rec_trunc set_spk_rec_trunc effect app fst snd].

Section Boundaries.

Context {T W : Type}.
Variable torch : Torch T W.
Variable net : Network T W.
Variable num_steps : Z.
Variable optimizer : Optimizer W.
Variable criterion : Criterion T.
Variable time_var : bool.
Variable regularization : option (Regularizer T).
Variable device : string.
Variable K : Z.

Local Abbreviation the_env := (the_env net criterion regularization).
Local Abbreviation started := (started net device).
Local Abbreviation batch_head := (batch_head net).
Local Abbreviation step_body :=
  (step_body torch net num_steps optimizer criterion time_var regularization K).
Local Abbreviation step_loop :=
  (step_loop torch net num_steps optimizer criterion time_var regularization K).
Local Abbreviation close_window :=
  (close_window torch net num_steps optimizer criterion regularization K).
Local Abbreviation batch_body :=
  (batch_body torch net num_steps optimizer criterion time_var regularization device
   K).
Local Abbreviation batch_loop :=
  (batch_loop torch net num_steps optimizer criterion time_var regularization device
   K).
Local Abbreviation stepped := (stepped torch net time_var).
Local Abbreviation open_steps := (open_steps torch net time_var).
Local Abbreviation step_input := (step_input torch time_var).

(** A dataloader that yields no batch: whatever the criterion, the
    regularizer and the network, TBPTT with K <= num_steps returns 0 after
    resetting the network, moving it to the device and asking the dataloader
    for its iterator; nothing is trained. *)
Theorem TBPTT_empty_dataloader (w : W) :
  K <= num_steps ->
  exists sf,
    TBPTT torch net [] num_steps optimizer criterion time_var regularization device K w
      = (Ok (VNum 0), sf) /\
    trace sf = [EvReset; EvNetTo device; EvIter] /\
    world sf = net_to net device (utils_reset net w).
Proof.
  intros HK. exists (started w). split; [|split; reflexivity].
  unfold TBPTT, TBPTT_K, TBPTT_body, bind. rewrite preamble_ok by assumption.
  reflexivity.
Qed.

(** No time step: with num_steps <= 0 (and K <= num_steps) the step loop of
    the first batch does not run, [step] is never bound, and the test of
    line 252 stops the call with an UnboundLocalError before any forward
    pass. *)
Theorem TBPTT_without_steps (batch : T * T) (rest : list (T * T)) (w : W) :
  num_steps <= 0 -> K <= num_steps ->
  exists sf,
    TBPTT torch net (batch :: rest) num_steps optimizer criterion time_var regularization
          device K w = (Raise (UnboundLocalError "step"), sf) /\
    trace sf = [EvReset; EvNetTo device; EvIter; EvTrain; EvReset].
Proof.
  intros HN HK. eexists. split.
  - unfold TBPTT, TBPTT_K, TBPTT_body, bind. rewrite preamble_ok by assumption.
    unfold modify, batch_loop. cbn [for_each].
    unfold bind, batch_body, batch_steps, bind, modify, step_loop.
    rewrite range_nonpos by assumption. cbn [for_each].
    unfold ret, after_steps, bind, gets, local. frame_cbn. unfold entry. cbn [step].
    unfold raise. reflexivity.
  - reflexivity.
Qed.

(** A network whose final layer is not announced to return 2, 3 or 4 values
    (a plain layer returning one, say) is not supported: none of the three
    branches of lines 170-186 runs, and the first time step stops on the
    unbound [spk] without a forward pass. *)
Theorem unsupported_output_count (batch : T * T) (rest : list (T * T)) (w : W) :
  1 <= num_steps -> K <= num_steps ->
  ~ (2 <= final_layer_check net (utils_reset net w) <= 4) ->
  exists sf,
    TBPTT torch net (batch :: rest) num_steps optimizer criterion time_var regularization
          device K w = (Raise (UnboundLocalError "spk"), sf) /\
    trace sf = [EvReset; EvNetTo device; EvIter; EvTrain; EvReset].
Proof.
  intros HN HK Hnr.
  destruct (range_split 0 num_steps ltac:(lia)) as [r Hr]. cbn [app] in Hr.
  change (range 0) with (@nil Z) in Hr. cbn [app] in Hr.
  eexists. split.
  - unfold TBPTT, TBPTT_K, TBPTT_body, bind. rewrite preamble_ok by assumption.
    unfold modify, batch_loop. cbn [for_each].
    unfold bind, batch_body, batch_steps, bind, modify, step_loop.
    rewrite Hr. cbn [for_each]. unfold bind, step_body, bind, modify, net_call.
    unfold the_env. cbn [num_return].
    set (nr := final_layer_check net (utils_reset net w)) in *.
    assert (E2 : (nr =? 2) = false) by lia.
    assert (E3 : (nr =? 3) = false) by lia.
    assert (E4 : (nr =? 4) = false) by lia.
    rewrite E2, E3, E4. reflexivity.
  - reflexivity.
Qed.

(** ** Steps that close no window *)

Lemma for_each_raises_at {A : Type} (xs r : list A) (x : A) (body : A -> M T W unit)
    (s s1 s2 : frame T W) (ex : exn) :
  for_each xs body s = (Ok tt, s1) -> body x s1 = (Raise ex, s2) ->
  for_each (xs ++ x :: r) body s = (Raise ex, s2).
Proof.
  intros H1 H2. rewrite for_each_app. unfold bind. rewrite H1.
  cbn [for_each]. unfold bind. rewrite H2. reflexivity.
Qed.

Lemma TBPTT_first_batch_raises (batch : T * T) (rest : list (T * T)) (w : W)
    (ex : exn) (sf : frame T W) :
  K <= num_steps ->
  batch_body (the_env w) batch (started w) = (Raise ex, sf) ->
  TBPTT torch net (batch :: rest) num_steps optimizer criterion time_var regularization
        device K w = (Raise ex, sf).
Proof.
  intros HK H. unfold TBPTT, TBPTT_K, TBPTT_body, bind.
  rewrite preamble_ok by assumption.
  unfold modify, batch_loop. cbn [for_each]. unfold bind.
  fold (started w). rewrite H. reflexivity.
Qed.

Lemma forward_events_read (f : Z -> T) (l : list Z) :
  forward_passes (map (fun i => EvForward (f i)) l) = Z.of_nat (List.length l) /\
  optimizer_steps (map (fun i => EvForward (f i)) l) = 0 /\
  criterion_targets (map (fun i => EvForward (f i)) l) = [] /\
  backward_losses (map (fun i => EvForward (f i)) l) = [].
Proof.
  induction l as [|i l (H1 & H2 & H3 & H4)].
  - repeat split; reflexivity.
  - cbn [map]. change (EvForward (f i) :: map (fun i => EvForward (f i)) l)
      with ([EvForward (f i)] ++ map (fun i => EvForward (f i)) l).
    rewrite forward_passes_app, optimizer_steps_app, criterion_targets_app,
      backward_losses_app, H1, H2, H3, H4.
    cbn [List.length]. repeat split; try reflexivity.
    change (forward_passes [EvForward (f i)]) with 1. lia.
Qed.

Lemma range_length (n : Z) : 0 <= n -> Z.of_nat (List.length (range n)) = n.
Proof. intros H. unfold range. rewrite length_map, length_seq. lia. Qed.

Section OpenSteps.

Variable e : env.
Hypothesis Hnr : 2 <= num_return e <= 4.
Hypothesis Har :
  forall w x, List.length (fst (net_forward net w x)) = Z.to_nat (num_return e).

Lemma outputs_env :
  good_env net None (mkEnv (neurons_dict e) (Some true) false None (num_return e)).
Proof.
  repeat split; cbn [loss_spk reg_spk num_return]; try apply Hnr; try apply Har.
  - exists true. reflexivity.
  - intros reg H. discriminate H.
Qed.

Lemma step_body_unfold (data targets : T) (i : Z) (s : frame T W) :
  step_body e data targets i s =
  if step_trunc s + 1 =? K
  then close_window e targets (stepped data i s)
  else (Ok tt, stepped data i s).
Proof.
  unfold step_body, stepped, net_call, forward.
  set (x := if time_var then index torch data i else data).
  destruct (forward_outputs net None _ (world s) x outputs_env)
    as (spk & r & w' & Hf & Hr).
  cbn [num_return] in Hr.
  unfold bind, gets, modify, ret, raise; frame_cbn. rewrite !Hf.
  destruct Hr as [[Hn (m & ->)] | [[Hn (a & m & ->)] | [Hn (a & b & m & ->)]]];
    rewrite Hn; cbn [Z.eqb Pos.eqb last]; frame_cbn; rewrite ?Hf; frame_cbn;
    destruct (step_trunc s + 1 =? K); reflexivity.
Qed.

Lemma stepped_frame (data : T) (i : Z) (s : frame T W) :
  exists spk r w',
    stepped data i s =
      mkFrame (Some i) (step_trunc s + 1) (K_count s) (loss_trunc s) (loss_avg s)
              (mem_rec_trunc s ++ [last r spk]) (spk_rec_trunc s ++ [spk]) w'
              (trace s ++ [EvForward (step_input data i)]).
Proof.
  destruct (stepped_spec torch net time_var None _ data i s outputs_env)
    as (spk & r & w' & _ & H).
  exists spk, r, w'. exact H.
Qed.

Lemma open_steps_succ (data : T) (n : Z) (s : frame T W) :
  0 <= n -> open_steps data (n + 1) s = stepped data n (open_steps data n s).
Proof.
  intros Hn. unfold open_steps. rewrite range_succ by assumption.
  rewrite fold_left_app. reflexivity.
Qed.

Lemma open_steps_spec (data : T) (n : Z) (s : frame T W) :
  0 <= n ->
  step_trunc (open_steps data n s) = step_trunc s + n /\
  K_count (open_steps data n s) = K_count s /\
  loss_trunc (open_steps data n s) = loss_trunc s /\
  loss_avg (open_steps data n s) = loss_avg s /\
  (0 < n -> step (open_steps data n s) = Some (n - 1)) /\
  Z.of_nat (List.length (spk_rec_trunc (open_steps data n s))) =
    Z.of_nat (List.length (spk_rec_trunc s)) + n /\
  Z.of_nat (List.length (mem_rec_trunc (open_steps data n s))) =
    Z.of_nat (List.length (mem_rec_trunc s)) + n /\
  trace (open_steps data n s) =
    trace s ++ map (fun i => EvForward (step_input data i)) (range n).
Proof.
  intros Hn. rewrite <- (Z2Nat.id n Hn). induction (Z.to_nat n) as [|m IH].
  - change (Z.of_nat 0) with 0. unfold open_steps. change (range 0) with (@nil Z).
    cbn [fold_left map]. rewrite app_nil_r, !Z.add_0_r.
    repeat split; try reflexivity. lia.
  - rewrite Nat2Z.inj_succ, <- Z.add_1_r.
    rewrite open_steps_succ by lia. rewrite range_succ by lia.
    destruct IH as (I1 & I2 & I3 & I4 & I5 & I6 & I7 & I8).
    destruct (stepped_frame data (Z.of_nat m) (open_steps data (Z.of_nat m) s))
      as (spk & r & w' & ->).
    frame_cbn. rewrite !length_app, map_app, I8, <- app_assoc. cbn [List.length map].
    split; [lia|]. split; [assumption|]. split; [assumption|]. split; [assumption|].
    split; [intros _; f_equal; lia|]. split; [lia|]. split; [lia|]. reflexivity.
Qed.

Lemma step_loop_open (data targets : T) (n : Z) (s : frame T W) :
  0 <= n -> (forall j, 0 <= j < n -> step_trunc s + j + 1 <> K) ->
  step_loop e data targets n s = (Ok tt, open_steps data n s).
Proof.
  intros Hn. rewrite <- (Z2Nat.id n Hn). induction (Z.to_nat n) as [|m IH]; intros Hopen.
  - reflexivity.
  - rewrite Nat2Z.inj_succ, <- Z.add_1_r in *.
    unfold step_loop. rewrite range_succ by lia. rewrite for_each_app. unfold bind.
    fold (step_loop e data targets (Z.of_nat m)).
    rewrite IH by (intros j Hj; apply Hopen; lia).
    cbn [for_each]. unfold bind. rewrite step_body_unfold.
    destruct (open_steps_spec data (Z.of_nat m) s ltac:(lia)) as (I1 & _).
    rewrite I1.
    assert (E : (step_trunc s + Z.of_nat m + 1 =? K) = false).
    { apply Z.eqb_neq. apply Hopen. lia. }
    rewrite E. rewrite open_steps_succ by lia. reflexivity.
Qed.

End OpenSteps.

Lemma network_ok_env (w : W) :
  network_ok net ->
  2 <= num_return (the_env w) <= 4 /\
  (forall w' x, List.length (fst (net_forward net w' x)) =
                Z.to_nat (num_return (the_env w))).
Proof. intros [H1 H2]. split; [apply H1 | intros w' x; apply H2]. Qed.

Lemma batch_head_frame (s : frame T W) :
  step_trunc (batch_head s) = step_trunc s /\
  K_count (batch_head s) = K_count s /\
  loss_avg (batch_head s) = loss_avg s /\
  spk_rec_trunc (batch_head s) = spk_rec_trunc s /\
  mem_rec_trunc (batch_head s) = mem_rec_trunc s /\
  trace (batch_head s) = trace s ++ [EvTrain; EvReset].
Proof.
  unfold batch_head. frame_cbn. rewrite <- app_assoc. repeat split; reflexivity.
Qed.

(** ** K = 0 and K < 0 *)

(** K = 0 passes the test of line 92.  No step closes a window
    ([step_trunc] is at least 1 when it is compared with K), so the first
    batch runs its num_steps forward passes without a criterion call or an
    update, and [num_steps % K] on line 252 stops the call with a
    ZeroDivisionError. *)
Theorem K_zero_divides_by_zero (batch : T * T) (rest : list (T * T)) (w : W) :
  K = 0 -> 1 <= num_steps -> network_ok net ->
  exists sf,
    TBPTT torch net (batch :: rest) num_steps optimizer criterion time_var regularization
          device K w = (Raise ZeroDivisionError, sf) /\
    forward_passes (trace sf) = num_steps /\
    criterion_targets (trace sf) = [] /\
    optimizer_steps (trace sf) = 0.
Proof.
  intros HK0 HN Hnet.
  destruct (network_ok_env w Hnet) as [Hnr Har].
  set (data := to torch device (fst batch)).
  set (s0 := batch_head (started w)).
  destruct (open_steps_spec (the_env w) Hnr Har data num_steps s0 ltac:(lia))
    as (_ & _ & _ & _ & Hstep & _ & _ & Htr).
  exists (open_steps data num_steps s0). split.
  - apply TBPTT_first_batch_raises; [lia|].
    unfold batch_body, batch_steps, bind, modify.
    fold (batch_head (started w)). fold s0. fold data.
    rewrite (step_loop_open (the_env w) Hnr Har);
      [| lia | intros j Hj; change (step_trunc s0) with 0; lia].
    unfold after_steps, bind, gets, local. rewrite (Hstep ltac:(lia)).
    unfold ret. rewrite Z.eqb_refl, HK0. reflexivity.
  - rewrite Htr, forward_passes_app, criterion_targets_app, optimizer_steps_app.
    destruct (forward_events_read (step_input data) (range num_steps)) as (F1 & F2 & F3 & _).
    rewrite F1, F2, F3, range_length by lia.
    repeat split; reflexivity.
Qed.

Lemma batch_body_negative (e : env) (batch : T * T) (s : frame T W) :
  2 <= num_return e <= 4 ->
  (forall w x, List.length (fst (net_forward net w x)) = Z.to_nat (num_return e)) ->
  K < 0 -> num_steps mod K = 0 -> 1 <= num_steps -> 0 <= step_trunc s ->
  batch_body e batch s =
  (Ok tt, open_steps (to torch device (fst batch)) num_steps (batch_head s)).
Proof.
  intros Hnr Har HK Hmod HN Hst.
  destruct (batch_head_frame s) as (B1 & _).
  destruct (open_steps_spec e Hnr Har (to torch device (fst batch)) num_steps
              (batch_head s) ltac:(lia)) as (_ & _ & _ & _ & Hstep & _).
  unfold batch_body, batch_steps, bind, modify. fold (batch_head s).
  rewrite (step_loop_open e Hnr Har); [| lia | intros j Hj; rewrite B1; lia].
  unfold after_steps, bind, gets, local. rewrite (Hstep ltac:(lia)).
  unfold ret. rewrite Z.eqb_refl.
  assert (E0 : (K =? 0) = false) by lia. rewrite E0, Hmod. reflexivity.
Qed.

Lemma batch_loop_negative (e : env) (dl : list (T * T)) (s : frame T W) :
  2 <= num_return e <= 4 ->
  (forall w x, List.length (fst (net_forward net w x)) = Z.to_nat (num_return e)) ->
  K < 0 -> num_steps mod K = 0 -> 1 <= num_steps -> 0 <= step_trunc s ->
  exists sf,
    batch_loop e dl s = (Ok tt, sf) /\
    loss_avg sf = loss_avg s /\
    step_trunc sf = step_trunc s + Z.of_nat (List.length dl) * num_steps /\
    Z.of_nat (List.length (spk_rec_trunc sf)) =
      Z.of_nat (List.length (spk_rec_trunc s)) + Z.of_nat (List.length dl) * num_steps /\
    optimizer_steps (trace sf) = optimizer_steps (trace s) /\
    criterion_targets (trace sf) = criterion_targets (trace s) /\
    forward_passes (trace sf) =
      forward_passes (trace s) + Z.of_nat (List.length dl) * num_steps.
Proof.
  intros Hnr Har HK Hmod HN. revert s.
  induction dl as [|batch dl IH]; intros s Hst.
  - exists s. cbn [List.length]. repeat split; try reflexivity; lia.
  - set (data := to torch device (fst batch)).
    destruct (batch_head_frame s) as (B1 & _ & B3 & B4 & _ & B6).
    destruct (open_steps_spec e Hnr Har data num_steps (batch_head s) ltac:(lia))
      as (O1 & _ & _ & O4 & _ & O6 & _ & O8).
    destruct (IH (open_steps data num_steps (batch_head s)) ltac:(lia))
      as (sf & Hrun & I1 & I2 & I3 & I4 & I5 & I6).
    exists sf. split.
    { unfold batch_loop. cbn [for_each]. unfold bind.
      rewrite batch_body_negative by assumption. exact Hrun. }
    destruct (forward_events_read (step_input data) (range num_steps)) as (F1 & F2 & F3 & _).
    rewrite I1, I2, I3, I4, I5, I6, O1, O4, O6, O8, B1, B3, B4, B6.
    rewrite !optimizer_steps_app, !criterion_targets_app, !forward_passes_app.
    rewrite F1, F2, F3, range_length by lia. cbn [List.length].
    change (optimizer_steps [@EvTrain T; EvReset]) with 0.
    change (forward_passes [@EvTrain T; EvReset]) with 0.
    change (criterion_targets [@EvTrain T; EvReset]) with (@nil T).
    rewrite !app_nil_r.
    split; [reflexivity|]. split; [lia|]. split; [lia|]. split; [lia|].
    split; [reflexivity|]. lia.
Qed.

(** A negative K passes the test of line 92 as well.  When it divides
    num_steps (K = -1 always does) no window is ever closed: every batch
    runs its forward passes, the criterion and the optimizer are never
    called, the buffers are never emptied, and the call returns 0. *)
Theorem negative_K_trains_nothing (dl : list (T * T)) (w : W) :
  K < 0 -> num_steps mod K = 0 -> 1 <= num_steps -> network_ok net ->
  exists sf,
    TBPTT torch net dl num_steps optimizer criterion time_var regularization device K w
      = (Ok (VNum 0), sf) /\
    optimizer_steps (trace sf) = 0 /\
    criterion_targets (trace sf) = [] /\
    forward_passes (trace sf) = Z.of_nat (List.length dl) * num_steps /\
    Z.of_nat (List.length (spk_rec_trunc sf)) = Z.of_nat (List.length dl) * num_steps.
Proof.
  intros HK Hmod HN Hnet.
  destruct (network_ok_env w Hnet) as [Hnr Har].
  destruct (batch_loop_negative (the_env w) dl (started w) Hnr Har HK Hmod HN ltac:(cbn; lia))
    as (sf & Hrun & I1 & _ & I3 & I4 & I5 & I6).
  exists sf. split.
  - unfold TBPTT, TBPTT_K, TBPTT_body, bind. rewrite preamble_ok by lia.
    unfold modify. fold (started w). rewrite Hrun. unfold gets, ret.
    rewrite I1. reflexivity.
  - rewrite I3, I4, I5, I6. repeat split; reflexivity.
Qed.

(** ** Names that are not in the dicts *)

Lemma close_window_unbound_loss_spk (e : env) (targets : T) (s : frame T W) :
  loss_spk e = None -> spk_rec_trunc s <> [] -> mem_rec_trunc s <> [] ->
  close_window e targets s = (Raise (UnboundLocalError "loss_spk"), s).
Proof.
  intros Hls Hs Hm.
  unfold close_window, window_loss, torch_stack, bind, gets, local, ret, raise.
  destruct (spk_rec_trunc s) eqn:Es; [congruence|].
  destruct (mem_rec_trunc s) eqn:Em; [congruence|].
  rewrite Hls. destruct (time_var_targets e); reflexivity.
Qed.

Lemma close_window_unbound_reg_spk (e : env) (reg : Regularizer T) (targets : T)
    (s : frame T W) (ls : bool) :
  regularization = Some reg -> loss_spk e = Some ls -> reg_spk e = None ->
  spk_rec_trunc s <> [] -> mem_rec_trunc s <> [] ->
  close_window e targets s =
  (Raise (UnboundLocalError "reg_spk"),
   effect (EvCriterion
             (if ls then stack torch (spk_rec_trunc s) else stack torch (mem_rec_trunc s))
             (if time_var_targets e
              then slice torch targets (K_count s * K) ((K_count s + 1) * K)
              else targets))
          (fun w => w) s).
Proof.
  intros Hreg Hls Hrs Hs Hm.
  unfold close_window, window_loss, torch_stack, call_criterion, bind, gets, modify,
    local, ret, raise.
  destruct (spk_rec_trunc s) eqn:Es; [congruence|].
  destruct (mem_rec_trunc s) eqn:Em; [congruence|].
  rewrite Hls, Hreg, Hrs. destruct (time_var_targets e); reflexivity.
Qed.

Lemma nonempty_of_positive_length {A : Type} (l : list A) (n : Z) :
  Z.of_nat (List.length l) = n -> 0 < n -> l <> [].
Proof. intros H Hn ->. cbn in H. lia. Qed.

Lemma step_loop_first_window (e : env) (data targets : T) (s0 s2 : frame T W) (ex : exn) :
  2 <= num_return e <= 4 ->
  (forall w x, List.length (fst (net_forward net w x)) = Z.to_nat (num_return e)) ->
  step_trunc s0 = 0 -> 1 <= K <= num_steps ->
  close_window e targets (open_steps data K s0) = (Raise ex, s2) ->
  step_loop e data targets num_steps s0 = (Raise ex, s2).
Proof.
  intros Hnr Har Hst HK Hclose.
  destruct (range_split (K - 1) num_steps ltac:(lia)) as [r Hr].
  unfold step_loop. rewrite Hr.
  apply for_each_raises_at with (s1 := open_steps data (K - 1) s0).
  - apply (step_loop_open e Hnr Har); [lia | intros j Hj; lia].
  - rewrite (step_body_unfold e Hnr Har).
    destruct (open_steps_spec e Hnr Har data (K - 1) s0 ltac:(lia)) as (I1 & _).
    rewrite I1, Hst.
    assert (E : (0 + (K - 1) + 1 =? K) = true) by lia. rewrite E.
    rewrite <- open_steps_succ by lia.
    replace (K - 1 + 1) with K by lia. exact Hclose.
Qed.

Lemma first_window_raises (batch : T * T) (rest : list (T * T)) (w : W)
    (ex : exn) (sf : frame T W) :
  network_ok net -> 1 <= K <= num_steps ->
  close_window (the_env w) (to torch device (snd batch))
    (open_steps (to torch device (fst batch)) K (batch_head (started w))) = (Raise ex, sf) ->
  TBPTT torch net (batch :: rest) num_steps optimizer criterion time_var regularization
        device K w = (Raise ex, sf).
Proof.
  intros Hnet HK Hclose.
  destruct (network_ok_env w Hnet) as [Hnr Har].
  apply TBPTT_first_batch_raises; [lia|].
  unfold batch_body, batch_steps, bind, modify. fold (batch_head (started w)).
  rewrite (step_loop_first_window (the_env w) _ _ _ sf ex Hnr Har);
    [reflexivity | reflexivity | assumption | exact Hclose].
Qed.

Lemma first_window_read (data : T) (w : W) :
  network_ok net -> 1 <= K ->
  spk_rec_trunc (open_steps data K (batch_head (started w))) <> [] /\
  mem_rec_trunc (open_steps data K (batch_head (started w))) <> [] /\
  K_count (open_steps data K (batch_head (started w))) = 0 /\
  forward_passes (trace (open_steps data K (batch_head (started w)))) = K /\
  criterion_targets (trace (open_steps data K (batch_head (started w)))) = [] /\
  optimizer_steps (trace (open_steps data K (batch_head (started w)))) = 0.
Proof.
  intros Hnet HK.
  destruct (network_ok_env w Hnet) as [Hnr Har].
  destruct (open_steps_spec (the_env w) Hnr Har data K (batch_head (started w)) ltac:(lia))
    as (_ & O2 & _ & _ & _ & O6 & O7 & O8).
  split; [eapply nonempty_of_positive_length; [exact O6 | cbn; lia]|].
  split; [eapply nonempty_of_positive_length; [exact O7 | cbn; lia]|].
  split; [rewrite O2; reflexivity|].
  rewrite O8, forward_passes_app, criterion_targets_app, optimizer_steps_app.
  destruct (forward_events_read (step_input data) (range K)) as (F1 & F2 & F3 & _).
  rewrite F1, F2, F3, range_length by lia.
  repeat split; reflexivity.
Qed.

Lemma regularization_loop_unknown (reg : Regularizer T) :
  ~ In (reg_name reg) (map fst reg_dict) -> regularization_loop (Some reg) = None.
Proof.
  intros Hn. unfold regularization_loop, reg_dict. cbn [fold_left fst snd].
  destruct (String.eqb "l1_rate_sparsity" (reg_name reg)) eqn:E; [|reflexivity].
  apply String.eqb_eq in E. exfalso. apply Hn. cbn. left. exact E.
Qed.

(** A criterion whose name is not a key of [criterion_dict] is found out
    when the first window closes, not before: the first batch runs its first
    K forward passes, and the call stops on the unbound [loss_spk] without
    having called the criterion or the optimizer. *)
Theorem unknown_criterion_stops_at_first_window (batch : T * T) (rest : list (T * T))
    (w : W) :
  ~ In (crit_name criterion) (map fst criterion_dict) ->
  1 <= K <= num_steps -> network_ok net ->
  exists sf,
    TBPTT torch net (batch :: rest) num_steps optimizer criterion time_var regularization
          device K w = (Raise (UnboundLocalError "loss_spk"), sf) /\
    forward_passes (trace sf) = K /\
    criterion_targets (trace sf) = [] /\
    optimizer_steps (trace sf) = 0.
Proof.
  intros Hname HK Hnet.
  set (data := to torch device (fst batch)).
  destruct (first_window_read data w Hnet ltac:(lia)) as (Hs & Hm & _ & R1 & R2 & R3).
  exists (open_steps data K (batch_head (started w))).
  split; [|repeat split; assumption].
  apply first_window_raises; [assumption | assumption |].
  apply close_window_unbound_loss_spk; [|assumption|assumption].
  unfold the_env. cbn [loss_spk].
  apply (criterion_loop_unknown criterion Hname).
Qed.

(** A regularizer whose name is not a key of [reg_dict], with a criterion
    that is: the first window of the first batch calls the criterion, then
    the call stops on the unbound [reg_spk]; the regularizer and the
    optimizer have not been called. *)
Theorem unknown_regularizer_stops_at_first_window (reg : Regularizer T) (batch : T * T)
    (rest : list (T * T)) (w : W) :
  regularization = Some reg ->
  ~ In (reg_name reg) (map fst reg_dict) ->
  In (crit_name criterion) (map fst criterion_dict) ->
  1 <= K <= num_steps -> network_ok net ->
  exists sf,
    TBPTT torch net (batch :: rest) num_steps optimizer criterion time_var regularization
          device K w = (Raise (UnboundLocalError "reg_spk"), sf) /\
    forward_passes (trace sf) = K /\
    List.length (criterion_targets (trace sf)) = 1%nat /\
    penalty_values regularization (trace sf) = [] /\
    optimizer_steps (trace sf) = 0.
Proof.
  intros Hreg Hrname Hcname HK Hnet.
  set (data := to torch device (fst batch)).
  set (targets := to torch device (snd batch)).
  destruct (first_window_read data w Hnet ltac:(lia)) as (Hs & Hm & _ & R1 & R2 & R3).
  destruct (criterion_loop_known criterion Hcname) as [ls Hls].
  set (s1 := open_steps data K (batch_head (started w))) in *.
  assert (Hclose := close_window_unbound_reg_spk (the_env w) reg targets s1 ls Hreg).
  eexists. split.
  - apply first_window_raises; [assumption | assumption |].
    apply Hclose; [exact Hls | | assumption | assumption].
    unfold the_env. cbn [reg_spk]. rewrite Hreg.
    apply regularization_loop_unknown. assumption.
  - frame_cbn.
    rewrite forward_passes_app, criterion_targets_app, penalty_values_app,
      optimizer_steps_app, length_app, R1, R2, R3.
    assert (RP : penalty_values regularization (trace s1) = []).
    { unfold s1.
      destruct (network_ok_env w Hnet) as [Hnr Har].
      destruct (open_steps_spec (the_env w) Hnr Har data K (batch_head (started w))
                  ltac:(lia)) as (_ & _ & _ & _ & _ & _ & _ & O8).
      rewrite O8, penalty_values_app.
      assert (F : forall l : list Z,
                 penalty_values regularization
                   (map (fun i => EvForward (step_input data i)) l) = []).
      { induction l as [|i l IHl]; [reflexivity | exact IHl]. }
      rewrite F, app_nil_r. rewrite Hreg. reflexivity. }
    rewrite RP, Hreg. repeat split; try reflexivity. cbn. lia.
Qed.

End Boundaries.

(** ** BPTT and RTRL *)

Lemma inject_Z_nonzero (n : Z) : n <> 0 -> ~ (inject_Z n == 0)%Q.
Proof. intros Hn H. unfold Qeq, inject_Z in H. cbn [Qnum Qden] in H. lia. Qed.

Lemma weighted_sum_whole_sequence (N : Z) (l : list Q) (i : nat) :
  1 <= N -> (weighted_sum N N i l == Qsum l)%Q.
Proof.
  intros HN. revert i. induction l as [|x l IH]; intros i.
  - reflexivity.
  - cbn [weighted_sum Qsum fold_right]. rewrite IH.
    assert (Ew : (window_weight N N i == 1)%Q).
    { unfold window_weight, windows_per_batch.
      rewrite Z.div_same, Z.mod_same by lia. cbn [Z.eqb Z.add Pos.add].
      rewrite Z.mod_1_r. cbn [Z.ltb Z.compare].
      field. repeat split; apply inject_Z_nonzero; lia. }
    rewrite Ew. unfold Qsum. ring.
Qed.

Lemma weighted_sum_every_step (N : Z) (l : list Q) (i : nat) :
  1 <= N -> (weighted_sum N 1 i l == Qsum l / inject_Z N)%Q.
Proof.
  intros HN. revert i. induction l as [|x l IH]; intros i.
  - cbn [weighted_sum Qsum fold_right]. field. repeat split; apply inject_Z_nonzero; lia.
  - cbn [weighted_sum Qsum fold_right]. rewrite IH.
    assert (Ew : (window_weight N 1 i == 1 / inject_Z N)%Q).
    { unfold window_weight, windows_per_batch.
      rewrite Z.div_1_r, Z.mod_1_r. cbn [Z.eqb]. rewrite Z.add_0_r.
      pose proof (Z.mod_pos_bound (Z.of_nat i) N ltac:(lia)) as Hb.
      assert (E : (Z.of_nat i mod N <? N) = true) by lia. rewrite E.
      field. repeat split; apply inject_Z_nonzero; lia. }
    rewrite Ew. unfold Qsum. field. repeat split; apply inject_Z_nonzero; lia.
Qed.

Section Wrappers.

Context {T W : Type}.
Variable torch : Torch T W.
Variable net : Network T W.
Variable num_steps : Z.
Variable optimizer : Optimizer W.
Variable criterion : Criterion T.
Variable time_var : bool.
Variable regularization : option (Regularizer T).
Variable device : string.

(** The test of line 92 seen through the wrappers.  BPTT passes
    K = num_steps and never raises its ValueError; RTRL passes K = 1 and
    raises it exactly when num_steps < 1, although its caller gave no K, and
    then before anything is done. *)
Theorem wrappers_and_the_K_check (dl : list (T * T)) (w : W) :
  fst (BPTT torch net dl num_steps optimizer criterion time_var regularization device w)
    <> Raise ValueError_K /\
  (fst (RTRL torch net dl num_steps optimizer criterion time_var regularization device w)
     = Raise ValueError_K <-> num_steps < 1) /\
  (num_steps < 1 ->
   RTRL torch net dl num_steps optimizer criterion time_var regularization device w
     = (Raise ValueError_K, entry w)).
Proof.
  assert (Hraise : num_steps < 1 ->
    RTRL torch net dl num_steps optimizer criterion time_var regularization device w
      = (Raise ValueError_K, entry w)).
  { intros H. unfold RTRL, TBPTT, TBPTT_K, TBPTT_body, bind.
    rewrite preamble_raises by lia. reflexivity. }
  split; [|split; [split|exact Hraise]].
  - intros H. unfold BPTT in H.
    exact (TBPTT_raises _ _ _ _ _ _ _ _ _ dl w _ (Z.le_refl num_steps) H).
  - intros H. destruct (Z_lt_ge_dec num_steps 1) as [Hlt | Hge]; [exact Hlt|].
    exfalso. unfold RTRL in H.
    assert (HK : 1 <= num_steps) by lia.
    exact (TBPTT_raises _ _ _ _ _ _ _ _ 1 dl w _ HK H).
  - intros H. rewrite (Hraise H). reflexivity.
Qed.

(** BPTT makes one update per batch, on the loss of the whole sequence, and
    returns the sum of these batch losses (each divided by
    num_steps / num_steps = 1): a sum over the batches, not their mean. *)
Theorem BPTT_returns_the_sum_of_batch_losses (dl : list (T * T)) (w : W) :
  1 <= num_steps -> well_formed net criterion regularization ->
  exists v sf,
    BPTT torch net dl num_steps optimizer criterion time_var regularization device w
      = (Ok (VNum v), sf) /\
    optimizer_steps (trace sf) = Z.of_nat (List.length dl) /\
    forward_passes (trace sf) = Z.of_nat (List.length dl) * num_steps /\
    Z.of_nat (List.length (backward_losses (trace sf))) = Z.of_nat (List.length dl) /\
    (v == Qsum (backward_losses (trace sf)))%Q /\
    (v == Qsum (criterion_values criterion (trace sf)) +
          Qsum (penalty_values regularization (trace sf)))%Q.
Proof.
  intros HN Hwf.
  pose proof (well_formed_good_env net criterion regularization w Hwf) as Hg.
  assert (HK : 1 <= num_steps <= num_steps) by lia.
  destruct (run_inv_batches torch net num_steps optimizer criterion time_var regularization
              device num_steps _ dl w Hg HK)
    as (_ & _ & Hopt & Hfw & HlB & _ & _ & HB & Hla).
  assert (Ew : windows_per_batch num_steps num_steps = 1).
  { unfold windows_per_batch. rewrite Z.div_same, Z.mod_same by lia. reflexivity. }
  rewrite Ew, Z.mul_1_r in *.
  rewrite !weighted_sum_whole_sequence in HB by lia.
  rewrite weighted_sum_whole_sequence in Hla by lia.
  eexists. eexists.
  split; [unfold BPTT; apply TBPTT_ok; assumption|].
  split; [exact Hopt|]. split; [exact Hfw|]. split; [exact HlB|].
  split; [exact Hla|]. rewrite Hla. exact HB.
Qed.

(** RTRL makes one update per time step, on the loss of that step alone,
    and returns the sum of all these step losses divided by num_steps. *)
Theorem RTRL_returns_the_step_losses_over_num_steps (dl : list (T * T)) (w : W) :
  1 <= num_steps -> well_formed net criterion regularization ->
  exists v sf,
    RTRL torch net dl num_steps optimizer criterion time_var regularization device w
      = (Ok (VNum v), sf) /\
    optimizer_steps (trace sf) = Z.of_nat (List.length dl) * num_steps /\
    forward_passes (trace sf) = Z.of_nat (List.length dl) * num_steps /\
    Z.of_nat (List.length (backward_losses (trace sf))) =
      Z.of_nat (List.length dl) * num_steps /\
    (v == Qsum (backward_losses (trace sf)) / inject_Z num_steps)%Q.
Proof.
  intros HN Hwf.
  pose proof (well_formed_good_env net criterion regularization w Hwf) as Hg.
  assert (HK : 1 <= 1 <= num_steps) by lia.
  destruct (run_inv_batches torch net num_steps optimizer criterion time_var regularization
              device 1 _ dl w Hg HK)
    as (_ & _ & Hopt & Hfw & HlB & _ & _ & _ & Hla).
  assert (Ew : windows_per_batch num_steps 1 = num_steps).
  { unfold windows_per_batch. rewrite Z.div_1_r, Z.mod_1_r. cbn [Z.eqb]. lia. }
  rewrite Ew in *.
  rewrite weighted_sum_every_step in Hla by lia.
  eexists. eexists.
  split; [unfold RTRL; apply TBPTT_ok; assumption|].
  split; [exact Hopt|]. split; [exact Hfw|]. split; [exact HlB|]. exact Hla.
Qed.

End Wrappers.

(** ** The optimizer protocol, in every run *)

Lemma bracketed_app {T : Type} (a b : list (event T)) :
  updates_bracketed a = true -> updates_bracketed b = true ->
  updates_bracketed (a ++ b) = true.
Proof.
  intros Ha Hb. remember (List.length a) as n eqn:Hn.
  revert a Ha Hn. induction n as [n IH] using lt_wf_ind. intros a Ha Hn.
  destruct a as [|ev a]; [exact Hb|].
  destruct ev;
    try (cbn [app updates_bracketed] in *;
         apply (IH (List.length a));
         [subst n; cbn [List.length]; lia | exact Ha | reflexivity]);
    try (cbn [updates_bracketed] in Ha; discriminate Ha).
  destruct a as [|ev2 a]; [cbn [updates_bracketed] in Ha; discriminate Ha|].
  destruct ev2; try (cbn [updates_bracketed] in Ha; discriminate Ha).
  destruct a as [|ev3 a]; [cbn [updates_bracketed] in Ha; discriminate Ha|].
  destruct ev3; try (cbn [updates_bracketed] in Ha; discriminate Ha).
  cbn [app updates_bracketed] in *.
  apply (IH (List.length a)); [subst n; cbn [List.length]; lia | exact Ha | reflexivity].
Qed.

Lemma bracketed_counts {T : Type} (a : list (event T)) :
  updates_bracketed a = true ->
  optimizer_steps a = Z.of_nat (List.length (backward_losses a)).
Proof.
  intros Ha. remember (List.length a) as n eqn:Hn.
  revert a Ha Hn. induction n as [n IH] using lt_wf_ind. intros a Ha Hn.
  destruct a as [|ev a]; [reflexivity|].
  destruct ev;
    try (cbn [updates_bracketed] in Ha;
         change (optimizer_steps a = Z.of_nat (List.length (backward_losses a)));
         apply (IH (List.length a));
         [subst n; cbn [List.length]; lia | exact Ha | reflexivity]);
    try (cbn [updates_bracketed] in Ha; discriminate Ha).
  destruct a as [|ev2 a]; [cbn [updates_bracketed] in Ha; discriminate Ha|].
  destruct ev2; try (cbn [updates_bracketed] in Ha; discriminate Ha).
  destruct a as [|ev3 a]; [cbn [updates_bracketed] in Ha; discriminate Ha|].
  destruct ev3; try (cbn [updates_bracketed] in Ha; discriminate Ha).
  cbn [updates_bracketed] in Ha.
  change (EvZeroGrad :: EvBackward loss :: EvOptStep :: a)
    with ([@EvZeroGrad T; EvBackward loss; EvOptStep] ++ a).
  rewrite optimizer_steps_app, backward_losses_app, length_app.
  rewrite (IH (List.length a) ltac:(subst n; cbn [List.length]; lia) a Ha eq_refl).
  change (optimizer_steps [@EvZeroGrad T; EvBackward loss; EvOptStep]) with 1.
  cbn [backward_losses flat_map app List.length]. lia.
Qed.

Lemma keeps_ret {T W A : Type} (P : frame T W -> Prop) (a : A) : keeps P (ret a).
Proof. intros s r s' H Hs. injection H as _ <-. exact Hs. Qed.

Lemma keeps_gets {T W A : Type} (P : frame T W -> Prop) (f : frame T W -> A) :
  keeps P (gets f).
Proof. intros s r s' H Hs. injection H as _ <-. exact Hs. Qed.

Lemma keeps_raise {T W A : Type} (P : frame T W -> Prop) (x : exn) :
  keeps P (@raise T W A x).
Proof. intros s r s' H Hs. injection H as _ <-. exact Hs. Qed.

Lemma keeps_local {T W A : Type} (P : frame T W -> Prop) (name : string) (v : option A) :
  keeps P (@local T W A name v).
Proof. destruct v; [apply keeps_ret | apply keeps_raise]. Qed.

Lemma keeps_modify {T W : Type} (P : frame T W -> Prop) (f : frame T W -> frame T W) :
  (forall s, P s -> P (f s)) -> keeps P (modify f).
Proof. intros Hf s r s' H Hs. injection H as _ <-. apply Hf. exact Hs. Qed.

Lemma keeps_bind {T W A B : Type} (P : frame T W -> Prop) (m : M T W A)
    (k : A -> M T W B) :
  keeps P m -> (forall a, keeps P (k a)) -> keeps P (bind m k).
Proof.
  intros Hm Hk s r s' H Hs. unfold bind in H.
  destruct (m s) as [[a|x] s1] eqn:E.
  - exact (Hk a s1 r s' H (Hm s _ s1 E Hs)).
  - injection H as _ <-. exact (Hm s _ s1 E Hs).
Qed.

Lemma keeps_for_each {T W A : Type} (P : frame T W -> Prop) (xs : list A)
    (body : A -> M T W unit) :
  (forall x, keeps P (body x)) -> keeps P (for_each xs body).
Proof.
  intros Hb. induction xs as [|x xs IH]; cbn [for_each].
  - apply keeps_ret.
  - apply keeps_bind; [apply Hb | intros _; exact IH].
Qed.

Section Protocol.

Context {T W : Type}.
Variable torch : Torch T W.
Variable net : Network T W.
Variable num_steps : Z.
Variable optimizer : Optimizer W.
Variable criterion : Criterion T.
Variable time_var : bool.
Variable regularization : option (Regularizer T).
Variable device : string.

Local Abbreviation bracketed :=
  (fun s : frame T W => updates_bracketed (trace s) = true).

Lemma keeps_setter (f : frame T W -> frame T W) :
  (forall s, trace (f s) = trace s) -> keeps bracketed (modify f).
Proof. intros Hf. apply keeps_modify. intros s Hs. rewrite Hf. exact Hs. Qed.

Lemma keeps_event (ev : event T) (f : W -> W) :
  updates_bracketed [ev] = true -> keeps bracketed (modify (effect ev f)).
Proof.
  intros Hev. apply keeps_modify. intros s Hs. frame_cbn.
  apply bracketed_app; assumption.
Qed.

Lemma keeps_update : keeps bracketed (update torch optimizer).
Proof.
  intros s r s' H Hs. unfold update, bind, modify, gets in H.
  injection H as _ <-. frame_cbn. rewrite <- !app_assoc.
  apply bracketed_app; [exact Hs | reflexivity].
Qed.

Lemma keeps_forward (x : T) : keeps bracketed (forward net x).
Proof.
  intros s r s' H Hs. unfold forward in H.
  destruct (net_forward net (world s) x) as [outs w'].
  injection H as _ <-. frame_cbn. apply bracketed_app; [exact Hs | reflexivity].
Qed.

Ltac keeps_tac :=
  repeat first
    [ apply keeps_ret
    | apply keeps_gets
    | apply keeps_raise
    | apply keeps_local
    | apply keeps_setter; intro; reflexivity
    | apply keeps_event; reflexivity
    | apply keeps_update
    | apply keeps_forward
    | apply keeps_for_each; intro
    | apply keeps_bind; [|intro]
    | match goal with
      | |- keeps _ (if ?c then _ else _) => destruct c
      | |- keeps _ (match ?x with _ => _ end) => destruct x
      end ].

Lemma keeps_TBPTT_body (K : Z) (dl : list (T * T)) :
  keeps bracketed
    (TBPTT_body torch net num_steps optimizer criterion time_var regularization device K dl).
Proof.
  unfold TBPTT_body, preamble, batch_loop. keeps_tac.
  unfold batch_body, batch_steps, step_loop, after_steps. keeps_tac.
  all: unfold net_call, torch_stack; keeps_tac.
Qed.

(** In every call of TBPTT, BPTT or RTRL, whatever its arguments and whether
    it returns or raises, the optimizer is driven by whole updates only:
    [zero_grad()], [backward()] and [step()] occur in the trace as that
    triple of consecutive calls and in no other way.  In particular there
    are as many backward passes as optimizer steps. *)
Theorem optimizer_protocol (K : Z) (dl : list (T * T)) (w : W) :
  updates_bracketed
    (trace (snd (TBPTT torch net dl num_steps optimizer criterion time_var regularization
                       device K w))) = true /\
  updates_bracketed
    (trace (snd (BPTT torch net dl num_steps optimizer criterion time_var regularization
                      device w))) = true /\
  updates_bracketed
    (trace (snd (RTRL torch net dl num_steps optimizer criterion time_var regularization
                      device w))) = true /\
  optimizer_steps
    (trace (snd (TBPTT torch net dl num_steps optimizer criterion time_var regularization
                       device K w))) =
  Z.of_nat (List.length (backward_losses
    (trace (snd (TBPTT torch net dl num_steps optimizer criterion time_var regularization
                       device K w))))).
Proof.
  assert (H : forall k,
    updates_bracketed
      (trace (snd (TBPTT torch net dl num_steps optimizer criterion time_var regularization
                         device k w))) = true).
  { intros k. unfold TBPTT, TBPTT_K.
    destruct (TBPTT_body torch net num_steps optimizer criterion time_var regularization
                device k dl (entry w)) as [r s'] eqn:E.
    exact (keeps_TBPTT_body k dl _ _ _ E eq_refl). }
  split; [apply H|]. split; [apply H|]. split; [apply H|].
  apply bracketed_counts. apply H.
Qed.

End Protocol.

(** ** What a run records besides its window closes *)

Lemma flat_map_forward_events {T X : Type} (f : event T -> list X) (g : Z -> T)
    (h : T -> list X) (l : list Z) :
  (forall x, f (EvForward x) = h x) ->
  flat_map f (map (fun i => EvForward (g i)) l) = flat_map (fun i => h (g i)) l.
Proof.
  intros Hf. induction l as [|i l IH]; [reflexivity|].
  cbn [map flat_map]. rewrite Hf, IH. reflexivity.
Qed.

Lemma flat_map_single {A B : Type} (g : A -> B) (l : list A) :
  flat_map (fun a => [g a]) l = map g l.
Proof.
  induction l as [|a l IH]; [reflexivity|].
  cbn [flat_map map app]. rewrite IH. reflexivity.
Qed.

Section Schedule.

Context {T W : Type}.
Variable torch : Torch T W.
Variable net : Network T W.
Variable num_steps : Z.
Variable optimizer : Optimizer W.
Variable criterion : Criterion T.
Variable time_var : bool.
Variable regularization : option (Regularizer T).
Variable device : string.
Variable K : Z.

Local Abbreviation the_env := (the_env net criterion regularization).
Local Abbreviation started := (started net device).
Local Abbreviation good_env := (good_env net regularization).
Local Abbreviation window_events := (window_events torch regularization K).
Local Abbreviation steps_pure :=
  (steps_pure torch net num_steps optimizer criterion time_var regularization K).
Local Abbreviation batch_pure :=
  (batch_pure torch net num_steps optimizer criterion time_var regularization K).
Local Abbreviation batches_pure :=
  (batches_pure torch net num_steps optimizer criterion time_var regularization device K).
Local Abbreviation step_input := (step_input torch time_var).

Section Blind.

Context {X : Type}.
Variable f : event T -> list X.
Hypothesis Hblind : blind_to_close f.

Lemma detach_events_blind (e : env) : flat_map f (@detach_events T e) = [].
Proof.
  destruct Hblind as (_ & _ & _ & _ & _ & H6).
  unfold detach_events. induction (neurons_dict e) as [|[k c] d IH]; [reflexivity|].
  cbn [flat_map fst snd]. rewrite flat_map_app, IH, app_nil_r.
  destruct k; cbn [flat_map]; rewrite ?app_nil_r; [apply H6 | reflexivity].
Qed.

Lemma close_blind (e : env) (targets : T) (hi : Z) (s : frame T W) (lt : Q) :
  flat_map f (window_events e targets hi s ++ update_events lt ++ detach_events e) = [].
Proof.
  destruct Hblind as (H1 & H2 & H3 & H4 & H5 & _).
  unfold window_events, update_events.
  rewrite !flat_map_app, detach_events_blind.
  destruct regularization; cbn [flat_map]; rewrite H1, ?H2, H3, H4, H5; reflexivity.
Qed.

Lemma steps_pure_blind (e : env) (data targets : T) (n : Z) (s : frame T W) :
  good_env e -> 0 <= n ->
  flat_map f (trace (steps_pure e data targets n s)) =
  flat_map f (trace s) ++
  flat_map f (map (fun i => EvForward (step_input data i)) (range n)).
Proof.
  intros Hg Hn. rewrite <- (Z2Nat.id n Hn). induction (Z.to_nat n) as [|m IH].
  - change (Z.of_nat 0) with 0. change (range 0) with (@nil Z).
    cbn [map flat_map]. rewrite app_nil_r. reflexivity.
  - rewrite Nat2Z.inj_succ, <- Z.add_1_r.
    rewrite steps_pure_succ by lia. rewrite range_succ by lia.
    unfold step_pure.
    destruct (stepped_spec torch net time_var regularization e data (Z.of_nat m)
                (steps_pure e data targets (Z.of_nat m) s) Hg)
      as (spk & r & w' & _ & ->).
    cbn [step_trunc].
    destruct (_ =? K).
    + unfold closed_window. frame_cbn.
      rewrite flat_map_app, close_blind, app_nil_r.
      rewrite flat_map_app, IH, map_app, flat_map_app, <- app_assoc. reflexivity.
    + frame_cbn. rewrite !flat_map_app, IH, map_app, !flat_map_app, <- app_assoc.
      reflexivity.
Qed.

Lemma batch_pure_blind (e : env) (batch : T * T) (s : frame T W) :
  good_env e -> 0 <= num_steps ->
  flat_map f (trace (batch_pure e device batch s)) =
  flat_map f (trace s) ++ f EvTrain ++ f EvReset ++
  flat_map f (map (fun i => EvForward (step_input (to torch device (fst batch)) i))
                  (range num_steps)).
Proof.
  intros Hg HN. unfold batch_pure.
  assert (E : flat_map f (trace (steps_pure e (to torch device (fst batch))
                                   (to torch device (snd batch)) num_steps
                                   (batch_head net s))) =
              flat_map f (trace s) ++ f EvTrain ++ f EvReset ++
              flat_map f (map (fun i => EvForward (step_input (to torch device (fst batch)) i))
                              (range num_steps))).
  { rewrite steps_pure_blind by assumption. unfold batch_head. frame_cbn.
    rewrite <- app_assoc, flat_map_app. cbn [flat_map app].
    rewrite app_nil_r, <- !app_assoc. reflexivity. }
  destruct (num_steps mod K =? 0); [exact E|].
  unfold closed_remainder. frame_cbn.
  rewrite flat_map_app, close_blind, app_nil_r. exact E.
Qed.

Lemma batches_pure_blind (e : env) (dl : list (T * T)) (s : frame T W) :
  good_env e -> 0 <= num_steps ->
  flat_map f (trace (batches_pure e dl s)) =
  flat_map f (trace s) ++
  flat_map (fun batch =>
              f EvTrain ++ f EvReset ++
              flat_map f (map (fun i => EvForward
                                          (step_input (to torch device (fst batch)) i))
                              (range num_steps))) dl.
Proof.
  intros Hg HN. revert s. induction dl as [|batch dl IH]; intros s.
  - cbn [batches_pure fold_left flat_map]. rewrite app_nil_r. reflexivity.
  - cbn [batches_pure fold_left flat_map].
    fold (batches_pure e dl (batch_pure e device batch s)).
    rewrite IH, batch_pure_blind by assumption. rewrite <- !app_assoc. reflexivity.
Qed.

End Blind.

(** The order of the forward passes and of the resets of the hidden state in
    a run of TBPTT.  The network is reset once before the batch loop and once
    at the head of every batch, never between the windows of a batch, whose
    hidden state is only detached; batch after batch, step [i] of a batch is
    shown [data[i]] when [time_var] is set and the whole [data] otherwise,
    for i = 0, ..., num_steps - 1, with [data] moved to the device. *)
Theorem forward_passes_and_resets (dl : list (T * T)) (w : W) :
  1 <= K <= num_steps -> well_formed net criterion regularization ->
  exists v sf,
    TBPTT torch net dl num_steps optimizer criterion time_var regularization device K w
      = (Ok (VNum v), sf) /\
    resets_and_forwards (trace sf) =
      EvReset ::
      flat_map (fun batch =>
                  EvReset ::
                  map (fun i => EvForward
                                  (if time_var
                                   then index torch (to torch device (fst batch)) i
                                   else to torch device (fst batch)))
                      (range num_steps)) dl /\
    forward_inputs (trace sf) =
      flat_map (fun batch =>
                  map (fun i => if time_var
                                then index torch (to torch device (fst batch)) i
                                else to torch device (fst batch))
                      (range num_steps)) dl.
Proof.
  intros HK Hwf.
  pose proof (well_formed_good_env net criterion regularization w Hwf) as Hg.
  eexists. eexists. split; [apply TBPTT_ok; assumption|].
  split.
  - unfold resets_and_forwards.
    rewrite batches_pure_blind; [| repeat split; reflexivity | exact Hg | lia].
    cbn [flat_map started effect trace entry app]. f_equal.
    apply flat_map_ext. intros batch. cbn [app]. f_equal.
    rewrite (flat_map_forward_events _ _ (fun x => [EvForward x])) by reflexivity.
    rewrite flat_map_single. reflexivity.
  - unfold forward_inputs.
    rewrite batches_pure_blind; [| repeat split; reflexivity | exact Hg | lia].
    cbn [flat_map started effect trace entry app].
    apply flat_map_ext. intros batch. cbn [app].
    rewrite (flat_map_forward_events _ _ (fun x => [x])) by reflexivity.
    rewrite flat_map_single. reflexivity.
Qed.

End Schedule.

(** ** Inside a window close *)

Section Windows.

Context {T W : Type}.
Variable torch : Torch T W.
Variable net : Network T W.
Variable num_steps : Z.
Variable optimizer : Optimizer W.
Variable criterion : Criterion T.
Variable time_var : bool.
Variable regularization : option (Regularizer T).
Variable device : string.
Variable K : Z.

Local Abbreviation the_env := (the_env net criterion regularization).
Local Abbreviation started := (started net device).
Local Abbreviation window_loss := (window_loss torch criterion regularization K).
Local Abbreviation batch_body :=
  (batch_body torch net num_steps optimizer criterion time_var regularization device
   K).
Local Abbreviation batch_start :=
  (batch_start torch net num_steps optimizer criterion time_var regularization device
   K).
Local Abbreviation batch_pure :=
  (batch_pure torch net num_steps optimizer criterion time_var regularization K).

(** What the criterion and the regularizer are called on when a window
    closes.  The rate and count losses are handed the stacked spikes of the
    window, the two membrane losses its stacked membrane potentials;
    [l1_rate_sparsity] is handed the stacked spikes; the penalty is added to
    the criterion value.  The targets are sliced for [mse_membrane_loss]
    with [time_var_targets] set, and passed whole otherwise. *)
Theorem criterion_and_regularizer_signals (w : W) (targets : T) (hi : Z)
    (s : frame T W) :
  well_formed net criterion regularization ->
  spk_rec_trunc s <> [] -> mem_rec_trunc s <> [] ->
  let spk := stack torch (spk_rec_trunc s) in
  let mem := stack torch (mem_rec_trunc s) in
  let signal := if spike_loss (crit_name criterion) then spk else mem in
  let target :=
    if String.eqb (crit_name criterion) "mse_membrane_loss"
       && crit_time_var_targets criterion
    then slice torch targets (K_count s * K) hi
    else targets in
  window_loss (the_env w) targets hi s =
  match regularization with
  | Some reg =>
      (Ok (crit_call criterion signal target + reg_call reg spk)%Q,
       effect (EvRegularization spk) (fun w => w)
         (effect (EvCriterion signal target) (fun w => w) s))
  | None =>
      (Ok (crit_call criterion signal target),
       effect (EvCriterion signal target) (fun w => w) s)
  end.
Proof.
  intros (Hc & Hr & _) Hs Hm. cbv zeta.
  assert (Hrs : forall reg, regularization = Some reg ->
                            regularization_loop regularization = Some true).
  { intros reg E. apply (regularization_loop_known regularization reg E).
    apply Hr. exact E. }
  unfold window_loss, torch_stack, call_criterion, call_regularization,
    bind, gets, modify, local, ret, raise.
  destruct (spk_rec_trunc s) as [|a sb] eqn:Es; [congruence|].
  destruct (mem_rec_trunc s) as [|b mb] eqn:Em; [congruence|].
  unfold the_env. cbn [loss_spk time_var_targets reg_spk].
  unfold criterion_loop, criterion_loop_body, criterion_dict, spike_loss.
  cbn in Hc.
  destruct regularization as [reg|] eqn:Er.
  - rewrite (Hrs reg eq_refl).
    destruct Hc as [H | [H | [H | [H | [H | []]]]]]; rewrite <- H;
      cbn [fold_left String.eqb Ascii.eqb Bool.eqb existsb orb andb fst snd List.length];
      try reflexivity.
    destruct (crit_time_var_targets criterion); reflexivity.
  - destruct Hc as [H | [H | [H | [H | [H | []]]]]]; rewrite <- H;
      cbn [fold_left String.eqb Ascii.eqb Bool.eqb existsb orb andb fst snd List.length];
      try reflexivity.
    destruct (crit_time_var_targets criterion); reflexivity.
Qed.

(** The window counter across batches.  When K divides num_steps the
    counter is not put back to 0 between batches: batch number [b] (from 0)
    is entered with [K_count = b * (num_steps / K)], and with time-varying
    targets its window number [j] is handed the targets of that batch from
    position [b * num_steps + j * K] on, K of them. *)
Theorem targets_offset_grows_with_batches (dl : list (T * T)) (w : W) (b : nat)
    (batch : T * T) :
  1 <= K <= num_steps -> num_steps mod K = 0 ->
  well_formed net criterion regularization ->
  crit_name criterion = "mse_membrane_loss"%string ->
  crit_time_var_targets criterion = true ->
  nth_error dl b = Some batch ->
  exists e s s' evs,
    batch_start dl b w = (Ok e, s) /\
    K_count s = Z.of_nat b * (num_steps / K) /\
    batch_body e batch s = (Ok tt, s') /\
    K_count s' = (Z.of_nat b + 1) * (num_steps / K) /\
    trace s' = trace s ++ evs /\
    criterion_targets evs =
      map (fun j => slice torch (to torch device (snd batch))
                      (Z.of_nat b * num_steps + Z.of_nat j * K)
                      (Z.of_nat b * num_steps + Z.of_nat j * K + K))
          (seq 0 (Z.to_nat (num_steps / K))).
Proof.
  intros HK Hmod Hwf Hn Htv Hb.
  pose proof (well_formed_good_env net criterion regularization w Hwf) as Hg.
  assert (Hlen : (b <= List.length dl)%nat).
  { apply Nat.lt_le_incl. apply nth_error_Some. congruence. }
  destruct (batch_entry_frame torch net num_steps optimizer criterion time_var
              regularization device K dl w b HK Hwf Hlen) as (s & Hstart & Hs & Hkc).
  rewrite Hmod in Hkc. cbn [Z.eqb] in Hkc.
  destruct (batch_pure_inv torch net num_steps optimizer criterion time_var regularization
              device K (the_env w) batch s Hg HK Hs)
    as (_ & Hkc' & evs & Htr & _ & _ & Htg & _).
  rewrite Hmod in Hkc'. cbn [Z.eqb] in Hkc'.
  assert (Ew : windows_per_batch num_steps K = num_steps / K).
  { unfold windows_per_batch. rewrite Hmod. cbn [Z.eqb]. lia. }
  assert (EN : num_steps = K * (num_steps / K)).
  { pose proof (Z.div_mod num_steps K ltac:(lia)). lia. }
  exists (the_env w), s, (batch_pure (the_env w) device batch s), evs.
  split; [exact Hstart|]. split; [exact Hkc|].
  split; [apply batch_body_ok; assumption|].
  split; [rewrite Hkc', Hkc; lia|].
  split; [exact Htr|].
  rewrite Htg, Ew. apply map_ext_in. intros j Hj. apply in_seq in Hj.
  unfold nth_target, window_length.
  rewrite (time_varying_targets_resolved net criterion regularization w Hn Htv).
  assert (Hq : 0 <= num_steps / K) by (apply Z.div_pos; lia).
  assert (Ej : (Z.of_nat j <? num_steps / K) = true) by lia.
  rewrite Ej, Hkc.
  assert (E1 : (Z.of_nat b * (num_steps / K) + Z.of_nat j) * K
               = Z.of_nat b * num_steps + Z.of_nat j * K).
  { rewrite EN at 2. ring. }
  rewrite E1. reflexivity.
Qed.

End Windows.

(** ** One window per backward pass *)

Lemma combine_app_same {A B : Type} (a a' : list A) (b b' : list B) :
  List.length a = List.length b ->
  combine (a ++ a') (b ++ b') = combine a b ++ combine a' b'.
Proof.
  revert b. induction a as [|x a IH]; intros [|y b] H; try discriminate H.
  - reflexivity.
  - cbn [app combine]. rewrite IH by (injection H as H; exact H). reflexivity.
Qed.

Section Losses.

Context {T W : Type}.
Variable torch : Torch T W.
Variable net : Network T W.
Variable num_steps : Z.
Variable optimizer : Optimizer W.
Variable criterion : Criterion T.
Variable time_var : bool.
Variable regularization : option (Regularizer T).
Variable device : string.
Variable K : Z.

Local Abbreviation the_env := (the_env net criterion regularization).
Local Abbreviation started := (started net device).
Local Abbreviation good_env := (good_env net regularization).
Local Abbreviation one_window_each := (one_window_each criterion regularization).
Local Abbreviation window_value := (window_value torch criterion regularization K).
Local Abbreviation window_events := (window_events torch regularization K).
Local Abbreviation steps_pure :=
  (steps_pure torch net num_steps optimizer criterion time_var regularization K).
Local Abbreviation batch_pure :=
  (batch_pure torch net num_steps optimizer criterion time_var regularization K).
Local Abbreviation batches_pure :=
  (batches_pure torch net num_steps optimizer criterion time_var regularization device K).

Lemma one_window_app (a b : list (event T)) :
  one_window_each a -> one_window_each b -> one_window_each (a ++ b).
Proof.
  unfold one_window_each, window_losses. intros [La Fa] [Lb Fb].
  rewrite backward_losses_app, criterion_values_app, penalty_values_app, !length_app.
  destruct regularization as [reg|].
  - split; [lia|].
    rewrite combine_app_same by (symmetry; exact La). rewrite map_app.
    apply Forall2_app; assumption.
  - split; [lia|]. apply Forall2_app; assumption.
Qed.

Lemma one_window_silent (evs : list (event T)) :
  backward_losses evs = [] -> criterion_values criterion evs = [] ->
  penalty_values regularization evs = [] -> one_window_each evs.
Proof.
  unfold one_window_each, window_losses. intros -> -> ->.
  destruct regularization; split; try reflexivity; constructor.
Qed.

Lemma one_window_close (e : env) (targets : T) (hi : Z) (s : frame T W) (lt : Q) :
  (lt == window_value e targets hi s)%Q ->
  one_window_each (window_events e targets hi s ++ update_events lt ++ detach_events e).
Proof.
  intros Hlt.
  destruct (close_events_read torch criterion regularization K e targets hi s lt)
    as (_ & _ & _ & C4 & C5 & C6).
  cbv zeta in C4, C5, C6.
  unfold one_window_each, window_losses. rewrite C4, C5, C6.
  unfold window_value in Hlt.
  destruct regularization as [reg|].
  - split; [reflexivity|]. cbn [combine map fst snd].
    constructor; [exact Hlt | constructor].
  - split; [reflexivity|]. constructor; [exact Hlt | constructor].
Qed.

Lemma steps_pure_one_window (e : env) (data targets : T) (s0 : frame T W) (n : Z) :
  good_env e -> 1 <= K -> between_batches s0 -> 0 <= n ->
  one_window_each (trace s0) ->
  one_window_each (trace (steps_pure e data targets n s0)).
Proof.
  intros Hg HK Hb Hn H0. rewrite <- (Z2Nat.id n Hn). induction (Z.to_nat n) as [|m IH].
  - exact H0.
  - rewrite Nat2Z.inj_succ, <- Z.add_1_r.
    rewrite steps_pure_succ by lia.
    destruct (steps_pure_inv torch net num_steps optimizer criterion time_var regularization
                K e data targets s0 (Z.of_nat m) Hg HK Hb ltac:(lia))
      as (_ & _ & _ & _ & Hlt & _).
    unfold step_pure.
    destruct (stepped_spec torch net time_var regularization e data (Z.of_nat m)
                (steps_pure e data targets (Z.of_nat m) s0) Hg)
      as (spk & r & w' & _ & ->).
    cbn [step_trunc].
    assert (Hfw : forall x, one_window_each [@EvForward T x]).
    { intros x. apply one_window_silent; reflexivity. }
    destruct (_ =? K).
    + unfold closed_window. frame_cbn.
      apply one_window_app; [apply one_window_app; [exact IH | apply Hfw]|].
      apply one_window_close. rewrite Hlt. ring.
    + frame_cbn. apply one_window_app; [exact IH | apply Hfw].
Qed.

Lemma batch_pure_one_window (e : env) (batch : T * T) (s : frame T W) :
  good_env e -> 1 <= K <= num_steps -> between_batches s ->
  one_window_each (trace s) ->
  one_window_each (trace (batch_pure e device batch s)).
Proof.
  intros Hg HK Hb H0.
  assert (Hh : one_window_each (trace (batch_head net s))).
  { unfold batch_head. frame_cbn. rewrite <- app_assoc.
    apply one_window_app; [exact H0 | apply one_window_silent; reflexivity]. }
  pose proof (steps_pure_one_window e (to torch device (fst batch))
                (to torch device (snd batch)) (batch_head net s) num_steps Hg
                ltac:(lia) (between_batches_head net s Hb) ltac:(lia) Hh) as H1.
  destruct (steps_pure_inv torch net num_steps optimizer criterion time_var regularization
              K e (to torch device (fst batch)) (to torch device (snd batch))
              (batch_head net s) num_steps Hg ltac:(lia) (between_batches_head net s Hb)
              ltac:(lia))
    as (_ & _ & _ & _ & Hlt & _).
  unfold batch_pure. destruct (num_steps mod K =? 0); [exact H1|].
  unfold closed_remainder. frame_cbn.
  apply one_window_app; [exact H1|].
  apply one_window_close. rewrite Hlt. ring.
Qed.

Lemma batches_pure_one_window (e : env) (dl : list (T * T)) (s : frame T W) :
  good_env e -> 1 <= K <= num_steps -> between_batches s ->
  one_window_each (trace s) ->
  one_window_each (trace (batches_pure e dl s)).
Proof.
  intros Hg HK. revert s. induction dl as [|batch dl IH]; intros s Hb H0.
  - exact H0.
  - cbn [batches_pure fold_left].
    fold (batches_pure e dl (batch_pure e device batch s)).
    apply IH.
    + apply (batch_pure_between torch net num_steps optimizer criterion time_var
               regularization device K e batch s Hg HK Hb).
    + apply batch_pure_one_window; assumption.
Qed.

(** Every backward pass starts from the loss of the one window that has
    just been closed: [loss_trunc] is back at 0 when the next window opens,
    so the losses of different windows are never summed before
    [backward()].  The k-th backward pass of a run is handed the k-th
    criterion value, plus the k-th penalty when a regularizer is
    configured. *)
Theorem backward_on_one_window (dl : list (T * T)) (w : W) :
  1 <= K <= num_steps -> well_formed net criterion regularization ->
  exists v sf,
    TBPTT torch net dl num_steps optimizer criterion time_var regularization device K w
      = (Ok (VNum v), sf) /\
    Forall2 Qeq (backward_losses (trace sf))
                (window_losses criterion regularization (trace sf)) /\
    (regularization <> None ->
     List.length (penalty_values regularization (trace sf)) =
     List.length (criterion_values criterion (trace sf))).
Proof.
  intros HK Hwf.
  pose proof (well_formed_good_env net criterion regularization w Hwf) as Hg.
  assert (H0 : one_window_each (trace (started w))).
  { apply one_window_silent; reflexivity. }
  destruct (batches_pure_one_window (the_env w) dl (started w) Hg HK
              (started_between net device w) H0) as [HL HF].
  eexists. eexists. split; [apply TBPTT_ok; assumption|].
  split; [exact HF|].
  intros Hreg. rewrite HL. destruct regularization; [reflexivity | contradiction].
Qed.

End Losses.

(** * On the one-neuron instance *)

Ltac leaky_network_ok := split; intros; cbn; lia.

(** No batch, num_steps = 10, K = 3. *)
Lemma TBPTT_empty_dataloader_witness :
  3 <= 10 /\
  exists sf,
    TBPTT Leaky1.torch Leaky1.net [] 10 Leaky1.sgd Leaky1.rate true None "cpu" 3 0
      = (Ok (VNum 0), sf) /\
    trace sf = [EvReset; EvNetTo "cpu"; EvIter] /\
    world sf = 0.
Proof.
  assert (H : 3 <= 10) by lia. split; [exact H|].
  exact (TBPTT_empty_dataloader Leaky1.torch Leaky1.net 10 Leaky1.sgd Leaky1.rate true None
           "cpu" 3 0 H).
Defined.

(** num_steps = 0 and K = 0, as BPTT passes them. *)
Lemma TBPTT_without_steps_witness :
  0 <= 0 /\
  exists sf,
    TBPTT Leaky1.torch Leaky1.net [Leaky1.short_batch] 0 Leaky1.sgd Leaky1.rate true None
          "cpu" 0 0 = (Raise (UnboundLocalError "step"), sf) /\
    trace sf = [EvReset; EvNetTo "cpu"; EvIter; EvTrain; EvReset].
Proof.
  assert (H : 0 <= 0) by lia. split; [exact H|].
  exact (TBPTT_without_steps Leaky1.torch Leaky1.net 0 Leaky1.sgd Leaky1.rate true None
           "cpu" 0 Leaky1.short_batch [] 0 H H).
Defined.

(** A layer announced to return one value. *)
Lemma unsupported_output_count_witness :
  1 <= 2 /\ 2 <= 2 /\
  ~ (2 <= final_layer_check Cases.single_output (utils_reset Cases.single_output 0) <= 4) /\
  exists sf,
    TBPTT Leaky1.torch Cases.single_output [Leaky1.short_batch] 2 Leaky1.sgd Leaky1.rate
          true None "cpu" 2 0 = (Raise (UnboundLocalError "spk"), sf) /\
    trace sf = [EvReset; EvNetTo "cpu"; EvIter; EvTrain; EvReset].
Proof.
  assert (H1 : 1 <= 2) by lia. assert (H2 : 2 <= 2) by lia.
  assert (H3 : ~ (2 <= final_layer_check Cases.single_output
                        (utils_reset Cases.single_output 0) <= 4)) by (cbn; lia).
  split; [exact H1|]. split; [exact H2|]. split; [exact H3|].
  exact (unsupported_output_count Leaky1.torch Cases.single_output 2 Leaky1.sgd Leaky1.rate
           true None "cpu" 2 Leaky1.short_batch [] 0 H1 H2 H3).
Defined.

(** K = 0 on two time steps. *)
Lemma K_zero_divides_by_zero_witness :
  1 <= 2 /\ network_ok Leaky1.net /\
  exists sf,
    TBPTT Leaky1.torch Leaky1.net [Leaky1.short_batch] 2 Leaky1.sgd Leaky1.rate true None
          "cpu" 0 0 = (Raise ZeroDivisionError, sf) /\
    forward_passes (trace sf) = 2 /\
    optimizer_steps (trace sf) = 0.
Proof.
  assert (H1 : 1 <= 2) by lia.
  assert (H2 : network_ok Leaky1.net) by leaky_network_ok.
  split; [exact H1|]. split; [exact H2|].
  destruct (K_zero_divides_by_zero Leaky1.torch Leaky1.net 2 Leaky1.sgd Leaky1.rate true None
              "cpu" 0 Leaky1.short_batch [] 0 eq_refl H1 H2) as (sf & A & B & _ & C).
  exists sf. repeat split; assumption.
Defined.

(** K = -1 on two batches of two time steps. *)
Lemma negative_K_trains_nothing_witness :
  -1 < 0 /\ 2 mod -1 = 0 /\ 1 <= 2 /\ network_ok Leaky1.net /\
  exists sf,
    TBPTT Leaky1.torch Leaky1.net [Leaky1.short_batch; Leaky1.short_batch] 2 Leaky1.sgd
          Leaky1.rate true None "cpu" (-1) 0 = (Ok (VNum 0), sf) /\
    optimizer_steps (trace sf) = 0 /\
    forward_passes (trace sf) = 4.
Proof.
  assert (H1 : -1 < 0) by lia. assert (H2 : 2 mod -1 = 0) by reflexivity.
  assert (H3 : 1 <= 2) by lia.
  assert (H4 : network_ok Leaky1.net) by leaky_network_ok.
  split; [exact H1|]. split; [exact H2|]. split; [exact H3|]. split; [exact H4|].
  destruct (negative_K_trains_nothing Leaky1.torch Leaky1.net 2 Leaky1.sgd Leaky1.rate true
              None "cpu" (-1) [Leaky1.short_batch; Leaky1.short_batch] 0 H1 H2 H3 H4)
    as (sf & A & B & _ & C & _).
  exists sf. repeat split; assumption.
Defined.

(** A criterion named "unknown_loss", num_steps = 10, K = 3. *)
Lemma unknown_criterion_stops_at_first_window_witness :
  ~ In (crit_name Leaky1.unknown_loss) (map fst criterion_dict) /\
  1 <= 3 <= 10 /\ network_ok Leaky1.net /\
  exists sf,
    TBPTT Leaky1.torch Leaky1.net [Leaky1.batch] 10 Leaky1.sgd Leaky1.unknown_loss true
          None "cpu" 3 0 = (Raise (UnboundLocalError "loss_spk"), sf) /\
    forward_passes (trace sf) = 3 /\
    optimizer_steps (trace sf) = 0.
Proof.
  assert (H1 : ~ In (crit_name Leaky1.unknown_loss) (map fst criterion_dict)).
  { cbn. intros [E | [E | [E | [E | [E | []]]]]]; discriminate E. }
  assert (H2 : 1 <= 3 <= 10) by lia.
  assert (H3 : network_ok Leaky1.net) by leaky_network_ok.
  split; [exact H1|]. split; [exact H2|]. split; [exact H3|].
  destruct (unknown_criterion_stops_at_first_window Leaky1.torch Leaky1.net 10 Leaky1.sgd
              Leaky1.unknown_loss true None "cpu" 3 Leaky1.batch [] 0 H1 H2 H3)
    as (sf & A & B & _ & C).
  exists sf. repeat split; assumption.
Defined.

(** A regularizer named "unknown_reg", num_steps = 10, K = 3. *)
Lemma unknown_regularizer_stops_at_first_window_witness :
  ~ In (reg_name Leaky1.unknown_reg) (map fst reg_dict) /\
  In (crit_name Leaky1.rate) (map fst criterion_dict) /\
  1 <= 3 <= 10 /\ network_ok Leaky1.net /\
  exists sf,
    TBPTT Leaky1.torch Leaky1.net [Leaky1.batch] 10 Leaky1.sgd Leaky1.rate true
          (Some Leaky1.unknown_reg) "cpu" 3 0 = (Raise (UnboundLocalError "reg_spk"), sf) /\
    forward_passes (trace sf) = 3 /\
    List.length (criterion_targets (trace sf)) = 1%nat /\
    optimizer_steps (trace sf) = 0.
Proof.
  assert (H1 : ~ In (reg_name Leaky1.unknown_reg) (map fst reg_dict)).
  { cbn. intros [E | []]. discriminate E. }
  assert (H2 : In (crit_name Leaky1.rate) (map fst criterion_dict)) by (cbn; tauto).
  assert (H3 : 1 <= 3 <= 10) by lia.
  assert (H4 : network_ok Leaky1.net) by leaky_network_ok.
  split; [exact H1|]. split; [exact H2|]. split; [exact H3|]. split; [exact H4|].
  destruct (unknown_regularizer_stops_at_first_window Leaky1.torch Leaky1.net 10 Leaky1.sgd
              Leaky1.rate true (Some Leaky1.unknown_reg) "cpu" 3 Leaky1.unknown_reg
              Leaky1.batch [] 0 eq_refl H1 H2 H3 H4)
    as (sf & A & B & C & _ & D).
  exists sf. repeat split; assumption.
Defined.

(** BPTT on two batches of two time steps, every loss 1/2: it returns 1. *)
Lemma BPTT_returns_the_sum_of_batch_losses_witness :
  1 <= 2 /\ well_formed Leaky1.net Leaky1.rate None /\
  exists v sf,
    BPTT Leaky1.torch Leaky1.net [Leaky1.short_batch; Leaky1.short_batch] 2 Leaky1.sgd
         Leaky1.rate true None "cpu" 0 = (Ok (VNum v), sf) /\
    backward_losses (trace sf) = [1 # 2; 1 # 2]%Q /\
    (v == 1)%Q.
Proof.
  assert (H1 : 1 <= 2) by lia.
  assert (H2 : well_formed Leaky1.net Leaky1.rate None) by leaky_well_formed.
  split; [exact H1|]. split; [exact H2|].
  destruct (BPTT_returns_the_sum_of_batch_losses Leaky1.torch Leaky1.net 2 Leaky1.sgd
              Leaky1.rate true None "cpu" [Leaky1.short_batch; Leaky1.short_batch] 0 H1 H2)
    as (v & sf & A & _ & _ & _ & B & _).
  exists v, sf.
  assert (C : backward_losses (trace sf) = [1 # 2; 1 # 2]%Q).
  { vm_compute in A. injection A as _ <-. reflexivity. }
  split; [exact A|]. split; [exact C|].
  rewrite B, C. reflexivity.
Defined.

(** RTRL on one batch of two time steps, every loss 1/2: it returns 1/2. *)
Lemma RTRL_returns_the_step_losses_over_num_steps_witness :
  1 <= 2 /\ well_formed Leaky1.net Leaky1.rate None /\
  exists v sf,
    RTRL Leaky1.torch Leaky1.net [Leaky1.short_batch] 2 Leaky1.sgd Leaky1.rate true None
         "cpu" 0 = (Ok (VNum v), sf) /\
    backward_losses (trace sf) = [1 # 2; 1 # 2]%Q /\
    (v == 1 # 2)%Q.
Proof.
  assert (H1 : 1 <= 2) by lia.
  assert (H2 : well_formed Leaky1.net Leaky1.rate None) by leaky_well_formed.
  split; [exact H1|]. split; [exact H2|].
  destruct (RTRL_returns_the_step_losses_over_num_steps Leaky1.torch Leaky1.net 2
              Leaky1.sgd Leaky1.rate true None "cpu" [Leaky1.short_batch] 0 H1 H2)
    as (v & sf & A & _ & _ & _ & B).
  exists v, sf.
  assert (C : backward_losses (trace sf) = [1 # 2; 1 # 2]%Q).
  { vm_compute in A. injection A as _ <-. reflexivity. }
  split; [exact A|]. split; [exact C|].
  rewrite B, C. reflexivity.
Defined.

(** Two batches of two time steps, K = 2, time-varying input. *)
Lemma forward_passes_and_resets_witness :
  1 <= 2 <= 2 /\ well_formed Leaky1.net Leaky1.rate None /\
  exists v sf,
    TBPTT Leaky1.torch Leaky1.net [Leaky1.short_batch; Leaky1.short_batch] 2 Leaky1.sgd
          Leaky1.rate true None "cpu" 2 0 = (Ok (VNum v), sf) /\
    resets_and_forwards (trace sf) =
      [EvReset; EvReset; EvForward [1]; EvForward [1];
       EvReset; EvForward [1]; EvForward [1]].
Proof.
  assert (H1 : 1 <= 2 <= 2) by lia.
  assert (H2 : well_formed Leaky1.net Leaky1.rate None) by leaky_well_formed.
  split; [exact H1|]. split; [exact H2|].
  destruct (forward_passes_and_resets Leaky1.torch Leaky1.net 2 Leaky1.sgd Leaky1.rate true
              None "cpu" 2 [Leaky1.short_batch; Leaky1.short_batch] 0 H1 H2)
    as (v & sf & A & B & _).
  exists v, sf. split; [exact A | exact B].
Defined.

(** A rate loss with [l1_rate_sparsity] on a window of two steps. *)
Lemma criterion_and_regularizer_signals_witness :
  well_formed Leaky1.net Leaky1.rate (Some (Leaky1.const_reg "l1_rate_sparsity" 1)) /\
  window_loss Leaky1.torch Leaky1.rate (Some (Leaky1.const_reg "l1_rate_sparsity" 1)) 2
    (the_env Leaky1.net Leaky1.rate (Some (Leaky1.const_reg "l1_rate_sparsity" 1)) 0)
    [0; 1] 2
    (mkFrame (Some 1) 2 0 0%Q 0%Q [[1]; [2]] [[0]; [1]] 2 [])
  = (Ok ((1 # 2) + 1)%Q,
     mkFrame (Some 1) 2 0 0%Q 0%Q [[1]; [2]] [[0]; [1]] 2
             [EvCriterion [0; 1] [0; 1]; EvRegularization [0; 1]]).
Proof.
  assert (H : well_formed Leaky1.net Leaky1.rate
                (Some (Leaky1.const_reg "l1_rate_sparsity" 1))) by leaky_well_formed.
  split; [exact H|].
  exact (criterion_and_regularizer_signals Leaky1.torch Leaky1.net Leaky1.rate
           (Some (Leaky1.const_reg "l1_rate_sparsity" 1)) 2 0 [0; 1] 2
           (mkFrame (Some 1) 2 0 0%Q 0%Q [[1]; [2]] [[0]; [1]] 2 [])
           H ltac:(discriminate) ltac:(discriminate)).
Defined.

(** Two batches, num_steps = K = 2: the second batch is handed
    targets[2:4]. *)
Lemma targets_offset_grows_with_batches_witness :
  1 <= 2 <= 2 /\ 2 mod 2 = 0 /\
  well_formed Leaky1.net Leaky1.membrane None /\
  crit_name Leaky1.membrane = "mse_membrane_loss"%string /\
  crit_time_var_targets Leaky1.membrane = true /\
  nth_error [Leaky1.short_batch; Leaky1.short_batch] 1 = Some Leaky1.short_batch /\
  exists e s s' evs,
    batch_start Leaky1.torch Leaky1.net 2 Leaky1.sgd Leaky1.membrane true None "cpu" 2
                [Leaky1.short_batch; Leaky1.short_batch] 1 0 = (Ok e, s) /\
    K_count s = 1 /\
    batch_body Leaky1.torch Leaky1.net 2 Leaky1.sgd Leaky1.membrane true None "cpu" 2
               e Leaky1.short_batch s = (Ok tt, s') /\
    trace s' = trace s ++ evs /\
    criterion_targets evs = [Leaky1.py_slice [0; 1] 2 4].
Proof.
  assert (H1 : 1 <= 2 <= 2) by lia. assert (H2 : 2 mod 2 = 0) by reflexivity.
  assert (H3 : well_formed Leaky1.net Leaky1.membrane None) by leaky_well_formed.
  assert (H4 : crit_name Leaky1.membrane = "mse_membrane_loss"%string) by reflexivity.
  assert (H5 : crit_time_var_targets Leaky1.membrane = true) by reflexivity.
  assert (H6 : nth_error [Leaky1.short_batch; Leaky1.short_batch] 1
               = Some Leaky1.short_batch) by reflexivity.
  split; [exact H1|]. split; [exact H2|]. split; [exact H3|]. split; [exact H4|].
  split; [exact H5|]. split; [exact H6|].
  destruct (targets_offset_grows_with_batches Leaky1.torch Leaky1.net 2 Leaky1.sgd
              Leaky1.membrane true None "cpu" 2 [Leaky1.short_batch; Leaky1.short_batch]
              0 1%nat Leaky1.short_batch H1 H2 H3 H4 H5 H6)
    as (e & s & s' & evs & A & B & C & _ & D & E).
  exists e, s, s', evs.
  split; [exact A|]. split; [exact B|]. split; [exact C|]. split; [exact D|]. exact E.
Defined.

(** num_steps = 10, K = 3, every window loss 1/2. *)
Lemma backward_on_one_window_witness :
  1 <= 3 <= 10 /\ well_formed Leaky1.net Leaky1.rate None /\
  exists v sf,
    TBPTT Leaky1.torch Leaky1.net [Leaky1.batch] 10 Leaky1.sgd Leaky1.rate true None
          "cpu" 3 0 = (Ok (VNum v), sf) /\
    Forall2 Qeq (backward_losses (trace sf)) [1 # 2; 1 # 2; 1 # 2; 1 # 2]%Q.
Proof.
  assert (H1 : 1 <= 3 <= 10) by lia.
  assert (H2 : well_formed Leaky1.net Leaky1.rate None) by leaky_well_formed.
  split; [exact H1|]. split; [exact H2|].
  destruct (backward_on_one_window Leaky1.torch Leaky1.net 10 Leaky1.sgd Leaky1.rate true
              None "cpu" 3 [Leaky1.batch] 0 H1 H2) as (v & sf & A & B & _).
  exists v, sf. split; [exact A|].
  assert (C : window_losses Leaky1.rate None (trace sf) = [1 # 2; 1 # 2; 1 # 2; 1 # 2]%Q).
  { vm_compute in A. injection A as _ <-. reflexivity. }
  rewrite <- C. exact B.
Defined.
